(** * Phaser.Utils.Debug: the debug overlay renderer of src/utils/Debug.js

    A shallow embedding of the overlay renderer and of the part of the
    canvas 2D context it drives, followed by the properties of the
    start/stop bracket, of the text cursor and of the p2 shape adapter,
    and by those of the render methods built on them: the bracket each
    of them is, the layout and the colours of its texts, its one draw.

    Conventions of the embedding.
    - JavaScript numbers that are pixel coordinates, sizes, physics lengths
      and durations are IEEE 754 doubles, Rocq's primitive [float]: the sums
      and differences the source computes round as they do in JavaScript,
      and NaN and the infinities are among the values.  Alpha, line width
      and angles, which the source only stores, copies or adds once, are
      rationals ([Q]).
    - The conversions of a number to a string, by concatenation and by
      toFixed, belong to the JavaScript runtime and not to the file: they
      are the two functions of a [Runtime], of which nothing is assumed.
    - An argument the caller may leave out is an [option]: [None] is
      JavaScript's undefined (for a snapshot object, null or undefined).
    - A method is an [action]: it takes the renderer and gives an [outcome],
      either the renderer after a normal return or the exception thrown
      together with the renderer as the exception left it.
    - The canvas context keeps its drawing state, its stack of saved
      drawing states and the trace of every call and property assignment it
      received, oldest first.  Strings assigned to strokeStyle, fillStyle
      and font are stored as given; the browser's CSS parsing is not
      modelled.  The current path is not part of the drawing state (save
      and restore do not cover it); it is read off the trace. *)

From Stdlib Require Import ZArith QArith Floats List Ascii String Bool Lia DecimalString.
Import ListNotations.
Local Open Scope string_scope.
Local Open Scope list_scope.
Local Open Scope float_scope.

(** ** The canvas 2D context *)

Module Canvas.

(** A transform is the sequence of operations applied since the last
    setTransform, which itself is the [Matrix] entry at its head. *)
Inductive xform :=
| Matrix (a b c d e f : float)
| Translate (x y : float)
| Rotate (angle : Q).

(** The drawing state: what save() pushes and restore() pops. *)
Record DrawState := mkDrawState {
  transform : list xform;
  strokeStyle : string;
  fillStyle : string;
  font : string;
  globalAlpha : Q;
  lineWidth : Q
}.

(** Calls and property assignments the renderer makes on the context.
    [arc x y r] is arc(x, y, r, 0, Math.PI * 2): every arc of the source
    spans the full turn.  [rotate None] is rotate(NaN) and
    [set_fillStyle None] is the assignment of undefined. *)
Inductive Call :=
| save
| restore
| setTransform (a b c d e f : float)
| translate (x y : float)
| rotate (angle : option Q)
| set_strokeStyle (v : string)
| set_fillStyle (v : option string)
| set_font (v : string)
| set_globalAlpha (v : Q)
| set_lineWidth (v : Q)
| fillText (text : string) (x y : float)
| fillRect (x y w h : float)
| strokeRect (x y w h : float)
| beginPath
| moveTo (x y : float)
| lineTo (x y : float)
| arc (x y radius : float)
| closePath
| fill
| stroke.

Record Context := mkContext {
  state : DrawState;
  stack : list DrawState;
  calls : list Call
}.

Definition with_transform (t : list xform) (s : DrawState) : DrawState :=
  mkDrawState t (strokeStyle s) (fillStyle s) (font s) (globalAlpha s) (lineWidth s).
Definition with_strokeStyle (v : string) (s : DrawState) : DrawState :=
  mkDrawState (transform s) v (fillStyle s) (font s) (globalAlpha s) (lineWidth s).
Definition with_fillStyle (v : string) (s : DrawState) : DrawState :=
  mkDrawState (transform s) (strokeStyle s) v (font s) (globalAlpha s) (lineWidth s).
Definition with_font (v : string) (s : DrawState) : DrawState :=
  mkDrawState (transform s) (strokeStyle s) (fillStyle s) v (globalAlpha s) (lineWidth s).
Definition with_globalAlpha (v : Q) (s : DrawState) : DrawState :=
  mkDrawState (transform s) (strokeStyle s) (fillStyle s) (font s) v (lineWidth s).
Definition with_lineWidth (v : Q) (s : DrawState) : DrawState :=
  mkDrawState (transform s) (strokeStyle s) (fillStyle s) (font s) (globalAlpha s) v.

(** The effect of one call on the drawing state and the stack.
    restore() on an empty stack does nothing; setTransform and translate
    ignore arguments that are not all finite; globalAlpha ignores a
    value outside [0, 1]; lineWidth ignores a value that is not
    positive; rotate ignores NaN; fillStyle ignores undefined. *)
Definition effect (c : Call) (s : DrawState) (st : list DrawState)
  : DrawState * list DrawState :=
  match c with
  | save => (s, s :: st)
  | restore => match st with
               | [] => (s, [])
               | top :: rest => (top, rest)
               end
  | setTransform a b c d e f =>
      (if is_finite a && is_finite b && is_finite c
          && is_finite d && is_finite e && is_finite f
       then with_transform [Matrix a b c d e f] s else s, st)
  | translate x y =>
      (if is_finite x && is_finite y
       then with_transform (transform s ++ [Translate x y]) s else s, st)
  | rotate (Some a) => (with_transform (transform s ++ [Rotate a]) s, st)
  | rotate None => (s, st)
  | set_strokeStyle v => (with_strokeStyle v s, st)
  | set_fillStyle (Some v) => (with_fillStyle v s, st)
  | set_fillStyle None => (s, st)
  | set_font v => (with_font v s, st)
  | set_globalAlpha v =>
      (if Qle_bool 0 v && Qle_bool v 1 then with_globalAlpha v s else s, st)
  | set_lineWidth v =>
      (if Qle_bool v 0 then s else with_lineWidth v s, st)
  | _ => (s, st)
  end.

(** arc throws an IndexSizeError on a negative radius, unless one of its
    numbers is not finite, which makes it do nothing; no other call the
    renderer makes can throw on numbers. *)
Definition raises (c : Call) : bool :=
  match c with
  | arc x y r => is_finite x && is_finite y && is_finite r && (r <? 0)
  | _ => false
  end.

Definition perform (c : Call) (ctx : Context) : Context :=
  let '(s, st) := effect c (state ctx) (stack ctx) in
  mkContext s st (calls ctx ++ [c]).

(** The calls that put pixels on the surface (none when an argument is
    not finite: the call is made all the same). *)
Definition is_draw (c : Call) : bool :=
  match c with
  | fillText _ _ _ | fillRect _ _ _ _ | strokeRect _ _ _ _ | fill | stroke => true
  | _ => false
  end.

Definition is_fillText (c : Call) : bool :=
  match c with
  | fillText _ _ _ => true
  | _ => false
  end.

(** The context a new canvas element hands out. *)
Definition fresh : Context :=
  mkContext
    (mkDrawState [Matrix 1 0 0 1 0 0] "#000000" "#000000" "10px sans-serif" 1%Q 1%Q)
    [] [].

End Canvas.

(** ** Collaborators: the game object and the data snapshots *)

Inductive RenderType := AUTO | CANVAS | WEBGL | HEADLESS.

Definition RenderType_eqb (a b : RenderType) : bool :=
  match a, b with
  | AUTO, AUTO | CANVAS, CANVAS | WEBGL, WEBGL | HEADLESS, HEADLESS => true
  | _, _ => false
  end.

Record Point := mkPoint { px : float; py : float }.

Record Rectangle := mkRectangle {
  rect_x : float; rect_y : float; rect_width : float; rect_height : float
}.

Record Circle := mkCircle { circle_x : float; circle_y : float; circle_radius : float }.

Record Line := mkLine {
  line_start : Point; line_end : Point; line_length : float; line_angle : float
}.

(** game.math: the unit conversions between p2 and pixels.  Phaser.Math is
    not part of the file; the renderer only applies the two functions. *)
Record Math := mkMath { p2px : float -> float; p2pxi : float -> float }.

Record Input := mkInput {
  input_x : float; input_y : float; input_worldX : float; input_worldY : float;
  input_scale : Point;
  activePointer_screenX : float; activePointer_screenY : float
}.

Record Game := mkGame {
  renderType : RenderType;
  game_context : option Canvas.Context;
  game_width : float;
  game_height : float;
  input : Input;
  camera_view : Rectangle;
  math : Math;
  cache_isSoundReady : string -> bool
}.

(** The image the renderer adds to the stage when it draws off screen. *)
Inductive DisplayObject := image (x y width height : float).

(** ** The renderer *)

Record Debug := mkDebug {
  game : Game;
  sprite : option DisplayObject;
  context : option Canvas.Context;
  font : string;
  columnWidth : float;
  lineHeight : float;
  renderShadow : bool;
  currentX : float;
  currentY : float;
  currentAlpha : Q;
  (* set by start only: undefined on a new renderer *)
  currentColor : option string;
  (* how many times stop handed the texture to PIXI.updateWebGLTexture *)
  textureUpdates : nat
}.

Definition with_context (v : option Canvas.Context) (d : Debug) : Debug :=
  mkDebug (game d) (sprite d) v (font d) (columnWidth d) (lineHeight d)
    (renderShadow d) (currentX d) (currentY d) (currentAlpha d) (currentColor d)
    (textureUpdates d).
Definition with_columnWidth (v : float) (d : Debug) : Debug :=
  mkDebug (game d) (sprite d) (context d) (font d) v (lineHeight d)
    (renderShadow d) (currentX d) (currentY d) (currentAlpha d) (currentColor d)
    (textureUpdates d).
Definition with_currentX (v : float) (d : Debug) : Debug :=
  mkDebug (game d) (sprite d) (context d) (font d) (columnWidth d) (lineHeight d)
    (renderShadow d) v (currentY d) (currentAlpha d) (currentColor d)
    (textureUpdates d).
Definition with_currentY (v : float) (d : Debug) : Debug :=
  mkDebug (game d) (sprite d) (context d) (font d) (columnWidth d) (lineHeight d)
    (renderShadow d) (currentX d) v (currentAlpha d) (currentColor d)
    (textureUpdates d).
Definition with_currentAlpha (v : Q) (d : Debug) : Debug :=
  mkDebug (game d) (sprite d) (context d) (font d) (columnWidth d) (lineHeight d)
    (renderShadow d) (currentX d) (currentY d) v (currentColor d)
    (textureUpdates d).
Definition with_currentColor (v : option string) (d : Debug) : Debug :=
  mkDebug (game d) (sprite d) (context d) (font d) (columnWidth d) (lineHeight d)
    (renderShadow d) (currentX d) (currentY d) (currentAlpha d) v
    (textureUpdates d).
Definition with_textureUpdates (v : nat) (d : Debug) : Debug :=
  mkDebug (game d) (sprite d) (context d) (font d) (columnWidth d) (lineHeight d)
    (renderShadow d) (currentX d) (currentY d) (currentAlpha d) (currentColor d) v.

(** new Phaser.Utils.Debug(game) *)
Definition Debug_new (game : Game) : Debug :=
  let this := mkDebug game None None "14px Courier" 100 16 true 0 0 1%Q None 0 in
  if RenderType_eqb (renderType game) CANVAS then
    with_context (game_context game) this
  else
    let ctx := Canvas.fresh in
    let ctx := Canvas.perform (Canvas.set_fillStyle (Some "#ff0000")) ctx in
    let ctx := Canvas.perform (Canvas.fillRect 0 0 400 400) ctx in
    mkDebug game (Some (image 0 0 (game_width game) (game_height game)))
      (Some ctx) "14px Courier" 100 16 true 0 0 1%Q None 0.

(** *** Outcomes and actions *)

Inductive exn := TypeError | IndexSizeError.

Inductive outcome :=
| Normal (d : Debug)
| Throw (e : exn) (d : Debug).

Definition action := Debug -> outcome.

Definition ret : action := Normal.

Definition seq (a b : action) : action :=
  fun d => match a d with
           | Normal d' => b d'
           | Throw e d' => Throw e d'
           end.

Notation "a ;; b" := (seq a b) (at level 61, right associativity).

(** Run an action built from the renderer's current fields. *)
Definition get (f : Debug -> action) : action := fun d => f d d.

(** Assignment to a field of the renderer. *)
Definition assign (f : Debug -> Debug) : action := fun d => Normal (f d).

Definition throw (e : exn) : action := Throw e.

(** this.context.<call>: a TypeError when the context is null. *)
Definition ctx (c : Canvas.Call) : action :=
  fun d => match context d with
           | None => Throw TypeError d
           | Some cx =>
               if Canvas.raises c then Throw IndexSizeError d
               else Normal (with_context (Some (Canvas.perform c cx)) d)
           end.

(** A read of this.context.globalAlpha into a field. *)
Definition read_globalAlpha (f : Q -> Debug -> Debug) : action :=
  fun d => match context d with
           | None => Throw TypeError d
           | Some cx => Normal (f (Canvas.globalAlpha (Canvas.state cx)) d)
           end.

(** [v || fallback] on an optional string: undefined and the empty string
    are falsy. *)
Definition or_default (v : option string) (fallback : string) : string :=
  match v with
  | Some s => if String.eqb s "" then fallback else s
  | None => fallback
  end.

(** [typeof v !== 'number'] / [typeof v === 'undefined'] replaced by 0. *)
Definition or_zero (v : option float) : float :=
  match v with
  | Some n => n
  | None => 0
  end.

(** *** start, stop, line, splitline *)

Definition start (x y : option float) (color : option string) (columnWidth : option float)
  : action :=
  fun this =>
    match context this with
    | None => Normal this
    | Some _ =>
        let x := or_zero x in
        let y := or_zero y in
        let color := or_default color "rgb(255,255,255)" in
        let columnWidth := or_zero columnWidth in
        ( assign (with_currentX x) ;;
          assign (with_currentY y) ;;
          assign (with_currentColor (Some color)) ;;
          read_globalAlpha with_currentAlpha ;;
          assign (with_columnWidth columnWidth) ;;
          ctx Canvas.save ;;
          ctx (Canvas.setTransform 1 0 0 1 0 0) ;;
          ctx (Canvas.set_strokeStyle color) ;;
          ctx (Canvas.set_fillStyle (Some color)) ;;
          get (fun this => ctx (Canvas.set_font (font this))) ;;
          ctx (Canvas.set_globalAlpha 1%Q) ) this
    end.

(** PIXI.updateWebGLTexture(this.baseTexture, this.game.renderer.gl) *)
Definition updateWebGLTexture : action :=
  assign (fun this => with_textureUpdates (S (textureUpdates this)) this).

Definition stop : action :=
  ctx Canvas.restore ;;
  get (fun this => ctx (Canvas.set_globalAlpha (currentAlpha this))) ;;
  get (fun this =>
         match sprite this with
         | Some _ =>
             ctx (Canvas.set_fillStyle (Some "#ff0000")) ;;
             ctx (Canvas.fillRect 0 0 400 400) ;;
             updateWebGLTexture
         | None => ret
         end).

(** The shadow pass shared by line and splitline. *)
Definition shadow (text : string) (x y : float) : action :=
  get (fun this =>
         if renderShadow this then
           ctx (Canvas.set_fillStyle (Some "rgb(0,0,0)")) ;;
           ctx (Canvas.fillText text (x + 1) (y + 1)) ;;
           ctx (Canvas.set_fillStyle (currentColor this))
         else ret).

Definition line (text : string) (x y : option float) : action :=
  fun this =>
    match context this with
    | None => Normal this
    | Some _ =>
        ( match x with Some v => assign (with_currentX v) | None => ret end ;;
          match y with Some v => assign (with_currentY v) | None => ret end ;;
          get (fun this => shadow text (currentX this) (currentY this)) ;;
          get (fun this => ctx (Canvas.fillText text (currentX this) (currentY this))) ;;
          get (fun this => assign (with_currentY (currentY this + lineHeight this))) ) this
    end.

(** The for loop of splitline over [arguments], with its local [x]. *)
Fixpoint splitline_loop (arguments : list string) (x : float) : action :=
  match arguments with
  | [] => ret
  | a :: rest =>
      get (fun this => shadow a x (currentY this)) ;;
      get (fun this => ctx (Canvas.fillText a x (currentY this))) ;;
      get (fun this => splitline_loop rest (x + columnWidth this))
  end.

Definition splitline (arguments : list string) : action :=
  fun this =>
    match context this with
    | None => Normal this
    | Some _ =>
        ( get (fun this => splitline_loop arguments (currentX this)) ;;
          get (fun this => assign (with_currentY (currentY this + lineHeight this))) ) this
    end.

(** ** String conversions used by the formatters *)

(** The JavaScript runtime's conversions of a number to a string:
    [str_num] is the one the concatenation '' + n applies
    (Number::toString), [toFixed] is Number.prototype.toFixed. *)
Class Runtime := mkRuntime {
  str_num : float -> string;
  toFixed : float -> nat -> string
}.

Definition str_bool (b : bool) : string := if b then "true" else "false".

(** '' + v for a property that may be undefined. *)
Definition str_value {R : Runtime} (v : option float) : string :=
  match v with
  | Some n => str_num n
  | None => "undefined"
  end.

Infix "+s" := String.append (at level 50, left associativity).

(** ** Snapshots read by the formatters *)

(** What sound.markers[name] gives when it is an object: its start and
    its stop, undefined where the object has no such property, as a
    property inherited from Object.prototype has none. *)
Record Marker := mkMarker { marker_start : option float; marker_stop : option float }.

Record Sound := mkSound {
  sound_key : string;
  touchLocked : bool;
  pendingPlayback : bool;
  isDecoded : bool;
  isDecoding : bool;
  totalDuration : float;
  isPlaying : bool;
  currentTime : float;
  volume : float;
  mute : bool;
  usingWebAudio : bool;
  usingAudioTag : bool;
  currentMarker : string;
  sound_duration : float;
  (* the read sound.markers[name], of an own or an inherited property;
     None where it gives undefined or null *)
  markers : string -> option Marker;
  sound_position : float
}.

Record Camera := mkCamera {
  camera_width : float; camera_height : float; camera_x : float; camera_y : float;
  camera_bounds : Rectangle; view : Rectangle
}.

Record Pointer := mkPointer {
  pointer_x : float; pointer_y : float;
  pointer_isUp : bool; pointer_isDown : bool; pointer_active : bool;
  pointer_circle : Circle;
  positionDown : Point; pointer_position : Point;
  pointer_id : float; pointer_worldX : float; pointer_worldY : float; pointer_duration : float
}.

Record InputHandler := mkInputHandler {
  pointerX : float; pointerY : float;
  pointerOver : bool; overDuration : float;
  pointerDown : bool; downDuration : float;
  justOver : bool; justOut : bool
}.

Record Sprite := mkSprite {
  sprite_name : string;
  sprite_width : float; sprite_height : float;
  sprite_x : float; sprite_y : float;
  sprite_angle : float; sprite_rotation : float;
  sprite_visible : bool; inCamera : bool;
  anchor : Point; sprite_position : Point; world : Point;
  (* null until input is enabled on the sprite *)
  sprite_input : option InputHandler;
  (* null while the sprite has no physics body; the formatter reads x, y *)
  sprite_body : option Point;
  getBounds : Rectangle
}.

Record Key := mkKey {
  keyCode : float; key_isDown : bool;
  justPressed : bool; justReleased : bool;
  timeDown : float; key_duration : float
}.

(** p2 shapes and bodies. *)
Module p2.

Definition vec2 := (float * float)%type.

Inductive Shape :=
| Rectangle (width height : float) (vertices : list vec2)
| Line (length : float)
| Convex (vertices : list vec2)
| Circle (radius : float)
| Plane
| Particle
| Capsule (length radius : float).

(** shape.vertices; a shape without the property gives undefined, on
    which indexing throws just as it does past the end of an array, so
    the empty list stands for it. *)
Definition vertices (s : Shape) : list vec2 :=
  match s with
  | Rectangle _ _ vs | Convex vs => vs
  | _ => []
  end.

(** shape.width, shape.height, shape.length and shape.radius, undefined
    where the class has none. *)
Definition width (s : Shape) : option float :=
  match s with
  | Rectangle w _ _ => Some w
  | _ => None
  end.

Definition height (s : Shape) : option float :=
  match s with
  | Rectangle _ h _ => Some h
  | _ => None
  end.

Definition length (s : Shape) : option float :=
  match s with
  | Line l | Capsule l _ => Some l
  | _ => None
  end.

Definition radius (s : Shape) : option float :=
  match s with
  | Circle r | Capsule _ r => Some r
  | _ => None
  end.

Record Body := mkBody {
  shapes : list Shape;
  shapeOffsets : list vec2;
  shapeAngles : list Q;
  position : vec2;
  angle : Q
}.

End p2.

(** Property access on a snapshot: a TypeError on null or undefined. *)
Definition deref {A : Type} (v : option A) (k : A -> action) : action :=
  match v with
  | Some a => k a
  | None => throw TypeError
  end.

(** ** The formatters *)

Definition renderSoundInfo {R : Runtime} (sound : option Sound) (x y : option float) (color : option string)
  : action :=
  fun this =>
    match context this with
    | None => Normal this
    | Some _ =>
        let color := or_default color "rgb(255,255,255)" in
        ( start x y (Some color) None ;;
          deref sound (fun sound =>
            line ("Sound: " +s sound_key sound +s " Locked: " +s str_bool (touchLocked sound)) None None ;;
            get (fun this =>
              line ("Is Ready?: " +s str_bool (cache_isSoundReady (game this) (sound_key sound))
                    +s " Pending Playback: " +s str_bool (pendingPlayback sound)) None None) ;;
            line ("Decoded: " +s str_bool (isDecoded sound) +s " Decoding: " +s str_bool (isDecoding sound)) None None ;;
            line ("Total Duration: " +s str_num (totalDuration sound) +s " Playing: " +s str_bool (isPlaying sound)) None None ;;
            line ("Time: " +s str_num (currentTime sound)) None None ;;
            line ("Volume: " +s str_num (volume sound) +s " Muted: " +s str_bool (mute sound)) None None ;;
            line ("WebAudio: " +s str_bool (usingWebAudio sound) +s " Audio: " +s str_bool (usingAudioTag sound)) None None ;;
            if String.eqb (currentMarker sound) "" then ret
            else
              line ("Marker: " +s currentMarker sound +s " Duration: " +s str_num (sound_duration sound)) None None ;;
              deref (markers sound (currentMarker sound)) (fun m =>
                line ("Start: " +s str_value (marker_start m) +s " Stop: " +s str_value (marker_stop m)) None None) ;;
              line ("Position: " +s str_num (sound_position sound)) None None) ;;
          stop ) this
    end.

Definition renderCameraInfo {R : Runtime} (camera : option Camera) (x y : option float) (color : option string)
  : action :=
  fun this =>
    match context this with
    | None => Normal this
    | Some _ =>
        let color := or_default color "rgb(255,255,255)" in
        ( start x y (Some color) None ;;
          deref camera (fun camera =>
            line ("Camera (" +s str_num (camera_width camera) +s " x " +s str_num (camera_height camera) +s ")") None None ;;
            line ("X: " +s str_num (camera_x camera) +s " Y: " +s str_num (camera_y camera)) None None ;;
            line ("Bounds x: " +s str_num (rect_x (camera_bounds camera)) +s " Y: " +s str_num (rect_y (camera_bounds camera))
                  +s " w: " +s str_num (rect_width (camera_bounds camera)) +s " h: " +s str_num (rect_height (camera_bounds camera))) None None ;;
            line ("View x: " +s str_num (rect_x (view camera)) +s " Y: " +s str_num (rect_y (view camera))
                  +s " w: " +s str_num (rect_width (view camera)) +s " h: " +s str_num (rect_height (view camera))) None None) ;;
          stop ) this
    end.

Definition renderPointer {R : Runtime} (pointer : option Pointer) (hideIfUp : option bool)
  (downColor upColor color : option string) : action :=
  fun this =>
    match context this, pointer with
    | None, _ | _, None => Normal this
    | Some _, Some pointer =>
        let hideIfUp := match hideIfUp with Some b => b | None => false end in
        let downColor := or_default downColor "rgba(0,255,0,0.5)" in
        let upColor := or_default upColor "rgba(255,0,0,0.5)" in
        let color := or_default color "rgb(255,255,255)" in
        if hideIfUp && pointer_isUp pointer then Normal this
        else
          ( start (Some (pointer_x pointer)) (Some (pointer_y pointer - 100)) (Some color) None ;;
            ctx Canvas.beginPath ;;
            ctx (Canvas.arc (pointer_x pointer) (pointer_y pointer) (circle_radius (pointer_circle pointer))) ;;
            (if pointer_active pointer
             then ctx (Canvas.set_fillStyle (Some downColor))
             else ctx (Canvas.set_fillStyle (Some upColor))) ;;
            ctx Canvas.fill ;;
            ctx Canvas.closePath ;;
            ctx Canvas.beginPath ;;
            ctx (Canvas.moveTo (px (positionDown pointer)) (py (positionDown pointer))) ;;
            ctx (Canvas.lineTo (px (pointer_position pointer)) (py (pointer_position pointer))) ;;
            ctx (Canvas.set_lineWidth 2%Q) ;;
            ctx Canvas.stroke ;;
            ctx Canvas.closePath ;;
            line ("ID: " +s str_num (pointer_id pointer) +s " Active: " +s str_bool (pointer_active pointer)) None None ;;
            line ("World X: " +s str_num (pointer_worldX pointer) +s " World Y: " +s str_num (pointer_worldY pointer)) None None ;;
            line ("Screen X: " +s str_num (pointer_x pointer) +s " Screen Y: " +s str_num (pointer_y pointer)) None None ;;
            line ("Duration: " +s str_num (pointer_duration pointer) +s " ms") None None ;;
            line ("is Down: " +s str_bool (pointer_isDown pointer) +s " is Up: " +s str_bool (pointer_isUp pointer)) None None ;;
            stop ) this
    end.

Definition renderSpriteInputInfo {R : Runtime} (sprite : option Sprite) (x y : option float) (color : option string)
  : action :=
  fun this =>
    match context this with
    | None => Normal this
    | Some _ =>
        let color := or_default color "rgb(255,255,255)" in
        ( start x y (Some color) None ;;
          deref sprite (fun sprite =>
            line ("Sprite Input: (" +s str_num (sprite_width sprite) +s " x " +s str_num (sprite_height sprite) +s ")") None None ;;
            deref (sprite_input sprite) (fun input =>
              line ("x: " +s toFixed (pointerX input) 1 +s " y: " +s toFixed (pointerY input) 1) None None ;;
              line ("over: " +s str_bool (pointerOver input) +s " duration: " +s toFixed (overDuration input) 0) None None ;;
              line ("down: " +s str_bool (pointerDown input) +s " duration: " +s toFixed (downDuration input) 0) None None ;;
              line ("just over: " +s str_bool (justOver input) +s " just out: " +s str_bool (justOut input)) None None)) ;;
          stop ) this
    end.

Definition renderKey {R : Runtime} (key : option Key) (x y : option float) (color : option string) : action :=
  fun this =>
    match context this with
    | None => Normal this
    | Some _ =>
        let color := or_default color "rgb(255,255,255)" in
        ( start x y (Some color) (Some 150) ;;
          deref key (fun key =>
            splitline ["Key:"; str_num (keyCode key); "isDown:"; str_bool (key_isDown key)] ;;
            splitline ["justPressed:"; str_bool (justPressed key); "justReleased:"; str_bool (justReleased key)] ;;
            splitline ["Time Down:"; toFixed (timeDown key) 0; "duration:"; toFixed (key_duration key) 0]) ;;
          stop ) this
    end.

Definition renderInputInfo {R : Runtime} (x y : option float) (color : option string) : action :=
  fun this =>
    match context this with
    | None => Normal this
    | Some _ =>
        let color := or_default color "rgb(255,255,0)" in
        let input := input (game this) in
        ( start x y (Some color) None ;;
          line "Input" None None ;;
          line ("X: " +s str_num (input_x input) +s " Y: " +s str_num (input_y input)) None None ;;
          line ("World X: " +s str_num (input_worldX input) +s " World Y: " +s str_num (input_worldY input)) None None ;;
          line ("Scale X: " +s toFixed (px (input_scale input)) 1 +s " Scale Y: " +s toFixed (px (input_scale input)) 1) None None ;;
          line ("Screen X: " +s str_num (activePointer_screenX input) +s " Screen Y: " +s str_num (activePointer_screenY input)) None None ;;
          stop ) this
    end.

Definition renderRectangle (rect : option Rectangle) (color : option string) (filled : option bool)
  : action :=
  fun this =>
    match context this with
    | None => Normal this
    | Some _ =>
        let filled := match filled with Some b => b | None => true end in
        let color := or_default color "rgba(0,255,0,0.3)" in
        ( start None None None None ;;
          (if filled then
             ctx (Canvas.set_fillStyle (Some color)) ;;
             deref rect (fun rect =>
               ctx (Canvas.fillRect (rect_x rect) (rect_y rect) (rect_width rect) (rect_height rect)))
           else
             ctx (Canvas.set_strokeStyle color) ;;
             deref rect (fun rect =>
               ctx (Canvas.strokeRect (rect_x rect) (rect_y rect) (rect_width rect) (rect_height rect)))) ;;
          stop ) this
    end.

Definition renderSpriteBounds (sprite : option Sprite) (color : option string) (filled : option bool)
  : action :=
  deref sprite (fun sprite =>
    let bounds := getBounds sprite in
    renderRectangle (Some bounds) color filled).

Definition renderSpriteInfo {R : Runtime} (sprite : option Sprite) (x y : option float) (color : option string)
  : action :=
  fun this =>
    match context this with
    | None => Normal this
    | Some _ =>
        let color := or_default color "rgb(255, 255, 255)" in
        ( start x y (Some color) None ;;
          deref sprite (fun sprite =>
            line ("Sprite: " +s " (" +s str_num (sprite_width sprite) +s " x " +s str_num (sprite_height sprite)
                  +s ") anchor: " +s str_num (px (anchor sprite)) +s " x " +s str_num (py (anchor sprite))) None None ;;
            line ("x: " +s toFixed (sprite_x sprite) 1 +s " y: " +s toFixed (sprite_y sprite) 1) None None ;;
            line ("angle: " +s toFixed (sprite_angle sprite) 1 +s " rotation: " +s toFixed (sprite_rotation sprite) 1) None None ;;
            line ("visible: " +s str_bool (sprite_visible sprite) +s " in camera: " +s str_bool (inCamera sprite)) None None) ;;
          stop ) this
    end.

Definition renderSpriteCoords {R : Runtime} (sprite : option Sprite) (x y : option float) (color : option string)
  : action :=
  fun this =>
    match context this with
    | None => Normal this
    | Some _ =>
        let color := or_default color "rgb(255, 255, 255)" in
        ( start x y (Some color) (Some 100) ;;
          deref sprite (fun sprite =>
            (if String.eqb (sprite_name sprite) "" then ret
             else line (sprite_name sprite) None None) ;;
            splitline ["x:"; toFixed (sprite_x sprite) 2; "y:"; toFixed (sprite_y sprite) 2] ;;
            splitline ["pos x:"; toFixed (px (sprite_position sprite)) 2; "pos y:"; toFixed (py (sprite_position sprite)) 2] ;;
            splitline ["world x:"; toFixed (px (world sprite)) 2; "world y:"; toFixed (py (world sprite)) 2]) ;;
          stop ) this
    end.

(** line.start.x + 0.5 and its like *)
Definition half_pixel (n : float) : float := n + 0.5.

Definition renderLine (line : option Line) (color : option string) : action :=
  fun this =>
    match context this with
    | None => Normal this
    | Some _ =>
        let color := or_default color "rgb(255, 255, 255)" in
        ( start (Some 0) (Some 0) (Some color) None ;;
          ctx (Canvas.set_lineWidth 1%Q) ;;
          ctx Canvas.beginPath ;;
          deref line (fun line =>
            ctx (Canvas.moveTo (half_pixel (px (line_start line))) (half_pixel (py (line_start line)))) ;;
            ctx (Canvas.lineTo (half_pixel (px (line_end line))) (half_pixel (py (line_end line))))) ;;
          ctx Canvas.closePath ;;
          ctx Canvas.stroke ;;
          stop ) this
    end.

Definition renderLineInfo {R : Runtime} (line : option Line) (x y : option float) (color : option string)
  : action :=
  fun this =>
    match context this with
    | None => Normal this
    | Some _ =>
        let color := or_default color "rgb(255, 255, 255)" in
        ( start x y (Some color) (Some 80) ;;
          deref line (fun line =>
            splitline ["start.x:"; toFixed (px (line_start line)) 2; "start.y:"; toFixed (py (line_start line)) 2] ;;
            splitline ["end.x:"; toFixed (px (line_end line)) 2; "end.y:"; toFixed (py (line_end line)) 2] ;;
            splitline ["length:"; toFixed (line_length line) 2; "angle:"; str_num (line_angle line)]) ;;
          stop ) this
    end.

Definition renderPointInfo {R : Runtime} (point : option Point) (x y : option float) (color : option string)
  : action :=
  fun this =>
    match context this with
    | None => Normal this
    | Some _ =>
        let color := or_default color "rgb(255, 255, 255)" in
        ( start x y (Some color) None ;;
          deref point (fun point =>
            line ("px: " +s toFixed (px point) 1 +s " py: " +s toFixed (py point) 1) None None) ;;
          stop ) this
    end.

Definition renderPixel (x y : float) (color : option string) : action :=
  fun this =>
    match context this with
    | None => Normal this
    | Some _ =>
        let color := or_default color "rgba(0,255,0,1)" in
        ( start None None None None ;;
          ctx (Canvas.set_fillStyle (Some color)) ;;
          ctx (Canvas.fillRect x y 2 2) ;;
          stop ) this
    end.

Definition renderPoint (point : option Point) (color : option string) : action :=
  fun this =>
    match context this with
    | None => Normal this
    | Some _ =>
        let color := or_default color "rgba(0,255,0,1)" in
        ( start None None None None ;;
          ctx (Canvas.set_fillStyle (Some color)) ;;
          deref point (fun point => ctx (Canvas.fillRect (px point) (py point) 4 4)) ;;
          stop ) this
    end.

Definition renderCircle (circle : option Circle) (color : option string) : action :=
  fun this =>
    match context this with
    | None => Normal this
    | Some _ =>
        let color := or_default color "rgba(0,255,0,0.3)" in
        ( start None None None None ;;
          ctx Canvas.beginPath ;;
          ctx (Canvas.set_fillStyle (Some color)) ;;
          deref circle (fun circle =>
            ctx (Canvas.arc (circle_x circle) (circle_y circle) (circle_radius circle))) ;;
          ctx Canvas.fill ;;
          ctx Canvas.closePath ;;
          stop ) this
    end.

Definition renderText (text : string) (x y : float) (color font : option string) : action :=
  fun this =>
    match context this with
    | None => Normal this
    | Some _ =>
        let color := or_default color "rgb(255,255,255)" in
        let font := or_default font "16px Courier" in
        ( start None None None None ;;
          ctx (Canvas.set_font font) ;;
          ctx (Canvas.set_fillStyle (Some color)) ;;
          ctx (Canvas.fillText text x y) ;;
          stop ) this
    end.

Definition renderBodyInfo {R : Runtime} (sprite : option Sprite) (x y : option float) (color : option string)
  : action :=
  fun this =>
    match context this with
    | None => Normal this
    | Some _ =>
        let color := or_default color "rgb(255,255,255)" in
        ( start x y (Some color) (Some 210) ;;
          deref sprite (fun sprite =>
            deref (sprite_body sprite) (fun body =>
              splitline ["x: " +s toFixed (px body) 2; "y: " +s toFixed (py body) 2;
                         "width: " +s str_num (sprite_width sprite);
                         "height: " +s str_num (sprite_height sprite)])) ;;
          stop ) this
    end.

(** ** The shape adapter *)

(** bodyAngle + angle, NaN when the shape angle is undefined. *)
Definition add_angle (bodyAngle : Q) (angle : option Q) : option Q :=
  match angle with
  | Some a => Some (Qplus bodyAngle a)
  | None => None
  end.

(** The lineTo loop of renderShapeRectangle and renderShapeConvex over
    points[1], points[2], ... *)
Fixpoint lineTo_points (points : list p2.vec2) : action :=
  match points with
  | [] => ret
  | p :: rest =>
      get (fun this =>
             ctx (Canvas.lineTo (p2pxi (math (game this)) (fst p))
                                (p2pxi (math (game this)) (snd p)))) ;;
      lineTo_points rest
  end.

(** p2px of a length that may be undefined (NaN then). *)
Definition p2px_of (m : Math) (v : option float) : option float :=
  match v with
  | Some n => Some (p2px m n)
  | None => None
  end.

(** The locals w and h are computed and never used. *)
Definition renderShapeRectangle (x y : float) (bodyAngle : Q) (shape : p2.Shape)
  (offset : option p2.vec2) (angle : option Q) : action :=
  get (fun this =>
    let w := p2px_of (math (game this)) (p2.width shape) in
    let h := p2px_of (math (game this)) (p2.height shape) in
    let points := p2.vertices shape in
    ctx Canvas.beginPath ;;
    ctx Canvas.save ;;
    deref offset (fun offset =>
      get (fun this =>
             ctx (Canvas.translate (x + p2pxi (math (game this)) (fst offset))
                                   (y + p2pxi (math (game this)) (snd offset))))) ;;
    ctx (Canvas.rotate (add_angle bodyAngle angle)) ;;
    deref (hd_error points) (fun p0 =>
      get (fun this =>
             ctx (Canvas.moveTo (p2pxi (math (game this)) (fst p0))
                                (p2pxi (math (game this)) (snd p0))))) ;;
    lineTo_points (tl points) ;;
    ctx Canvas.closePath ;;
    ctx Canvas.stroke ;;
    ctx Canvas.restore).

(** lineTo(NaN, 0), which a shape without a length would give, adds
    nothing to the path. *)
Definition renderShapeLine (x y : float) (bodyAngle : Q) (shape : p2.Shape)
  (offset : option p2.vec2) (angle : option Q) : action :=
  ctx Canvas.beginPath ;;
  ctx Canvas.save ;;
  ctx (Canvas.translate x y) ;;
  ctx (Canvas.rotate (add_angle bodyAngle angle)) ;;
  ctx (Canvas.set_lineWidth (1 # 2)) ;;
  ctx (Canvas.moveTo 0 0) ;;
  match p2.length shape with
  | Some l => get (fun this => ctx (Canvas.lineTo (p2px (math (game this)) l) 0))
  | None => ret
  end ;;
  ctx Canvas.closePath ;;
  ctx Canvas.stroke ;;
  ctx Canvas.restore.

Definition renderShapeConvex (x y : float) (bodyAngle : Q) (shape : p2.Shape)
  (offset : option p2.vec2) (angle : option Q) : action :=
  let points := p2.vertices shape in
  ctx Canvas.beginPath ;;
  ctx Canvas.save ;;
  deref offset (fun offset =>
    get (fun this =>
           ctx (Canvas.translate (x + p2pxi (math (game this)) (fst offset))
                                 (y + p2pxi (math (game this)) (snd offset))))) ;;
  ctx (Canvas.rotate (add_angle bodyAngle angle)) ;;
  deref (hd_error points) (fun p0 =>
    get (fun this =>
           ctx (Canvas.moveTo (p2pxi (math (game this)) (fst p0))
                              (p2pxi (math (game this)) (snd p0))))) ;;
  lineTo_points (tl points) ;;
  ctx Canvas.closePath ;;
  ctx Canvas.stroke ;;
  ctx Canvas.restore.

(** arc(0, 0, NaN, ...), which a shape without a radius would give, adds
    nothing to the path. *)
Definition renderShapeCircle (x y : float) (bodyAngle : Q) (shape : p2.Shape)
  (offset : option p2.vec2) (angle : option Q) : action :=
  ctx Canvas.beginPath ;;
  ctx Canvas.save ;;
  deref offset (fun offset =>
    get (fun this =>
           ctx (Canvas.translate (x + p2pxi (math (game this)) (fst offset))
                                 (y + p2pxi (math (game this)) (snd offset))))) ;;
  match p2.radius shape with
  | Some r => get (fun this => ctx (Canvas.arc 0 0 (p2px (math (game this)) r)))
  | None => ret
  end ;;
  ctx Canvas.closePath ;;
  ctx Canvas.stroke ;;
  ctx Canvas.restore.

(** The body of the while loop of renderPhysicsBody at index [i]: the
    instanceof chain.  p2.Rectangle extends p2.Convex and is tested first. *)
Definition renderShapeAt (i : nat) (x y : float) (angle : Q)
  (shapes : list p2.Shape) (shapeOffsets : list p2.vec2) (shapeAngles : list Q)
  : action :=
  match nth_error shapes i with
  | Some (p2.Rectangle _ _ _ as shape) =>
      renderShapeRectangle x y angle shape (nth_error shapeOffsets i) (nth_error shapeAngles i)
  | Some (p2.Line _ as shape) =>
      renderShapeLine x y angle shape (nth_error shapeOffsets i) (nth_error shapeAngles i)
  | Some (p2.Convex _ as shape) =>
      renderShapeConvex x y angle shape (nth_error shapeOffsets i) (nth_error shapeAngles i)
  | Some (p2.Circle _ as shape) =>
      renderShapeCircle x y angle shape (nth_error shapeOffsets i) (nth_error shapeAngles i)
  | _ => ret
  end.

(** while (i--) { ... }: the shapes from the last to the first. *)
Fixpoint renderShapes (i : nat) (x y : float) (angle : Q)
  (shapes : list p2.Shape) (shapeOffsets : list p2.vec2) (shapeAngles : list Q)
  : action :=
  match i with
  | O => ret
  | S i' =>
      renderShapeAt i' x y angle shapes shapeOffsets shapeAngles ;;
      renderShapes i' x y angle shapes shapeOffsets shapeAngles
  end.

Definition renderPhysicsBody (body : option p2.Body) (color : option string) : action :=
  fun this =>
    match context this with
    | None => Normal this
    | Some _ =>
        let color := or_default color "rgb(255,255,255)" in
        ( start (Some 0) (Some 0) (Some color) None ;;
          deref body (fun body =>
            let shapes := p2.shapes body in
            let shapeOffsets := p2.shapeOffsets body in
            let shapeAngles := p2.shapeAngles body in
            let i := List.length shapes in
            get (fun this =>
              let x := p2pxi (math (game this)) (fst (p2.position body)) - rect_x (camera_view (game this)) in
              let y := p2pxi (math (game this)) (snd (p2.position body)) - rect_y (camera_view (game this)) in
              let angle := p2.angle body in
              renderShapes i x y angle shapes shapeOffsets shapeAngles)) ;;
          stop ) this
    end.

(** ** Methods as data, and runs of calls *)

Inductive Method :=
| Mstart (x y : option float) (color : option string) (columnWidth : option float)
| Mstop
| Mline (text : string) (x y : option float)
| Msplitline (arguments : list string)
| MrenderSoundInfo (sound : option Sound) (x y : option float) (color : option string)
| MrenderCameraInfo (camera : option Camera) (x y : option float) (color : option string)
| MrenderPointer (pointer : option Pointer) (hideIfUp : option bool)
    (downColor upColor color : option string)
| MrenderSpriteInputInfo (sprite : option Sprite) (x y : option float) (color : option string)
| MrenderKey (key : option Key) (x y : option float) (color : option string)
| MrenderInputInfo (x y : option float) (color : option string)
| MrenderSpriteBounds (sprite : option Sprite) (color : option string) (filled : option bool)
| MrenderSpriteInfo (sprite : option Sprite) (x y : option float) (color : option string)
| MrenderSpriteCoords (sprite : option Sprite) (x y : option float) (color : option string)
| MrenderLine (line : option Line) (color : option string)
| MrenderLineInfo (line : option Line) (x y : option float) (color : option string)
| MrenderPointInfo (point : option Point) (x y : option float) (color : option string)
| MrenderPixel (x y : float) (color : option string)
| MrenderPoint (point : option Point) (color : option string)
| MrenderRectangle (rect : option Rectangle) (color : option string) (filled : option bool)
| MrenderCircle (circle : option Circle) (color : option string)
| MrenderText (text : string) (x y : float) (color font : option string)
| MrenderBodyInfo (sprite : option Sprite) (x y : option float) (color : option string)
| MrenderPhysicsBody (body : option p2.Body) (color : option string)
| MrenderShapeRectangle (x y : float) (bodyAngle : Q) (shape : p2.Shape)
    (offset : option p2.vec2) (angle : option Q)
| MrenderShapeLine (x y : float) (bodyAngle : Q) (shape : p2.Shape)
    (offset : option p2.vec2) (angle : option Q)
| MrenderShapeConvex (x y : float) (bodyAngle : Q) (shape : p2.Shape)
    (offset : option p2.vec2) (angle : option Q)
| MrenderShapeCircle (x y : float) (bodyAngle : Q) (shape : p2.Shape)
    (offset : option p2.vec2) (angle : option Q).

Definition call {R : Runtime} (m : Method) : action :=
  match m with
  | Mstart x y color columnWidth => start x y color columnWidth
  | Mstop => stop
  | Mline text x y => line text x y
  | Msplitline arguments => splitline arguments
  | MrenderSoundInfo sound x y color => renderSoundInfo sound x y color
  | MrenderCameraInfo camera x y color => renderCameraInfo camera x y color
  | MrenderPointer pointer hideIfUp downColor upColor color =>
      renderPointer pointer hideIfUp downColor upColor color
  | MrenderSpriteInputInfo sprite x y color => renderSpriteInputInfo sprite x y color
  | MrenderKey key x y color => renderKey key x y color
  | MrenderInputInfo x y color => renderInputInfo x y color
  | MrenderSpriteBounds sprite color filled => renderSpriteBounds sprite color filled
  | MrenderSpriteInfo sprite x y color => renderSpriteInfo sprite x y color
  | MrenderSpriteCoords sprite x y color => renderSpriteCoords sprite x y color
  | MrenderLine line color => renderLine line color
  | MrenderLineInfo line x y color => renderLineInfo line x y color
  | MrenderPointInfo point x y color => renderPointInfo point x y color
  | MrenderPixel x y color => renderPixel x y color
  | MrenderPoint point color => renderPoint point color
  | MrenderRectangle rect color filled => renderRectangle rect color filled
  | MrenderCircle circle color => renderCircle circle color
  | MrenderText text x y color font => renderText text x y color font
  | MrenderBodyInfo sprite x y color => renderBodyInfo sprite x y color
  | MrenderPhysicsBody body color => renderPhysicsBody body color
  | MrenderShapeRectangle x y bodyAngle shape offset angle =>
      renderShapeRectangle x y bodyAngle shape offset angle
  | MrenderShapeLine x y bodyAngle shape offset angle =>
      renderShapeLine x y bodyAngle shape offset angle
  | MrenderShapeConvex x y bodyAngle shape offset angle =>
      renderShapeConvex x y bodyAngle shape offset angle
  | MrenderShapeCircle x y bodyAngle shape offset angle =>
      renderShapeCircle x y bodyAngle shape offset angle
  end.

(** A run of calls, one after the other; an exception ends it. *)
Fixpoint run {R : Runtime} (ms : list Method) : action :=
  match ms with
  | [] => ret
  | m :: rest => call m ;; run rest
  end.

(** ** Reading the surface *)

(** Everything the context received so far; nothing for a null context. *)
Definition trace (d : Debug) : list Canvas.Call :=
  match context d with
  | Some c => Canvas.calls c
  | None => []
  end.

(** The draw calls among [l]. *)
Definition draws (l : list Canvas.Call) : list Canvas.Call :=
  filter Canvas.is_draw l.

Definition perform_all (l : list Canvas.Call) (c : Canvas.Context) : Canvas.Context :=
  fold_left (fun cx k => Canvas.perform k cx) l c.

(** What one line of text sends to the context at position (x, y): the
    black shadow one pixel down and right and the fill-colour reset when
    shadows are on, then the text itself. *)
Definition text_calls (shadowed : bool) (color : option string)
  (text : string) (x y : float) : list Canvas.Call :=
  if shadowed then
    [ Canvas.set_fillStyle (Some "rgb(0,0,0)");
      Canvas.fillText text (x + 1) (y + 1);
      Canvas.set_fillStyle color;
      Canvas.fillText text x y ]
  else
    [ Canvas.fillText text x y ].

(** The elements of a list paired with their indices from [k]. *)
Definition indexed_from {A : Type} (k : nat) (l : list A) : list (nat * A) :=
  combine (List.seq k (List.length l)) l.

Definition indexed {A : Type} (l : list A) : list (nat * A) := indexed_from 0 l.

(** [step] added to [v] [n] times, one rounding addition after the
    other, as a loop of [v += step] does: ((v + step) + step) + ... *)
Fixpoint add_times (v step : float) (n : nat) : float :=
  match n with
  | O => v
  | S n' => add_times (v + step) step n'
  end.

(** N calls of line(text) without x or y. *)
Definition lines {R : Runtime} (texts : list string) : action :=
  run (map (fun t => Mline t None None) texts).

(** ** A runtime and a game, for examples *)

(** The whole number a finite double stands for, when it stands for
    one. *)
Definition whole (v : float) : option Z :=
  match Prim2SF v with
  | S754_zero _ => Some 0%Z
  | S754_finite s m e =>
      let n := if s then Z.neg m else Z.pos m in
      if (0 <=? e)%Z then Some (n * 2 ^ e)%Z
      else if (Z.pos m mod 2 ^ (- e) =? 0)%Z then Some (n / 2 ^ (- e))%Z
      else None
  | _ => None
  end.

Fixpoint zeros (digits : nat) : string :=
  match digits with
  | O => ""
  | S k => String "0"%char (zeros k)
  end.

(** The decimal digits of a whole number of magnitude below 10^21, with
    its sign: what both conversions of JavaScript start with on such a
    number. *)
Definition whole_digits (v : float) : option string :=
  match whole v with
  | Some n =>
      if (Z.abs n <? 10 ^ 21)%Z then Some (NilZero.string_of_int (Z.to_int n))
      else None
  | None => None
  end.

(** The conversions on the numbers the examples print, which are whole:
    '' + 32 is "32" and (1).toFixed(1) is "1.0".  On any other number
    this runtime answers "#", which no runtime does: the examples print
    no such number, and no property is stated of this runtime. *)
Definition example_runtime : Runtime :=
  mkRuntime
    (fun v => match whole_digits v with
              | Some s => s
              | None => "#"
              end)
    (fun v digits =>
       match whole_digits v, digits with
       | Some s, O => s
       | Some s, S _ => String.append s (String.append "." (zeros digits))
       | None, _ => "#"
       end).


Definition example_math : Math := mkMath (fun v => v * 20) (fun v => v * -20).

Definition example_input : Input := mkInput 320 240 320 240 (mkPoint 1 1) 320 240.

Definition canvas_game : Game :=
  mkGame CANVAS (Some Canvas.fresh) 800 600 example_input
    (mkRectangle 0 0 800 600) example_math (fun _ => true).

Definition webgl_game : Game :=
  mkGame WEBGL None 800 600 example_input
    (mkRectangle 0 0 800 600) example_math (fun _ => true).

(** A canvas game whose context is not there yet. *)
Definition unready_game : Game :=
  mkGame CANVAS None 800 600 example_input
    (mkRectangle 0 0 800 600) example_math (fun _ => true).

(** ** Vocabulary of the properties *)


(** Two drawing states that agree on everything but the fill colour. *)
Definition same_but_fill (s s' : Canvas.DrawState) : Prop :=
  Canvas.transform s' = Canvas.transform s /\
  Canvas.strokeStyle s' = Canvas.strokeStyle s /\
  Canvas.font s' = Canvas.font s /\
  Canvas.globalAlpha s' = Canvas.globalAlpha s /\
  Canvas.lineWidth s' = Canvas.lineWidth s.

(** The calls of a row of columns starting at x. *)
Fixpoint columns_calls (shadowed : bool) (color : option string)
  (arguments : list string) (x columnWidth y : float) : list Canvas.Call :=
  match arguments with
  | [] => []
  | a :: rest =>
      text_calls shadowed color a x y
      ++ columns_calls shadowed color rest (x + columnWidth) columnWidth y
  end.

(** What start sends to the context. *)
Definition start_calls (color font : string) : list Canvas.Call :=
  [ Canvas.save;
    Canvas.setTransform 1 0 0 1 0 0;
    Canvas.set_strokeStyle color;
    Canvas.set_fillStyle (Some color);
    Canvas.set_font font;
    Canvas.set_globalAlpha 1%Q ].

(** What stop sends to the context: the restore and the alpha reset,
    then the repaint of the off-screen canvas when there is one. *)
Definition stop_calls (alpha : Q) (offscreen : bool) : list Canvas.Call :=
  [ Canvas.restore; Canvas.set_globalAlpha alpha ]
  ++ (if offscreen
      then [ Canvas.set_fillStyle (Some "#ff0000"); Canvas.fillRect 0 0 400 400 ]
      else []).

Definition has_sprite (d : Debug) : bool :=
  match sprite d with
  | Some _ => true
  | None => false
  end.

(** The drawing state of the renderer's surface, if it has one. *)
Definition ambient (d : Debug) : option Canvas.DrawState :=
  option_map Canvas.state (context d).





(** A canvas context at half opacity. *)
Definition translucent : Canvas.Context :=
  Canvas.mkContext
    (Canvas.mkDrawState [Canvas.Matrix 1 0 0 1 0 0] "#000000" "#000000"
       "10px sans-serif" (1 # 2) 1%Q) [] [].

(** The calls that follow a start in its bracket and after it: line,
    splitline, stop, and a start that again leaves the column width out. *)
Definition keeps_columnWidth (m : Method) : bool :=
  match m with
  | Mline _ _ _ | Msplitline _ | Mstop | Mstart _ _ _ None => true
  | _ => false
  end.

(** The renderer has a context and its column width is 0. *)
Definition no_columns (d : Debug) : Prop :=
  (exists c, context d = Some c) /\ columnWidth d = 0.

Definition lineTo_calls (m : Math) (points : list p2.vec2) : list Canvas.Call :=
  map (fun p => Canvas.lineTo (p2pxi m (fst p)) (p2pxi m (snd p)))
    points.

(** What each helper sends between its save and its restore. *)
Definition polygon_inner (m : Math) (x y : float) (bodyAngle : Q)
  (p0 : p2.vec2) (rest : list p2.vec2) (offset : p2.vec2) (angle : option Q)
  : list Canvas.Call :=
  [ Canvas.translate (x + p2pxi m (fst offset)) (y + p2pxi m (snd offset));
    Canvas.rotate (add_angle bodyAngle angle);
    Canvas.moveTo (p2pxi m (fst p0)) (p2pxi m (snd p0)) ]
  ++ lineTo_calls m rest
  ++ [ Canvas.closePath; Canvas.stroke ].

Definition line_inner (m : Math) (x y : float) (bodyAngle : Q)
  (shape : p2.Shape) (angle : option Q) : list Canvas.Call :=
  [ Canvas.translate x y;
    Canvas.rotate (add_angle bodyAngle angle);
    Canvas.set_lineWidth (1 # 2);
    Canvas.moveTo 0 0 ]
  ++ match p2.length shape with
     | Some l => [ Canvas.lineTo (p2px m l) 0 ]
     | None => []
     end
  ++ [ Canvas.closePath; Canvas.stroke ].

Definition circle_inner (m : Math) (x y : float) (shape : p2.Shape) (offset : p2.vec2)
  : list Canvas.Call :=
  [ Canvas.translate (x + p2pxi m (fst offset)) (y + p2pxi m (snd offset)) ]
  ++ match p2.radius shape with
     | Some r => [ Canvas.arc 0 0 (p2px m r) ]
     | None => []
     end
  ++ [ Canvas.closePath; Canvas.stroke ].

(** A helper's calls: beginPath, then the save/restore pair around the
    rest. *)
Definition scoped (inner : list Canvas.Call) : list Canvas.Call :=
  Canvas.beginPath :: Canvas.save :: inner ++ [Canvas.restore].

(** Calls other than save and restore leave the stack alone. *)
Definition unscoped (k : Canvas.Call) : bool :=
  match k with
  | Canvas.save | Canvas.restore => false
  | _ => true
  end.

(** The trace of the surface when a call has ended, either way. *)
Definition outcome_trace (o : outcome) : list Canvas.Call :=
  match o with
  | Normal d | Throw _ d => trace d
  end.

(** The shapes the instanceof chain of renderPhysicsBody knows. *)
Definition recognised (shape : p2.Shape) : bool :=
  match shape with
  | p2.Rectangle _ _ _ | p2.Line _ | p2.Convex _ | p2.Circle _ => true
  | _ => false
  end.

(** What p2 keeps true of the shapes of a body: a shape comes with its
    offset (addShape pushes the shape, its offset and its angle
    together), a polygon has at least one vertex, and the radius of a
    circle, in pixels, is not negative. *)
Definition shape_ok (m : Math) (shape : p2.Shape) (offset : option p2.vec2) : bool :=
  match shape with
  | p2.Rectangle _ _ vs | p2.Convex vs =>
      match offset, vs with
      | Some _, _ :: _ => true
      | _, _ => false
      end
  | p2.Circle r =>
      match offset with
      | Some _ => negb (p2px m r <? 0)
      | None => false
      end
  | _ => true
  end.

Definition body_ok (m : Math) (body : p2.Body) : bool :=
  forallb (fun i =>
             match nth_error (p2.shapes body) i with
             | Some shape => shape_ok m shape (nth_error (p2.shapeOffsets body) i)
             | None => true
             end)
    (List.seq 0 (List.length (p2.shapes body))).

(** The Cursor State of the specification. *)
Definition cursor (d : Debug) : float * float * option string * float :=
  (currentX d, currentY d, currentColor d, columnWidth d).

(** What a shape helper may change: the trace of the context, and
    nothing else of the renderer or of the drawing state. *)
Definition only_traced (d d' : Debug) (c c' : Canvas.Context) : Prop :=
  context d' = Some c' /\
  with_context (Some c) d' = d /\
  cursor d' = cursor d /\
  Canvas.state c' = Canvas.state c /\
  Canvas.stack c' = Canvas.stack c.

(** A body with a rectangle, a line, a plane and a circle. *)
Definition example_body : p2.Body :=
  p2.mkBody
    [ p2.Rectangle 2 1 [(-1, -1); (1, -1); (1, 1); (-1, 1)];
      p2.Line 3; p2.Plane; p2.Circle 1 ]
    [ (0, 0); (1, 0); (0, 0); (0, 2) ]
    [ 0%Q; 0%Q; 0%Q; 0%Q ]
    (5, 5) 0%Q.

(** A body whose only shape is a convex without vertices. *)
Definition degenerate_body : p2.Body :=
  p2.mkBody [ p2.Convex [] ] [ (1, 1) ] [ 0%Q ] (5, 5) 0%Q.

(** The methods that return at once, or before they touch the context,
    when the context is null: all but stop and the four shape helpers,
    which use the context without a test, and renderSpriteBounds on a
    null sprite, which reads the sprite before renderRectangle tests the
    context. *)
Definition tolerates_null_context (m : Method) : bool :=
  match m with
  | Mstop
  | MrenderShapeRectangle _ _ _ _ _ _
  | MrenderShapeLine _ _ _ _ _ _
  | MrenderShapeConvex _ _ _ _ _ _
  | MrenderShapeCircle _ _ _ _ _ _
  | MrenderSpriteBounds None _ _ => false
  | _ => true
  end.

(** The render methods called with null (or undefined) for the object
    they describe, renderPointer apart. *)
Definition null_snapshot (m : Method) : bool :=
  match m with
  | MrenderSoundInfo None _ _ _
  | MrenderCameraInfo None _ _ _
  | MrenderSpriteInputInfo None _ _ _
  | MrenderKey None _ _ _
  | MrenderSpriteBounds None _ _
  | MrenderSpriteInfo None _ _ _
  | MrenderSpriteCoords None _ _ _
  | MrenderLine None _
  | MrenderLineInfo None _ _ _
  | MrenderPointInfo None _ _ _
  | MrenderPoint None _
  | MrenderRectangle None _ _
  | MrenderCircle None _
  | MrenderBodyInfo None _ _ _
  | MrenderPhysicsBody None _ => true
  | _ => false
  end.








(** ** Vocabulary of the bracket discipline *)

(** The transform setTransform(1, 0, 0, 1, 0, 0) leaves. *)
Definition identity : list Canvas.xform := [Canvas.Matrix 1 0 0 1 0 0].

(** Screen space at full opacity: the surface as start leaves it. *)
Definition screen_space (s : Canvas.DrawState) : Prop :=
  Canvas.transform s = identity /\ Canvas.globalAlpha s = 1%Q.

(** Full opacity, and a transform built on the identity by translations
    and rotations: no ambient transform is part of it. *)
Definition screen_based (s : Canvas.DrawState) : Prop :=
  (exists rest, Canvas.transform s = Canvas.Matrix 1 0 0 1 0 0 :: rest) /\
  Canvas.globalAlpha s = 1%Q.

(** The draw calls among [l], each with the drawing state it is made in,
    when [l] is sent to the context [c]. *)
Fixpoint drawn (l : list Canvas.Call) (c : Canvas.Context)
  : list (Canvas.Call * Canvas.DrawState) :=
  match l with
  | [] => []
  | k :: rest =>
      (if Canvas.is_draw k then [(k, Canvas.state c)] else [])
      ++ drawn rest (Canvas.perform k c)
  end.

Definition is_path_draw (k : Canvas.Call) : bool :=
  match k with
  | Canvas.fill | Canvas.stroke => true
  | _ => false
  end.

(** A draw of the overlay: at full opacity on a transform built on the
    identity, and, unless it fills or strokes a path, in screen space
    itself. *)
Definition overlay_draw (p : Canvas.Call * Canvas.DrawState) : Prop :=
  screen_based (snd p) /\
  (is_path_draw (fst p) = false -> Canvas.transform (snd p) = identity).

(** The calls that touch neither the stack, the transform nor the alpha. *)
Definition simple (k : Canvas.Call) : bool :=
  match k with
  | Canvas.save | Canvas.restore | Canvas.setTransform _ _ _ _ _ _
  | Canvas.translate _ _ | Canvas.rotate _ | Canvas.set_globalAlpha _ => false
  | _ => true
  end.

(** The calls a shape helper makes between its save and its restore. *)
Definition path_only (k : Canvas.Call) : bool :=
  match k with
  | Canvas.translate _ _ | Canvas.rotate _ | Canvas.set_lineWidth _
  | Canvas.moveTo _ _ | Canvas.lineTo _ _ | Canvas.arc _ _ _
  | Canvas.closePath | Canvas.stroke => true
  | _ => false
  end.

(** Calls that, sent to a surface in screen space, leave it in screen
    space with its stack as it was, and draw only overlay draws. *)
Definition tidy (l : list Canvas.Call) : Prop :=
  forall c,
    screen_space (Canvas.state c) ->
    screen_space (Canvas.state (perform_all l c)) /\
    Canvas.stack (perform_all l c) = Canvas.stack c /\
    Forall overlay_draw (drawn l c).

(** What the body of a bracket leaves alone in the renderer. *)
Definition kept (d d' : Debug) : Prop :=
  game d' = game d /\ sprite d' = sprite d /\
  currentAlpha d' = currentAlpha d /\ textureUpdates d' = textureUpdates d.

(** An action that, on a renderer of game [g] with a context, returns
    normally after sending tidy calls. *)
Definition tidy_on (g : Game) (a : action) : Prop :=
  forall d c,
    game d = g -> context d = Some c ->
    exists l d',
      a d = Normal d' /\
      context d' = Some (perform_all l c) /\
      kept d d' /\ tidy l.

(** An action that sends tidy calls and ends with the calls of stop. *)
Definition closes (g : Game) (a : action) : Prop :=
  forall d c,
    game d = g -> context d = Some c ->
    exists l d',
      a d = Normal d' /\
      context d' = Some (perform_all (l ++ stop_calls (currentAlpha d) (has_sprite d)) c) /\
      tidy l /\
      game d' = game d /\
      sprite d' = sprite d /\
      textureUpdates d' = (if has_sprite d then S (textureUpdates d) else textureUpdates d).

(** An action that, on a renderer of game [g] with a context, returns
    normally after sending simple calls. *)
Definition plain_on (g : Game) (a : action) : Prop :=
  forall d c,
    game d = g -> context d = Some c ->
    exists l d',
      a d = Normal d' /\
      context d' = Some (perform_all l c) /\
      kept d d' /\ forallb simple l = true.

(** An action that sends simple calls and then throws a TypeError. *)
Definition throws (g : Game) (a : action) : Prop :=
  forall d c,
    game d = g -> context d = Some c ->
    exists l d',
      a d = Throw TypeError d' /\
      context d' = Some (perform_all l c) /\
      forallb simple l = true /\ game d' = game d.

(** The outcome of a whole bracket on the renderer [d] with context [c]:
    the calls of start, tidy calls, the calls of stop. *)
Definition bracketed (d : Debug) (c : Canvas.Context) (o : outcome) : Prop :=
  exists color font l d',
    o = Normal d' /\
    context d' =
      Some (perform_all
              (start_calls color font ++ l
               ++ stop_calls (Canvas.globalAlpha (Canvas.state c)) (has_sprite d)) c) /\
    tidy l /\
    game d' = game d /\
    sprite d' = sprite d /\
    textureUpdates d' = (if has_sprite d then S (textureUpdates d) else textureUpdates d).

(** The outcome of a bracket that an exception cut short: the calls of
    start, then simple calls, none of which is the restore of a stop. *)
Definition left_open (d : Debug) (c : Canvas.Context) (o : outcome) : Prop :=
  exists color font l d',
    o = Throw TypeError d' /\
    context d' = Some (perform_all (start_calls color font ++ l) c) /\
    forallb simple l = true /\ game d' = game d.

Definition is_some {A : Type} (v : option A) : bool :=
  match v with
  | Some _ => true
  | None => false
  end.

(** The calls of the render methods whose arguments are all there: the
    object to describe is not null, nor is the part of it the method
    reads (the input handler of the sprite, its body, the marker the
    sound names, unless it names none); no radius is negative; the
    shapes of a body are in order; and renderPointer is not told to hide
    a pointer that is up. *)
Definition render_ok (g : Game) (m : Method) : bool :=
  match m with
  | MrenderSoundInfo (Some sound) _ _ _ =>
      String.eqb (currentMarker sound) ""
      || is_some (markers sound (currentMarker sound))
  | MrenderCameraInfo (Some _) _ _ _ => true
  | MrenderPointer (Some pointer) hideIfUp _ _ _ =>
      negb (match hideIfUp with Some b => b | None => false end && pointer_isUp pointer)
      && negb (circle_radius (pointer_circle pointer) <? 0)
  | MrenderSpriteInputInfo (Some sprite) _ _ _ => is_some (sprite_input sprite)
  | MrenderKey (Some _) _ _ _ => true
  | MrenderInputInfo _ _ _ => true
  | MrenderSpriteBounds (Some _) _ _ => true
  | MrenderSpriteInfo (Some _) _ _ _ => true
  | MrenderSpriteCoords (Some _) _ _ _ => true
  | MrenderLine (Some _) _ => true
  | MrenderLineInfo (Some _) _ _ _ => true
  | MrenderPointInfo (Some _) _ _ _ => true
  | MrenderPixel _ _ _ => true
  | MrenderPoint (Some _) _ => true
  | MrenderRectangle (Some _) _ _ => true
  | MrenderCircle (Some circle) _ => negb (circle_radius circle <? 0)
  | MrenderText _ _ _ _ _ => true
  | MrenderBodyInfo (Some sprite) _ _ _ => is_some (sprite_body sprite)
  | MrenderPhysicsBody (Some body) _ => body_ok (math g) body
  | _ => false
  end.

(** The calls of the render methods that open their bracket and then read
    something that is not there: a null object, or a sprite without input
    handler or without body, or a sound that names a marker for which
    sound.markers gives undefined. *)
Definition unreadable (m : Method) : bool :=
  match m with
  | MrenderSoundInfo None _ _ _ => true
  | MrenderSoundInfo (Some sound) _ _ _ =>
      negb (String.eqb (currentMarker sound) "")
      && negb (is_some (markers sound (currentMarker sound)))
  | MrenderCameraInfo None _ _ _ => true
  | MrenderSpriteInputInfo None _ _ _ => true
  | MrenderSpriteInputInfo (Some sprite) _ _ _ => negb (is_some (sprite_input sprite))
  | MrenderKey None _ _ _ => true
  | MrenderSpriteInfo None _ _ _ => true
  | MrenderSpriteCoords None _ _ _ => true
  | MrenderLine None _ => true
  | MrenderLineInfo None _ _ _ => true
  | MrenderPointInfo None _ _ _ => true
  | MrenderPoint None _ => true
  | MrenderRectangle None _ _ => true
  | MrenderCircle None _ => true
  | MrenderBodyInfo None _ _ _ => true
  | MrenderBodyInfo (Some sprite) _ _ _ => negb (is_some (sprite_body sprite))
  | MrenderPhysicsBody None _ => true
  | _ => false
  end.

(** What the context received since it was [c]. *)
Definition emitted_since (c : Canvas.Context) (d' : Debug) : list Canvas.Call :=
  skipn (List.length (Canvas.calls c)) (trace d').

Definition with_renderShadow (v : bool) (d : Debug) : Debug :=
  mkDebug (game d) (sprite d) (context d) (font d) (columnWidth d) (lineHeight d)
    v (currentX d) (currentY d) (currentAlpha d) (currentColor d) (textureUpdates d).

(** ** Vocabulary of the text blocks *)

(** What the body of a text block leaves alone in the renderer. *)
Definition same_layout (d d' : Debug) : Prop :=
  game d' = game d /\ lineHeight d' = lineHeight d /\
  renderShadow d' = renderShadow d /\
  currentX d' = currentX d /\ columnWidth d' = columnWidth d.

(** Where the fillText calls among [l] put their texts. *)
Definition text_positions (l : list Canvas.Call) : list (float * float) :=
  List.concat (map (fun k => match k with
                             | Canvas.fillText _ x y => [(x, y)]
                             | _ => []
                             end) l).

(** The positions of one text at (x, y): its shadow first, one pixel
    right and down, when shadows are on. *)
Definition cell_positions (shadowed : bool) (x y : float) : list (float * float) :=
  if shadowed then [(x + 1, y + 1); (x, y)] else [(x, y)].

(** The positions of a row of [n] texts from x on, a column width apart. *)
Fixpoint row_positions (shadowed : bool) (x columnWidth y : float) (n : nat)
  : list (float * float) :=
  match n with
  | O => []
  | S n' => cell_positions shadowed x y
            ++ row_positions shadowed (x + columnWidth) columnWidth y n'
  end.

(** The positions of rows of the given sizes from y on, a line height
    apart. *)
Fixpoint rows_layout (shadowed : bool) (x columnWidth y lineHeight : float)
  (sizes : list nat) : list (float * float) :=
  match sizes with
  | [] => []
  | n :: rest =>
      row_positions shadowed x columnWidth y n
      ++ rows_layout shadowed x columnWidth (y + lineHeight) lineHeight rest
  end.

(** An action that, on a renderer of game [g] with a context, returns
    normally after printing rows of the given sizes from the cursor on. *)
Definition lays (g : Game) (sizes : list nat) (a : action) : Prop :=
  forall d c,
    game d = g -> context d = Some c ->
    exists l d',
      a d = Normal d' /\
      context d' = Some (perform_all l c) /\
      same_layout d d' /\
      currentY d' = add_times (currentY d) (lineHeight d) (List.length sizes) /\
      text_positions l
      = rows_layout (renderShadow d) (currentX d) (columnWidth d) (currentY d)
          (lineHeight d) sizes.

(** Where the text block of a method starts, the column width it sets,
    and the number of texts on each of its rows. *)
Record Footprint := mkFootprint {
  fp_x : float; fp_y : float; fp_columnWidth : float; fp_rows : list nat
}.

(** The text blocks of the renderer, read off the calls of start, line
    and splitline in each method: a row of one text for each line, of
    four for each splitline.  A method that prints no text through line
    or splitline has none. *)
Definition footprint (m : Method) : option Footprint :=
  match m with
  | MrenderSoundInfo (Some sound) x y _ =>
      Some (mkFootprint (or_zero x) (or_zero y) 0
              (repeat 1%nat (if String.eqb (currentMarker sound) "" then 7 else 10)))
  | MrenderCameraInfo _ x y _ =>
      Some (mkFootprint (or_zero x) (or_zero y) 0 (repeat 1%nat 4))
  | MrenderPointer (Some pointer) _ _ _ _ =>
      Some (mkFootprint (pointer_x pointer) (pointer_y pointer - 100) 0 (repeat 1%nat 5))
  | MrenderSpriteInputInfo _ x y _ =>
      Some (mkFootprint (or_zero x) (or_zero y) 0 (repeat 1%nat 5))
  | MrenderKey _ x y _ =>
      Some (mkFootprint (or_zero x) (or_zero y) 150 [4; 4; 4]%nat)
  | MrenderInputInfo x y _ =>
      Some (mkFootprint (or_zero x) (or_zero y) 0 (repeat 1%nat 5))
  | MrenderSpriteInfo _ x y _ =>
      Some (mkFootprint (or_zero x) (or_zero y) 0 (repeat 1%nat 4))
  | MrenderSpriteCoords (Some sprite) x y _ =>
      Some (mkFootprint (or_zero x) (or_zero y) 100
              ((if String.eqb (sprite_name sprite) "" then [] else [1%nat])
               ++ [4; 4; 4]%nat))
  | MrenderLineInfo _ x y _ =>
      Some (mkFootprint (or_zero x) (or_zero y) 80 [4; 4; 4]%nat)
  | MrenderPointInfo _ x y _ =>
      Some (mkFootprint (or_zero x) (or_zero y) 0 [1%nat])
  | MrenderBodyInfo _ x y _ =>
      Some (mkFootprint (or_zero x) (or_zero y) 210 [4%nat])
  | _ => None
  end.

(** ** Vocabulary of the shapes of a body *)

(** What the loop of renderPhysicsBody sends for the shape at index [i]
    of a body in order, drawn at (x, y) with the body's angle [a]. *)
Definition shape_calls (m : Math) (x y : float) (a : Q) (offsets : list p2.vec2)
  (angles : list Q) (i : nat) (shape : p2.Shape) : list Canvas.Call :=
  match shape, nth_error offsets i with
  | p2.Rectangle _ _ (p0 :: rest), Some offset
  | p2.Convex (p0 :: rest), Some offset =>
      scoped (polygon_inner m x y a p0 rest offset (nth_error angles i))
  | p2.Line _, _ => scoped (line_inner m x y a shape (nth_error angles i))
  | p2.Circle _, Some offset => scoped (circle_inner m x y shape offset)
  | _, _ => []
  end.

(** The position of a body on the screen, in pixels. *)
Definition body_x (g : Game) (body : p2.Body) : float :=
  p2pxi (math g) (fst (p2.position body)) - rect_x (camera_view g).

Definition body_y (g : Game) (body : p2.Body) : float :=
  p2pxi (math g) (snd (p2.position body)) - rect_y (camera_view g).

(** ** Vocabulary of the colours *)

(** The colour renderPointer fills the circle of a pointer with. *)
Definition circle_colour (pointer : Pointer) (downColor upColor : option string) : string :=
  if pointer_active pointer
  then or_default downColor "rgba(0,255,0,0.5)"
  else or_default upColor "rgba(255,0,0,0.5)".

(** The fill colours the fillText calls among [l] are made with, when
    [l] is sent to the context [c]. *)
Definition text_colours (l : list Canvas.Call) (c : Canvas.Context) : list string :=
  map (fun p => Canvas.fillStyle (snd p))
    (filter (fun p => Canvas.is_fillText (fst p)) (drawn l c)).

(** The paint of a draw call: its fill or its stroke colour. *)
Inductive Paint := Fill | Stroke.

Definition paint_colour (p : Paint) (s : Canvas.DrawState) : string :=
  match p with
  | Fill => Canvas.fillStyle s
  | Stroke => Canvas.strokeStyle s
  end.

(** filled = filled || true, as renderRectangle has it. *)
Definition filled_or_true (filled : option bool) : bool :=
  match filled with
  | Some b => b
  | None => true
  end.

Definition rectangle_draw (rect : Rectangle) (color : option string) (filled : option bool)
  : Canvas.Call * Paint * string :=
  if filled_or_true filled
  then (Canvas.fillRect (rect_x rect) (rect_y rect) (rect_width rect) (rect_height rect),
        Fill, or_default color "rgba(0,255,0,0.3)")
  else (Canvas.strokeRect (rect_x rect) (rect_y rect) (rect_width rect) (rect_height rect),
        Stroke, or_default color "rgba(0,255,0,0.3)").

(** The one draw of each geometry method, the paint it is made with and
    the colour asked for, with the default of the method. *)
Definition primitive_draw (m : Method) : option (Canvas.Call * Paint * string) :=
  match m with
  | MrenderPixel x y color =>
      Some (Canvas.fillRect x y 2 2, Fill, or_default color "rgba(0,255,0,1)")
  | MrenderPoint (Some point) color =>
      Some (Canvas.fillRect (px point) (py point) 4 4, Fill,
            or_default color "rgba(0,255,0,1)")
  | MrenderRectangle (Some rect) color filled => Some (rectangle_draw rect color filled)
  | MrenderSpriteBounds (Some sprite) color filled =>
      Some (rectangle_draw (getBounds sprite) color filled)
  | MrenderCircle (Some _) color =>
      Some (Canvas.fill, Fill, or_default color "rgba(0,255,0,0.3)")
  | MrenderLine (Some _) color =>
      Some (Canvas.stroke, Stroke, or_default color "rgb(255, 255, 255)")
  | MrenderText text x y color _ =>
      Some (Canvas.fillText text x y, Fill, or_default color "rgb(255,255,255)")
  | _ => None
  end.

(** The font a geometry method draws in: renderText sets its own. *)
Definition primitive_font (d : Debug) (m : Method) : string :=
  match m with
  | MrenderText _ _ _ _ font => or_default font "16px Courier"
  | _ => font d
  end.

(** The repaint stop ends with when the renderer draws off screen. *)
Definition repaint (d : Debug) : list Canvas.Call :=
  if has_sprite d then [Canvas.fillRect 0 0 400 400] else [].

(** The renderer of a game whose input has another vertical scale. *)
Definition with_scale_y (v : float) (d : Debug) : Debug :=
  let g := game d in
  let i := input g in
  let i' := mkInput (input_x i) (input_y i) (input_worldX i) (input_worldY i)
              (mkPoint (px (input_scale i)) v)
              (activePointer_screenX i) (activePointer_screenY i) in
  let g' := mkGame (renderType g) (game_context g) (game_width g) (game_height g) i'
              (camera_view g) (math g) (cache_isSoundReady g) in
  mkDebug g' (sprite d) (context d) (font d) (columnWidth d) (lineHeight d)
    (renderShadow d) (currentX d) (currentY d) (currentAlpha d) (currentColor d)
    (textureUpdates d).

(** The colours [n] texts of colour [colour] are drawn in: each in black
    first, for its shadow, when shadows are on. *)
Definition shadow_colours (shadowed : bool) (colour : string) (n : nat) : list string :=
  if shadowed
  then List.concat (repeat ["rgb(0,0,0)"; colour] n)
  else repeat colour n.

(** What the texts of a bracket keep true: the current colour is
    [colour], and so is the fill colour of the surface. *)
Definition in_colour (colour : string) (d : Debug) (c : Canvas.Context) : Prop :=
  context d = Some c /\ currentColor d = Some colour /\
  Canvas.fillStyle (Canvas.state c) = colour.

(** An action that, in a bracket of colour [colour], returns normally
    after drawing [n] texts in that colour, and leaves the colour. *)
Definition paints (g : Game) (colour : string) (n : nat) (a : action) : Prop :=
  forall d c,
    game d = g -> in_colour colour d c ->
    exists l d',
      a d = Normal d' /\
      game d' = game d /\ renderShadow d' = renderShadow d /\
      in_colour colour d' (perform_all l c) /\
      text_colours l c = shadow_colours (renderShadow d) colour n.

(** The same for the end of a bracket, where stop gives the colour up. *)
Definition paints_last (g : Game) (colour : string) (n : nat) (a : action) : Prop :=
  forall d c,
    game d = g -> in_colour colour d c ->
    exists l d',
      a d = Normal d' /\
      context d' = Some (perform_all l c) /\
      text_colours l c = shadow_colours (renderShadow d) colour n.

(** The colour of the texts of each formatter but renderPointer: the
    colour asked for, or the default of the method. *)
Definition text_colour (m : Method) : option string :=
  match m with
  | MrenderSoundInfo _ _ _ color | MrenderCameraInfo _ _ _ color
  | MrenderSpriteInputInfo _ _ _ color | MrenderKey _ _ _ color
  | MrenderBodyInfo _ _ _ color =>
      Some (or_default color "rgb(255,255,255)")
  | MrenderInputInfo _ _ color => Some (or_default color "rgb(255,255,0)")
  | MrenderSpriteInfo _ _ _ color | MrenderSpriteCoords _ _ _ color
  | MrenderLineInfo _ _ _ color | MrenderPointInfo _ _ _ color =>
      Some (or_default color "rgb(255, 255, 255)")
  | _ => None
  end.

(** ** More examples *)

(** A canvas renderer whose surface is at half opacity. *)
Definition translucent_debug : Debug :=
  with_context (Some translucent) (Debug_new canvas_game).

(** The off-screen canvas of a new renderer, painted red. *)
Definition painted : Canvas.Context :=
  perform_all [ Canvas.set_fillStyle (Some "#ff0000"); Canvas.fillRect 0 0 400 400 ]
    Canvas.fresh.

(** A pointer held down at (100, 120). *)
Definition example_pointer : Pointer :=
  mkPointer 100 120 false true true (mkCircle 100 120 22)
    (mkPoint 90 110) (mkPoint 100 120) 0 100 120 350.

(** A pointer that is up, at rest at (100, 120). *)
Definition idle_pointer : Pointer :=
  mkPointer 100 120 true false false (mkCircle 100 120 22)
    (mkPoint 90 110) (mkPoint 100 120) 0 100 120 350.

(** The space bar, held down. *)
Definition example_key : Key := mkKey 32 true false false 1200 300.

(** * Properties *)

Section Properties.

Context {R : Runtime}.

(** Reduce the field projections of a renderer given by its fields, and
    nothing else. *)
Ltac fields :=
  cbn [game sprite context font columnWidth lineHeight renderShadow
       currentX currentY currentAlpha currentColor textureUpdates] in *.

(** ** Basic facts about the context *)

(** arc does not throw on a radius that is not below zero. *)
Lemma arc_quiet x y r :
  (r <? 0) = false -> Canvas.raises (Canvas.arc x y r) = false.
Proof. intros H. cbn. rewrite H. apply andb_false_r. Qed.

Lemma perform_all_app l1 l2 c :
  perform_all (l1 ++ l2) c = perform_all l2 (perform_all l1 c).
Proof. unfold perform_all. apply fold_left_app. Qed.

Lemma calls_perform k c :
  Canvas.calls (Canvas.perform k c) = Canvas.calls c ++ [k].
Proof.
  unfold Canvas.perform.
  destruct (Canvas.effect k (Canvas.state c) (Canvas.stack c)); reflexivity.
Qed.

Lemma calls_perform_all l : forall c,
  Canvas.calls (perform_all l c) = Canvas.calls c ++ l.
Proof.
  induction l as [|k l IH]; intro c; simpl.
  - now rewrite app_nil_r.
  - unfold perform_all in *. simpl. rewrite IH, calls_perform.
    now rewrite <- app_assoc.
Qed.

Lemma same_but_fill_refl s : same_but_fill s s.
Proof. repeat split. Qed.

Lemma same_but_fill_trans s1 s2 s3 :
  same_but_fill s1 s2 -> same_but_fill s2 s3 -> same_but_fill s1 s3.
Proof.
  unfold same_but_fill. intros (a1 & a2 & a3 & a4 & a5) (b1 & b2 & b3 & b4 & b5).
  repeat split; congruence.
Qed.





(** ** The four bracket methods, step by step *)

Lemma splitline_loop_step arguments : forall x d c,
  context d = Some c ->
  splitline_loop arguments x d =
  Normal (with_context
            (Some (perform_all
                     (columns_calls (renderShadow d) (currentColor d) arguments x
                        (columnWidth d) (currentY d)) c)) d).
Proof.
  induction arguments as [|a rest IH]; intros x d c Hc.
  - destruct d; simpl in *; subst; reflexivity.
  - simpl. rewrite perform_all_app.
    destruct d as [g sp cx f cw lh sh cX cY cA cC tu]; simpl in Hc; subst cx.
    destruct sh; unfold seq, get; simpl;
      (erewrite IH by reflexivity); reflexivity.
Qed.

(** What start, stop, line and splitline do to a renderer [d] whose
    context is [c]. *)
Section Steps.

Variables (d : Debug) (c : Canvas.Context).
Hypothesis Hc : context d = Some c.

(** One call of line. *)
Lemma line_step text x y :
  let x' := match x with Some v => v | None => currentX d end in
  let y' := match y with Some v => v | None => currentY d end in
  line text x y d =
  Normal (mkDebug (game d) (sprite d)
            (Some (perform_all (text_calls (renderShadow d) (currentColor d) text x' y') c))
            (font d) (columnWidth d) (lineHeight d) (renderShadow d)
            x' (y' + lineHeight d) (currentAlpha d) (currentColor d) (textureUpdates d)).
Proof.
  revert Hc. destruct d as [g sp cx f cw lh sh cX cY cA cC tu]; simpl; intros ->.
  destruct x as [x|], y as [y|], sh; reflexivity.
Qed.

(** One call of splitline. *)
Lemma splitline_step arguments :
  splitline arguments d =
  Normal (mkDebug (game d) (sprite d)
            (Some (perform_all
                     (columns_calls (renderShadow d) (currentColor d) arguments
                        (currentX d) (columnWidth d) (currentY d)) c))
            (font d) (columnWidth d) (lineHeight d) (renderShadow d)
            (currentX d) (currentY d + lineHeight d) (currentAlpha d) (currentColor d)
            (textureUpdates d)).
Proof.
  unfold splitline. rewrite Hc.
  unfold seq, get. rewrite (splitline_loop_step _ _ _ _ Hc).
  destruct d; reflexivity.
Qed.

(** One call of start. *)
Lemma start_step x y color columnWidth :
  let color' := or_default color "rgb(255,255,255)" in
  start x y color columnWidth d =
  Normal (mkDebug (game d) (sprite d)
            (Some (perform_all (start_calls color' (font d)) c))
            (font d) (or_zero columnWidth) (lineHeight d) (renderShadow d)
            (or_zero x) (or_zero y) (Canvas.globalAlpha (Canvas.state c))
            (Some color') (textureUpdates d)).
Proof.
  revert Hc. destruct d as [g sp cx f cw lh sh cX cY cA cC tu]; simpl; intros ->.
  reflexivity.
Qed.

(** One call of stop. *)
Lemma stop_step :
  stop d =
  Normal (mkDebug (game d) (sprite d)
            (Some (perform_all (stop_calls (currentAlpha d) (has_sprite d)) c))
            (font d) (columnWidth d) (lineHeight d) (renderShadow d)
            (currentX d) (currentY d) (currentAlpha d) (currentColor d)
            (if has_sprite d then S (textureUpdates d) else textureUpdates d)).
Proof.
  revert Hc. destruct d as [g sp cx f cw lh sh cX cY cA cC tu]; simpl; intros ->.
  destruct sp; reflexivity.
Qed.

End Steps.

Lemma add_times_succ step n : forall v,
  add_times v step (S n) = add_times v step n + step.
Proof.
  induction n as [|n IH]; intro v; [reflexivity|].
  change (add_times v step (S (S n))) with (add_times (v + step) step (S n)).
  rewrite IH. reflexivity.
Qed.

Lemma add_times_add step n1 : forall v n2,
  add_times v step (n1 + n2) = add_times (add_times v step n1) step n2.
Proof.
  induction n1 as [|n1 IH]; intros v n2; [reflexivity|].
  cbn [Nat.add add_times]. apply IH.
Qed.

Lemma columns_calls_indexed shadowed color columnWidth y arguments : forall k x,
  columns_calls shadowed color arguments (add_times x columnWidth k) columnWidth y
  = List.concat (map (fun '(i, a) =>
                   text_calls shadowed color a (add_times x columnWidth i) y)
              (indexed_from k arguments)).
Proof.
  unfold indexed_from.
  induction arguments as [|a rest IH]; intros k x; simpl; [reflexivity|].
  f_equal. rewrite <- IH, add_times_succ. reflexivity.
Qed.




(** ** What start leaves on the surface *)

Lemma start_calls_effect color font c :
  Canvas.state (perform_all (start_calls color font) c)
  = Canvas.mkDrawState [Canvas.Matrix 1 0 0 1 0 0] color color font 1%Q
      (Canvas.lineWidth (Canvas.state c))
  /\ Canvas.stack (perform_all (start_calls color font) c)
     = Canvas.state c :: Canvas.stack c.
Proof. destruct c as [s st cs]. split; reflexivity. Qed.

(** ** N lines in a row *)




(** ** The start/stop bracket and the ambient drawing state *)

Lemma start_stop_step d c x y color columnWidth :
  context d = Some c ->
  let color' := or_default color "rgb(255,255,255)" in
  (start x y color columnWidth ;; stop) d =
  Normal (mkDebug (game d) (sprite d)
            (Some (perform_all
                     (stop_calls (Canvas.globalAlpha (Canvas.state c)) (has_sprite d))
                     (perform_all (start_calls color' (font d)) c)))
            (font d) (or_zero columnWidth) (lineHeight d) (renderShadow d)
            (or_zero x) (or_zero y) (Canvas.globalAlpha (Canvas.state c))
            (Some color')
            (if has_sprite d then S (textureUpdates d) else textureUpdates d)).
Proof.
  intros Hc. unfold seq. rewrite (start_step d c Hc). cbv zeta.
  erewrite stop_step by reflexivity. reflexivity.
Qed.

(** C3, as the code has it.  start immediately followed by stop, on a
    renderer with a context, leaves the transform, the stroke colour, the
    font, the global alpha and the line width of the surface, and its
    stack of saved states, as they were.  The fill colour is as it was
    when the renderer draws on the game's own canvas (no sprite); when it
    draws off screen, stop repaints the canvas and leaves the fill colour
    at "#ff0000". *)
Theorem start_stop_restores_surface :
  forall d c x y color columnWidth,
    context d = Some c ->
    exists d' c',
      (start x y color columnWidth ;; stop) d = Normal d' /\
      context d' = Some c' /\
      Canvas.stack c' = Canvas.stack c /\
      Canvas.transform (Canvas.state c') = Canvas.transform (Canvas.state c) /\
      Canvas.strokeStyle (Canvas.state c') = Canvas.strokeStyle (Canvas.state c) /\
      Canvas.font (Canvas.state c') = Canvas.font (Canvas.state c) /\
      Canvas.globalAlpha (Canvas.state c') = Canvas.globalAlpha (Canvas.state c) /\
      Canvas.lineWidth (Canvas.state c') = Canvas.lineWidth (Canvas.state c) /\
      Canvas.fillStyle (Canvas.state c')
        = (if has_sprite d then "#ff0000" else Canvas.fillStyle (Canvas.state c)) /\
      (sprite d = None -> Canvas.state c' = Canvas.state c).
Proof.
  intros d c x y color columnWidth Hc.
  rewrite (start_stop_step d c _ _ _ _ Hc). cbv zeta.
  eexists. eexists. split; [reflexivity|]. split; [reflexivity|].
  destruct c as [[t ss fs fo ga lw] st cs].
  unfold has_sprite.
  destruct (sprite d); cbn;
    destruct (Qle_bool 0 ga && Qle_bool ga 1); cbn;
    repeat split; intros; try reflexivity; try discriminate.
Qed.

(** ** Runs of bracket calls *)


Lemma run_cons m ms d :
  run (m :: ms) d =
  match call m d with
  | Normal d' => run ms d'
  | Throw e d' => Throw e d'
  end.
Proof. reflexivity. Qed.







Lemma run_invariant (allowed : Method -> bool) (P : Debug -> Prop) :
  (forall m d, allowed m = true -> P d ->
               exists d', call m d = Normal d' /\ P d') ->
  forall ms d, forallb allowed ms = true -> P d ->
               exists d', run ms d = Normal d' /\ P d'.
Proof.
  intros step. induction ms as [|m ms IH]; intros d Hms Hd; simpl in *.
  - exists d. split; [reflexivity | exact Hd].
  - apply andb_true_iff in Hms as [Hm Hms].
    destruct (step m d Hm Hd) as (d1 & E1 & P1).
    destruct (IH d1 Hms P1) as (d2 & E2 & P2).
    exists d2. unfold seq. rewrite E1. auto.
Qed.



(** ** The column width after a start that leaves it out *)

Lemma keeps_columnWidth_no_columns m d :
  keeps_columnWidth m = true -> no_columns d ->
  exists d', call m d = Normal d' /\ no_columns d'.
Proof.
  intros Hm ((c & Hc) & Hw).
  destruct m; try discriminate; simpl call.
  - destruct columnWidth0; [discriminate|].
    rewrite (start_step d c Hc). eexists. split; [reflexivity|].
    split; [eexists; reflexivity | reflexivity].
  - rewrite (stop_step d c Hc). eexists. split; [reflexivity|].
    split; [eexists; reflexivity | exact Hw].
  - rewrite (line_step d c Hc text x y). eexists. split; [reflexivity|].
    split; [eexists; reflexivity | exact Hw].
  - rewrite (splitline_step d c Hc arguments). eexists. split; [reflexivity|].
    split; [eexists; reflexivity | exact Hw].
Qed.

(** Adding 0 to a double gives the double back, but for -0, which
    becomes 0. *)
Lemma add_zero x : x + 0 = x \/ (x = neg_zero /\ x + 0 = 0).
Proof.
  destruct (Prim2SF x) as [[|]| | |] eqn:E.
  - right. assert (Hx : x = neg_zero) by (apply Prim2SF_inj; rewrite E; reflexivity).
    subst x. split; reflexivity.
  - left. apply Prim2SF_inj. rewrite add_spec, E. reflexivity.
  - left. apply Prim2SF_inj. rewrite add_spec, E. reflexivity.
  - left. apply Prim2SF_inj. rewrite add_spec, E. reflexivity.
  - left. apply Prim2SF_inj. rewrite add_spec, E. reflexivity.
Qed.

Lemma add_zero_twice x : x + 0 + 0 = x + 0.
Proof.
  destruct (add_zero x) as [E | [-> _]]; [|reflexivity].
  now rewrite !E.
Qed.

(** With a column width of 0 every fragment of a row after the first
    lands on x + 0. *)
Lemma add_times_zero n : forall x, add_times x 0 (S n) = x + 0.
Proof.
  induction n as [|n IH]; intro x; [reflexivity|].
  change (add_times x 0 (S (S n))) with (add_times (x + 0) 0 (S n)).
  rewrite IH. apply add_zero_twice.
Qed.

Lemma columns_calls_stacked shadowed color y x arguments :
  columns_calls shadowed color arguments x 0 y
  = List.concat
      (map (fun '(i, a) =>
              text_calls shadowed color a
                (match i with O => x | S _ => x + 0 end) y)
         (indexed arguments)).
Proof.
  pose proof (columns_calls_indexed shadowed color 0 y arguments 0 x) as E.
  cbn [add_times] in E. rewrite E. unfold indexed. f_equal.
  apply map_ext. intros [[|i] a]; [reflexivity|].
  now rewrite add_times_zero.
Qed.

(** C10, as the code has it.  A new renderer has a column width of 100.
    start without its columnWidth argument, on a renderer with a
    context, sets the field to 0 whatever it held; line, splitline, stop
    and any further start of the same kind leave it at 0, so after the
    bracket is closed it is still 0, and until a start gives a column
    width every later splitline, in this bracket or a later one, puts
    all its fragments on one x: the first at currentX, the others at
    currentX + 0, which is currentX again but for -0, which it turns
    into 0.  The overwrite lasts no longer than that: the next start
    sets the field to the column width it is given, or to 0 again. *)
Theorem start_without_columnWidth_resets_it :
  forall game d c x y color,
    context d = Some c ->
    columnWidth (Debug_new game) = 100 /\
    exists d1,
      start x y color None d = Normal d1 /\
      columnWidth d1 = 0 /\
      forall later,
        forallb keeps_columnWidth later = true ->
        exists d2 c2,
          run later d1 = Normal d2 /\
          context d2 = Some c2 /\
          columnWidth d2 = 0 /\
          (currentX d2 + 0 = currentX d2 \/
           (currentX d2 = neg_zero /\ currentX d2 + 0 = 0)) /\
          (forall arguments,
            exists d3,
              splitline arguments d2 = Normal d3 /\
              columnWidth d3 = 0 /\
              trace d3 = Canvas.calls c2 ++
                List.concat
                  (map (fun '(i, a) =>
                          text_calls (renderShadow d2) (currentColor d2) a
                            (match i with
                             | O => currentX d2
                             | S _ => currentX d2 + 0
                             end) (currentY d2))
                     (indexed arguments))) /\
          forall x' y' color' width,
            exists d3,
              start x' y' color' width d2 = Normal d3 /\
              columnWidth d3 = or_zero width.
Proof.
  intros g d c x y color Hc. split.
  - unfold Debug_new. destruct (RenderType_eqb (renderType g) CANVAS); reflexivity.
  - rewrite (start_step d c Hc). cbv zeta.
    eexists. split; [reflexivity|]. split; [reflexivity|].
    intros later Hl.
    match goal with
    | |- context [run later ?d1] =>
        destruct (run_invariant keeps_columnWidth no_columns
                    keeps_columnWidth_no_columns later d1 Hl)
          as (d2 & E2 & (c2 & Hc2) & Hw2);
        [ split; [eexists; reflexivity | reflexivity] | ]
    end.
    exists d2, c2.
    split; [exact E2|]. split; [exact Hc2|]. split; [exact Hw2|].
    split; [apply add_zero|]. split.
    + intros arguments. rewrite (splitline_step d2 c2 Hc2 arguments).
      eexists. split; [reflexivity|]. split; [exact Hw2|].
      unfold trace. fields. rewrite calls_perform_all, Hw2.
      now rewrite columns_calls_stacked.
    + intros x' y' color' width. rewrite (start_step d2 c2 Hc2). cbv zeta.
      eexists. split; reflexivity.
Qed.

(** ** The shape adapter *)

Lemma lineTo_points_step points : forall d c,
  context d = Some c ->
  lineTo_points points d =
  Normal (with_context (Some (perform_all (lineTo_calls (math (game d)) points) c)) d).
Proof.
  induction points as [|p rest IH]; intros d c Hc;
    destruct d as [g sp cx f cw lh sh cX cY cA cC tu]; simpl in Hc; subst cx.
  - reflexivity.
  - simpl. unfold seq, get; simpl.
    erewrite IH by reflexivity. reflexivity.
Qed.

(** renderShapeRectangle and renderShapeConvex make the same calls. *)
Lemma renderShapeRectangle_as_convex x y bodyAngle shape offset angle :
  renderShapeRectangle x y bodyAngle shape offset angle
  = renderShapeConvex x y bodyAngle shape offset angle.
Proof. reflexivity. Qed.

Lemma renderShapeConvex_step d c x y bodyAngle shape p0 rest offset angle :
  context d = Some c ->
  p2.vertices shape = p0 :: rest ->
  renderShapeConvex x y bodyAngle shape (Some offset) angle d =
  Normal (with_context
            (Some (perform_all
                     (scoped (polygon_inner (math (game d)) x y bodyAngle p0 rest offset angle))
                     c)) d).
Proof.
  destruct d as [g sp cx f cw lh sh cX cY cA cC tu]; simpl; intros -> Hv.
  unfold renderShapeConvex. rewrite Hv.
  unfold seq, get, deref; simpl.
  erewrite lineTo_points_step by reflexivity. simpl.
  unfold scoped, polygon_inner. cbn [app].
  unfold perform_all. cbn [fold_left]. rewrite !fold_left_app. reflexivity.
Qed.

Lemma renderShapeLine_step d c x y bodyAngle shape offset angle :
  context d = Some c ->
  renderShapeLine x y bodyAngle shape offset angle d =
  Normal (with_context
            (Some (perform_all
                     (scoped (line_inner (math (game d)) x y bodyAngle shape angle)) c)) d).
Proof.
  destruct d as [g sp cx f cw lh sh cX cY cA cC tu]; simpl; intros ->.
  unfold renderShapeLine, scoped, line_inner, seq, get.
  destruct (p2.length shape); reflexivity.
Qed.

Lemma renderShapeCircle_step d c x y bodyAngle shape offset angle :
  context d = Some c ->
  match p2.radius shape with
  | Some r => (p2px (math (game d)) r <? 0) = false
  | None => True
  end ->
  renderShapeCircle x y bodyAngle shape (Some offset) angle d =
  Normal (with_context
            (Some (perform_all
                     (scoped (circle_inner (math (game d)) x y shape offset)) c)) d).
Proof.
  destruct d as [g sp cx f cw lh sh cX cY cA cC tu]; simpl; intros -> Hr.
  unfold renderShapeCircle, scoped, circle_inner, seq, get, deref.
  destruct (p2.radius shape) as [r|]; [|reflexivity].
  unfold ctx; simpl. rewrite Hr, andb_false_r. reflexivity.
Qed.

Lemma unscoped_stack inner : forall c,
  forallb unscoped inner = true ->
  Canvas.stack (perform_all inner c) = Canvas.stack c.
Proof.
  induction inner as [|k inner IH]; intros c H; [reflexivity|].
  simpl in H. apply andb_true_iff in H as [Hk Hi].
  unfold perform_all in *. simpl. rewrite (IH _ Hi).
  destruct c as [s st cs].
  destruct k; try discriminate; try reflexivity; cbn.
  - destruct angle; reflexivity.
  - destruct v; reflexivity.
Qed.

(** A save, calls that are neither save nor restore, and a restore:
    the drawing state and the stack come back as they were. *)
Lemma scoped_restores inner c :
  forallb unscoped inner = true ->
  Canvas.state (perform_all (scoped inner) c) = Canvas.state c /\
  Canvas.stack (perform_all (scoped inner) c) = Canvas.stack c.
Proof.
  intros H. unfold scoped.
  change (Canvas.beginPath :: Canvas.save :: inner ++ [Canvas.restore])
    with ([Canvas.beginPath; Canvas.save] ++ inner ++ [Canvas.restore]).
  rewrite !perform_all_app.
  set (c1 := perform_all [Canvas.beginPath; Canvas.save] c).
  assert (E : Canvas.stack (perform_all inner c1) = Canvas.state c :: Canvas.stack c).
  { rewrite (unscoped_stack inner c1 H). destruct c; reflexivity. }
  destruct (perform_all inner c1) as [s2 st2 cs2]. simpl in E. subst st2.
  split; reflexivity.
Qed.

Lemma lineTo_calls_unscoped m points : forallb unscoped (lineTo_calls m points) = true.
Proof. induction points; simpl; auto. Qed.

Lemma polygon_inner_unscoped m x y a p0 rest offset angle :
  forallb unscoped (polygon_inner m x y a p0 rest offset angle) = true.
Proof.
  unfold polygon_inner. rewrite !forallb_app, lineTo_calls_unscoped. reflexivity.
Qed.

Lemma line_inner_unscoped m x y a shape angle :
  forallb unscoped (line_inner m x y a shape angle) = true.
Proof. unfold line_inner. destruct (p2.length shape); reflexivity. Qed.

Lemma circle_inner_unscoped m x y shape offset :
  forallb unscoped (circle_inner m x y shape offset) = true.
Proof. unfold circle_inner. destruct (p2.radius shape); reflexivity. Qed.

Create HintDb surface.
#[local] Hint Resolve polygon_inner_unscoped line_inner_unscoped
  circle_inner_unscoped : surface.

(** C7: the code does not do what the claim says.  renderShapeLine
    receives the shape offset and never reads it: whatever the offset,
    the call is the same, and the segment is translated to the body
    position alone.  At a body at pixel (100, 200) and a shape offset of
    (1, 3) in p2 units (that is (-20, -60) in pixels), the line is
    translated to (100, 200), while renderShapeCircle, with the same
    arguments, translates to (80, 140) as the claim has it. *)
Theorem renderShapeLine_ignores_offset :
  (forall x y bodyAngle shape offset offset' angle d,
      renderShapeLine x y bodyAngle shape offset angle d
      = renderShapeLine x y bodyAngle shape offset' angle d) /\
  outcome_trace
    (renderShapeLine 100 200 0%Q (p2.Line 2) (Some (1, 3)) (Some 0%Q)
       (Debug_new canvas_game))
  = scoped [ Canvas.translate 100 200;
             Canvas.rotate (Some (0 + 0)%Q);
             Canvas.set_lineWidth (1 # 2);
             Canvas.moveTo 0 0;
             Canvas.lineTo 40 0;
             Canvas.closePath;
             Canvas.stroke ] /\
  outcome_trace
    (renderShapeCircle 100 200 0%Q (p2.Circle 2) (Some (1, 3)) (Some 0%Q)
       (Debug_new canvas_game))
  = scoped [ Canvas.translate 80 140;
             Canvas.arc 0 0 40;
             Canvas.closePath;
             Canvas.stroke ].
Proof. repeat split; reflexivity. Qed.

Lemma body_ok_shape m body i shape :
  body_ok m body = true ->
  nth_error (p2.shapes body) i = Some shape ->
  shape_ok m shape (nth_error (p2.shapeOffsets body) i) = true.
Proof.
  intros Hb Hs. unfold body_ok in Hb. rewrite forallb_forall in Hb.
  assert (Hi : In i (List.seq 0 (List.length (p2.shapes body)))).
  { apply in_seq. split; [lia|]. simpl. apply nth_error_Some. congruence. }
  specialize (Hb i Hi). now rewrite Hs in Hb.
Qed.

Lemma with_context_same d c : context d = Some c -> with_context (Some c) d = d.
Proof. destruct d; simpl; intros ->; reflexivity. Qed.

(** One turn of the loop on a shape that is in order. *)
Lemma renderShapeAt_step i x y a shapes offsets angles d c shape :
  context d = Some c ->
  nth_error shapes i = Some shape ->
  shape_ok (math (game d)) shape (nth_error offsets i) = true ->
  exists emitted,
    renderShapeAt i x y a shapes offsets angles d
    = Normal (with_context (Some (perform_all emitted c)) d) /\
    if recognised shape
    then exists inner, emitted = scoped inner /\ forallb unscoped inner = true
    else emitted = [].
Proof.
  intros Hc Hs Hok. unfold renderShapeAt. rewrite Hs.
  destruct shape as [w h vs | l | vs | r | | | l r]; simpl in Hok; simpl recognised.
  - destruct (nth_error offsets i) as [o|]; [|discriminate].
    destruct vs as [|p0 rest]; [discriminate|].
    rewrite renderShapeRectangle_as_convex.
    erewrite renderShapeConvex_step by (first [exact Hc | reflexivity]).
    eexists. split; [reflexivity|].
    eexists. split; [reflexivity | auto with surface].
  - rewrite (renderShapeLine_step d c _ _ _ _ _ _ Hc).
    eexists. split; [reflexivity|].
    eexists. split; [reflexivity | auto with surface].
  - destruct (nth_error offsets i) as [o|]; [|discriminate].
    destruct vs as [|p0 rest]; [discriminate|].
    erewrite renderShapeConvex_step by (first [exact Hc | reflexivity]).
    eexists. split; [reflexivity|].
    eexists. split; [reflexivity | auto with surface].
  - destruct (nth_error offsets i) as [o|]; [|discriminate].
    apply negb_true_iff in Hok.
    rewrite (renderShapeCircle_step d c _ _ _ _ _ _ Hc); [|exact Hok].
    eexists. split; [reflexivity|].
    eexists. split; [reflexivity | auto with surface].
  - exists []. split; [|reflexivity]. unfold ret, perform_all. simpl.
    now rewrite (with_context_same d c Hc).
  - exists []. split; [|reflexivity]. unfold ret, perform_all. simpl.
    now rewrite (with_context_same d c Hc).
  - exists []. split; [|reflexivity]. unfold ret, perform_all. simpl.
    now rewrite (with_context_same d c Hc).
Qed.

Lemma only_traced_emitted d c emitted :
  context d = Some c ->
  Canvas.state (perform_all emitted c) = Canvas.state c ->
  Canvas.stack (perform_all emitted c) = Canvas.stack c ->
  only_traced d (with_context (Some (perform_all emitted c)) d) c (perform_all emitted c).
Proof.
  intros Hc Es Et. unfold only_traced.
  destruct d; simpl in *; subst. repeat split; assumption.
Qed.

Lemma only_traced_trans d1 d2 d3 c1 c2 c3 :
  context d1 = Some c1 ->
  only_traced d1 d2 c1 c2 -> only_traced d2 d3 c2 c3 -> only_traced d1 d3 c1 c3.
Proof.
  intros Hc1 (A1 & A2 & A3 & A4 & A5) (B1 & B2 & B3 & B4 & B5).
  unfold only_traced. repeat split; try congruence.
  destruct d1, d2, d3; simpl in *. inversion A2. inversion B2. subst.
  reflexivity.
Qed.

Lemma renderShapes_frame body x y : forall n d c,
  (n <= List.length (p2.shapes body))%nat ->
  context d = Some c ->
  body_ok (math (game d)) body = true ->
  exists d' c',
    renderShapes n x y (p2.angle body) (p2.shapes body) (p2.shapeOffsets body)
      (p2.shapeAngles body) d = Normal d' /\
    only_traced d d' c c'.
Proof.
  induction n as [|n IH]; intros d c Hn Hc Hb.
  - exists d, c. split; [reflexivity|].
    unfold only_traced. rewrite (with_context_same d c Hc). auto.
  - destruct (nth_error (p2.shapes body) n) as [shape|] eqn:Hs;
      [ | apply nth_error_None in Hs; lia ].
    destruct (renderShapeAt_step n x y (p2.angle body) (p2.shapes body)
                (p2.shapeOffsets body) (p2.shapeAngles body) d c shape Hc Hs
                (body_ok_shape _ _ _ _ Hb Hs)) as (emitted & E & Hem).
    assert (F : Canvas.state (perform_all emitted c) = Canvas.state c /\
                Canvas.stack (perform_all emitted c) = Canvas.stack c).
    { destruct (recognised shape).
      - destruct Hem as (inner & -> & Hin). now apply scoped_restores.
      - subst emitted. split; reflexivity. }
    destruct F as [Fs Ft].
    pose proof (only_traced_emitted d c emitted Hc Fs Ft) as T1.
    set (d1 := with_context (Some (perform_all emitted c)) d) in *.
    assert (Hg : game d1 = game d) by (destruct d; reflexivity).
    destruct (IH d1 (perform_all emitted c)) as (d' & c' & E' & T2);
      [ lia | destruct d; reflexivity | now rewrite Hg | ].
    exists d', c'. split.
    + simpl. unfold seq. rewrite E. exact E'.
    + eapply only_traced_trans; eauto.
Qed.

(** A colour a render method has defaulted is not defaulted again by
    start. *)
Lemma or_default_twice v :
  or_default (Some (or_default v "rgb(255,255,255)")) "rgb(255,255,255)"
  = or_default v "rgb(255,255,255)".
Proof.
  destruct v as [s|]; [|reflexivity].
  unfold or_default. destruct (String.eqb s "") eqn:E; [reflexivity|].
  now rewrite E.
Qed.

(** renderPhysicsBody as a whole, on a body in order: it returns
    normally, and the cursor it leaves is the one its opening
    start(0, 0, color) set. *)
Lemma renderPhysicsBody_cursor d c body color :
  context d = Some c ->
  body_ok (math (game d)) body = true ->
  exists d',
    renderPhysicsBody (Some body) color d = Normal d' /\
    cursor d' = (0, 0, Some (or_default color "rgb(255,255,255)"), 0).
Proof.
  intros Hc Hb. unfold renderPhysicsBody. rewrite Hc.
  unfold seq at 1. rewrite (start_step d c Hc). cbv zeta.
  unfold deref, seq at 1, get at 1.
  match goal with
  | |- context [renderShapes ?n ?x ?y ?a ?ss ?os ?gs ?d1] =>
      destruct (renderShapes_frame body x y n d1 _ (le_n _) eq_refl Hb)
        as (d2 & c2 & E & (Hc2 & _ & Hcur & _))
  end.
  rewrite E. rewrite (stop_step d2 c2 Hc2).
  eexists. split; [reflexivity|].
  unfold cursor in *. fields. rewrite Hcur.
  now rewrite or_default_twice.
Qed.

(** C8, as the code has it.  For a body whose shapes are in order and a
    renderer with a context: each turn of the loop of renderPhysicsBody
    returns normally; it changes nothing of the renderer but the trace
    of its context, so the Cursor State stays, and the drawing state and
    the stack of saved states are after the turn what they were before
    it.  For a rectangle, line, convex or circle the calls of the turn
    are a beginPath and then one save/restore pair around all the
    others; for any other shape there is no call at all.  The whole loop
    therefore returns normally with the same cursor and drawing state.
    renderPhysicsBody itself returns normally too; the cursor it leaves
    is the one its opening start(0, 0, color) set. *)
Theorem renderShapes_scoped_per_shape :
  forall d c body x y,
    context d = Some c ->
    body_ok (math (game d)) body = true ->
    (forall i shape,
        nth_error (p2.shapes body) i = Some shape ->
        exists d1 c1 emitted,
          renderShapeAt i x y (p2.angle body) (p2.shapes body)
            (p2.shapeOffsets body) (p2.shapeAngles body) d = Normal d1 /\
          only_traced d d1 c c1 /\
          Canvas.calls c1 = Canvas.calls c ++ emitted /\
          if recognised shape
          then exists inner, emitted = scoped inner /\ forallb unscoped inner = true
          else emitted = [] /\ d1 = d) /\
    (exists d' c',
        renderShapes (List.length (p2.shapes body)) x y (p2.angle body) (p2.shapes body)
          (p2.shapeOffsets body) (p2.shapeAngles body) d = Normal d' /\
        only_traced d d' c c') /\
    (forall color,
        exists d',
          renderPhysicsBody (Some body) color d = Normal d' /\
          cursor d' = (0, 0, Some (or_default color "rgb(255,255,255)"), 0)).
Proof.
  intros d c body x y Hc Hb. split; [|split].
  - intros i shape Hs.
    destruct (renderShapeAt_step i x y (p2.angle body) (p2.shapes body)
                (p2.shapeOffsets body) (p2.shapeAngles body) d c shape Hc Hs
                (body_ok_shape _ _ _ _ Hb Hs)) as (emitted & E & Hem).
    exists (with_context (Some (perform_all emitted c)) d), (perform_all emitted c), emitted.
    split; [exact E|].
    assert (F : Canvas.state (perform_all emitted c) = Canvas.state c /\
                Canvas.stack (perform_all emitted c) = Canvas.stack c).
    { destruct (recognised shape).
      - destruct Hem as (inner & -> & Hin). now apply scoped_restores.
      - subst emitted. split; reflexivity. }
    destruct F as [Fs Ft].
    split; [now apply only_traced_emitted|].
    split; [apply calls_perform_all|].
    destruct (recognised shape); [exact Hem|].
    split; [exact Hem|]. subst emitted. apply with_context_same. exact Hc.
  - apply renderShapes_frame; auto.
  - intros color. now apply renderPhysicsBody_cursor with (c := c).
Qed.

(** ** A null context *)

(** C5, as the code has it.  With a null context every method but stop
    and the four renderShape helpers returns normally and leaves the
    renderer as it was, whatever its arguments, renderSpriteBounds
    provided its sprite is not null.  stop, the renderShape helpers and
    renderSpriteBounds on a null sprite throw a TypeError; they too leave
    the renderer as it was. *)
Theorem null_context_calls :
  forall d m,
    context d = None ->
    call m d = if tolerates_null_context m then Normal d else Throw TypeError d.
Proof.
  intros d m Hc.
  destruct m; simpl;
    try (match goal with
         | |- ?f _ = _ => unfold f
         | |- ?f _ _ = _ => unfold f
         | |- ?f _ _ _ = _ => unfold f
         | |- ?f _ _ _ _ = _ => unfold f
         | |- ?f _ _ _ _ _ = _ => unfold f
         | |- ?f _ _ _ _ _ _ = _ => unfold f
         | |- ?f _ _ _ _ _ _ _ = _ => unfold f
         end);
    try (rewrite Hc; reflexivity).
  - unfold stop, seq, ctx. now rewrite Hc.
  - destruct sprite0 as [s|]; simpl; [|reflexivity].
    unfold renderRectangle. now rewrite Hc.
  - unfold get, seq, ctx. now rewrite Hc.
  - unfold seq, ctx. now rewrite Hc.
  - unfold seq, ctx. now rewrite Hc.
  - unfold seq, ctx. now rewrite Hc.
Qed.

(** ** Calls outside a bracket *)




(** ** The bracket discipline *)

Lemma perform_all_cons k l c :
  perform_all (k :: l) c = perform_all l (Canvas.perform k c).
Proof. reflexivity. Qed.

Lemma drawn_app l1 : forall l2 c,
  drawn (l1 ++ l2) c = drawn l1 c ++ drawn l2 (perform_all l1 c).
Proof.
  induction l1 as [|k l1 IH]; intros l2 c; [reflexivity|].
  cbn [app drawn]. rewrite IH, perform_all_cons. now rewrite app_assoc.
Qed.

Lemma screen_space_based s : screen_space s -> screen_based s.
Proof.
  intros [Ht Ha]. split; [|exact Ha].
  exists []. exact Ht.
Qed.

(** A simple call changes neither transform, alpha nor stack. *)
Lemma simple_perform k c :
  simple k = true ->
  Canvas.transform (Canvas.state (Canvas.perform k c)) = Canvas.transform (Canvas.state c) /\
  Canvas.globalAlpha (Canvas.state (Canvas.perform k c))
    = Canvas.globalAlpha (Canvas.state c) /\
  Canvas.stack (Canvas.perform k c) = Canvas.stack c.
Proof.
  destruct c as [s st cs].
  destruct k; try discriminate; intros _; cbn; try (repeat split; reflexivity).
  - destruct v; repeat split; reflexivity.
  - destruct (Qle_bool v 0); repeat split; reflexivity.
Qed.

Lemma tidy_nil : tidy [].
Proof. intros c Hs. repeat split; try apply Hs. constructor. Qed.

Lemma tidy_app l1 l2 : tidy l1 -> tidy l2 -> tidy (l1 ++ l2).
Proof.
  intros H1 H2 c Hs.
  destruct (H1 c Hs) as (S1 & T1 & D1).
  destruct (H2 (perform_all l1 c) S1) as (S2 & T2 & D2).
  rewrite perform_all_app, drawn_app. repeat split; try apply S2.
  - congruence.
  - apply Forall_app. split; assumption.
Qed.

Lemma tidy_simple l : forallb simple l = true -> tidy l.
Proof.
  induction l as [|k l IH]; intros H; [apply tidy_nil|].
  simpl in H. apply andb_true_iff in H as [Hk Hl].
  intros c [Ht Ha].
  destruct (simple_perform k c Hk) as (Et & Ea & Es).
  assert (S1 : screen_space (Canvas.state (Canvas.perform k c))).
  { split; congruence. }
  destruct (IH Hl (Canvas.perform k c) S1) as (S2 & T2 & D2).
  rewrite perform_all_cons. simpl drawn.
  repeat split; try apply S2; [congruence|].
  apply Forall_app. split; [|exact D2].
  destruct (Canvas.is_draw k); constructor; [|constructor].
  split; [apply screen_space_based; split; assumption | intros _; exact Ht].
Qed.

Lemma text_calls_simple shadowed color text x y :
  forallb simple (text_calls shadowed color text x y) = true.
Proof. destruct shadowed; reflexivity. Qed.

Lemma columns_calls_simple shadowed color columnWidth y arguments : forall x,
  forallb simple (columns_calls shadowed color arguments x columnWidth y) = true.
Proof.
  induction arguments as [|a rest IH]; intro x; simpl; [reflexivity|].
  now rewrite forallb_app, text_calls_simple, IH.
Qed.

(** Between a save and a restore: translations, rotations and path calls
    keep the opacity and build on the transform. *)
Lemma path_only_perform k c :
  path_only k = true ->
  screen_based (Canvas.state c) ->
  screen_based (Canvas.state (Canvas.perform k c)) /\
  Canvas.stack (Canvas.perform k c) = Canvas.stack c.
Proof.
  destruct c as [s st cs]. intros Hk [[rest Ht] Ha]. simpl in Ht, Ha.
  destruct k; try discriminate; cbn;
    try (split; [split; [exists rest; exact Ht | exact Ha] | reflexivity]).
  - destruct (is_finite x && is_finite y); cbn;
      [ | split; [split; [exists rest; exact Ht | exact Ha] | reflexivity] ].
    split; [|reflexivity]. split; [|exact Ha].
    exists (rest ++ [Canvas.Translate x y]). cbn. now rewrite Ht.
  - destruct angle as [a|]; cbn.
    + split; [|reflexivity]. split; [|exact Ha].
      exists (rest ++ [Canvas.Rotate a]). cbn. now rewrite Ht.
    + split; [split; [exists rest; exact Ht | exact Ha] | reflexivity].
  - destruct (Qle_bool v 0); cbn;
      (split; [split; [exists rest; exact Ht | exact Ha] | reflexivity]).
Qed.

Lemma path_only_run inner : forall c,
  forallb path_only inner = true ->
  screen_based (Canvas.state c) ->
  screen_based (Canvas.state (perform_all inner c)) /\
  Canvas.stack (perform_all inner c) = Canvas.stack c /\
  Forall overlay_draw (drawn inner c).
Proof.
  induction inner as [|k inner IH]; intros c H Hb.
  - repeat split; try apply Hb. constructor.
  - simpl in H. apply andb_true_iff in H as [Hk Hi].
    destruct (path_only_perform k c Hk Hb) as (B1 & T1).
    destruct (IH (Canvas.perform k c) Hi B1) as (B2 & T2 & D2).
    rewrite perform_all_cons. simpl drawn.
    repeat split; try apply B2; [congruence|].
    apply Forall_app. split; [|exact D2].
    destruct (Canvas.is_draw k) eqn:Ed; constructor; [|constructor].
    split; [exact Hb|]. cbn. intros Hp.
    destruct k; try discriminate.
Qed.

Lemma tidy_scoped inner : forallb path_only inner = true -> tidy (scoped inner).
Proof.
  intros H c Hs. unfold scoped.
  change (Canvas.beginPath :: Canvas.save :: inner ++ [Canvas.restore])
    with ([Canvas.beginPath; Canvas.save] ++ inner ++ [Canvas.restore]).
  rewrite !perform_all_app, !drawn_app.
  set (c1 := perform_all [Canvas.beginPath; Canvas.save] c).
  assert (E1 : Canvas.state c1 = Canvas.state c /\
               Canvas.stack c1 = Canvas.state c :: Canvas.stack c).
  { destruct c; split; reflexivity. }
  destruct E1 as [Es1 Et1].
  assert (B1 : screen_based (Canvas.state c1)).
  { rewrite Es1. now apply screen_space_based. }
  destruct (path_only_run inner c1 H B1) as (B2 & T2 & D2).
  rewrite Et1 in T2.
  destruct (perform_all inner c1) as [s2 st2 cs2] eqn:E2. simpl in T2. subst st2.
  repeat split; try apply Hs.
  simpl. rewrite app_nil_r. exact D2.
Qed.

Lemma kept_refl d : kept d d.
Proof. unfold kept. auto. Qed.

Lemma kept_trans d1 d2 d3 : kept d1 d2 -> kept d2 d3 -> kept d1 d3.
Proof.
  intros (a1 & a2 & a3 & a4) (b1 & b2 & b3 & b4).
  unfold kept. repeat split; congruence.
Qed.

Lemma kept_with_context v d : kept d (with_context v d).
Proof. destruct d; unfold kept; auto. Qed.

Lemma context_with_context v d : context (with_context v d) = v.
Proof. destruct d; reflexivity. Qed.

Lemma tidy_ret g : tidy_on g ret.
Proof.
  intros d c _ Hc. exists [], d.
  split; [reflexivity|]. split; [exact Hc|]. split; [apply kept_refl | apply tidy_nil].
Qed.

Lemma tidy_seq g a b : tidy_on g a -> tidy_on g b -> tidy_on g (a ;; b).
Proof.
  intros Ha Hb d c Hg Hc.
  destruct (Ha d c Hg Hc) as (la & d1 & Ea & Hc1 & K1 & Ta).
  assert (Hg1 : game d1 = g) by (destruct K1 as (-> & _); exact Hg).
  destruct (Hb d1 _ Hg1 Hc1) as (lb & d2 & Eb & Hc2 & K2 & Tb).
  exists (la ++ lb), d2. unfold seq. rewrite Ea.
  split; [exact Eb|]. split; [now rewrite perform_all_app|].
  split; [exact (kept_trans _ _ _ K1 K2) | now apply tidy_app].
Qed.

Lemma tidy_get g f :
  (forall this, game this = g -> tidy_on g (f this)) -> tidy_on g (get f).
Proof. intros H d c Hg Hc. exact (H d Hg d c Hg Hc). Qed.

Lemma tidy_ctx g k :
  simple k = true -> Canvas.raises k = false -> tidy_on g (ctx k).
Proof.
  intros Hk Hr d c _ Hc.
  exists [k], (with_context (Some (Canvas.perform k c)) d).
  unfold ctx. rewrite Hc, Hr.
  split; [reflexivity|]. split; [destruct d; reflexivity|].
  split; [apply kept_with_context|].
  apply tidy_simple. simpl. now rewrite Hk.
Qed.

Lemma tidy_line g text x y : tidy_on g (line text x y).
Proof.
  intros d c _ Hc. rewrite (line_step d c Hc text x y). cbv zeta.
  eexists. eexists. split; [reflexivity|]. split; [reflexivity|].
  split; [split; [|split; [|split]]; reflexivity|].
  apply tidy_simple, text_calls_simple.
Qed.

Lemma tidy_splitline g arguments : tidy_on g (splitline arguments).
Proof.
  intros d c _ Hc. rewrite (splitline_step d c Hc arguments).
  eexists. eexists. split; [reflexivity|]. split; [reflexivity|].
  split; [split; [|split; [|split]]; reflexivity|].
  apply tidy_simple, columns_calls_simple.
Qed.

Lemma lineTo_calls_path_only m points : forallb path_only (lineTo_calls m points) = true.
Proof. induction points; simpl; auto. Qed.

Lemma polygon_inner_path_only m x y a p0 rest offset angle :
  forallb path_only (polygon_inner m x y a p0 rest offset angle) = true.
Proof.
  unfold polygon_inner. rewrite !forallb_app, lineTo_calls_path_only. reflexivity.
Qed.

Lemma line_inner_path_only m x y a shape angle :
  forallb path_only (line_inner m x y a shape angle) = true.
Proof. unfold line_inner. destruct (p2.length shape); reflexivity. Qed.

Lemma circle_inner_path_only m x y shape offset :
  forallb path_only (circle_inner m x y shape offset) = true.
Proof. unfold circle_inner. destruct (p2.radius shape); reflexivity. Qed.

(** One turn of the shape loop, on a shape in order, is tidy. *)
Lemma tidy_renderShapeAt g i x y a shapes offsets angles shape :
  nth_error shapes i = Some shape ->
  shape_ok (math g) shape (nth_error offsets i) = true ->
  tidy_on g (renderShapeAt i x y a shapes offsets angles).
Proof.
  intros Hs Hok d c Hg Hc. subst g. unfold renderShapeAt. rewrite Hs.
  destruct shape as [w h vs | l | vs | r | | | l r]; simpl in Hok.
  - destruct (nth_error offsets i) as [o|]; [|discriminate].
    destruct vs as [|p0 rest]; [discriminate|].
    rewrite renderShapeRectangle_as_convex.
    erewrite renderShapeConvex_step by (first [exact Hc | reflexivity]).
    eexists. eexists. split; [reflexivity|].
    split; [apply context_with_context|]. split; [apply kept_with_context|].
    apply tidy_scoped, polygon_inner_path_only.
  - rewrite (renderShapeLine_step d c _ _ _ _ _ _ Hc).
    eexists. eexists. split; [reflexivity|].
    split; [apply context_with_context|]. split; [apply kept_with_context|].
    apply tidy_scoped, line_inner_path_only.
  - destruct (nth_error offsets i) as [o|]; [|discriminate].
    destruct vs as [|p0 rest]; [discriminate|].
    erewrite renderShapeConvex_step by (first [exact Hc | reflexivity]).
    eexists. eexists. split; [reflexivity|].
    split; [apply context_with_context|]. split; [apply kept_with_context|].
    apply tidy_scoped, polygon_inner_path_only.
  - destruct (nth_error offsets i) as [o|]; [|discriminate].
    apply negb_true_iff in Hok.
    rewrite (renderShapeCircle_step d c _ _ _ _ _ _ Hc); [|exact Hok].
    eexists. eexists. split; [reflexivity|].
    split; [apply context_with_context|]. split; [apply kept_with_context|].
    apply tidy_scoped, circle_inner_path_only.
  - apply (tidy_ret (game d)); [reflexivity | exact Hc].
  - apply (tidy_ret (game d)); [reflexivity | exact Hc].
  - apply (tidy_ret (game d)); [reflexivity | exact Hc].
Qed.

Lemma tidy_renderShapes g body x y : forall n,
  (n <= List.length (p2.shapes body))%nat ->
  body_ok (math g) body = true ->
  tidy_on g (renderShapes n x y (p2.angle body) (p2.shapes body)
               (p2.shapeOffsets body) (p2.shapeAngles body)).
Proof.
  induction n as [|n IH]; intros Hn Hb; simpl.
  - apply tidy_ret.
  - destruct (nth_error (p2.shapes body) n) as [shape|] eqn:Hs;
      [ | apply nth_error_None in Hs; lia ].
    apply tidy_seq.
    + eapply tidy_renderShapeAt; [exact Hs|].
      now apply body_ok_shape.
    + apply IH; [lia | exact Hb].
Qed.

(** Closing a bracket. *)
Lemma closes_stop g : closes g stop.
Proof.
  intros d c _ Hc. rewrite (stop_step d c Hc).
  exists []. eexists. split; [reflexivity|]. split; [reflexivity|].
  split; [apply tidy_nil|]. split; [|split]; reflexivity.
Qed.

Lemma closes_seq g a b : tidy_on g a -> closes g b -> closes g (a ;; b).
Proof.
  intros Ha Hb d c Hg Hc.
  destruct (Ha d c Hg Hc) as (la & d1 & Ea & Hc1 & (K1 & K2 & K3 & K4) & Ta).
  assert (Hg1 : game d1 = g) by congruence.
  destruct (Hb d1 _ Hg1 Hc1) as (lb & d2 & Eb & Hc2 & Tb & G2 & S2 & U2).
  exists (la ++ lb), d2. unfold seq. rewrite Ea.
  assert (Hs : has_sprite d1 = has_sprite d) by (unfold has_sprite; now rewrite K2).
  rewrite Hs, K3 in Hc2. rewrite Hs, K4 in U2.
  split; [exact Eb|].
  split; [now rewrite <- app_assoc, perform_all_app|].
  split; [now apply tidy_app|].
  split; [congruence|]. split; [congruence | exact U2].
Qed.

Lemma bracket_closes g body d c x y color columnWidth :
  closes g body -> game d = g -> context d = Some c ->
  bracketed d c ((start x y color columnWidth ;; body) d).
Proof.
  intros Hb Hg Hc. unfold seq. rewrite (start_step d c Hc). cbv zeta.
  match goal with
  | |- bracketed _ _ (body ?d1) =>
      destruct (Hb d1 _ Hg eq_refl) as (l & d2 & E & Hc2 & T & G2 & S2 & U2)
  end.
  rewrite E. exists (or_default color "rgb(255,255,255)"), (font d), l, d2.
  split; [reflexivity|]. unfold has_sprite in *. fields.
  split; [now rewrite Hc2, !perform_all_app|].
  split; [exact T|]. split; [exact G2|]. split; assumption.
Qed.

(** The simple part of a bracket. *)
Lemma plain_ret g : plain_on g ret.
Proof.
  intros d c _ Hc. exists [], d.
  split; [reflexivity|]. split; [exact Hc|]. split; [apply kept_refl | reflexivity].
Qed.

Lemma plain_seq g a b : plain_on g a -> plain_on g b -> plain_on g (a ;; b).
Proof.
  intros Ha Hb d c Hg Hc.
  destruct (Ha d c Hg Hc) as (la & d1 & Ea & Hc1 & K1 & Ta).
  assert (Hg1 : game d1 = g) by (destruct K1 as (-> & _); exact Hg).
  destruct (Hb d1 _ Hg1 Hc1) as (lb & d2 & Eb & Hc2 & K2 & Tb).
  exists (la ++ lb), d2. unfold seq. rewrite Ea.
  split; [exact Eb|]. split; [now rewrite perform_all_app|].
  split; [exact (kept_trans _ _ _ K1 K2)|].
  now rewrite forallb_app, Ta, Tb.
Qed.

Lemma plain_get g f :
  (forall this, game this = g -> plain_on g (f this)) -> plain_on g (get f).
Proof. intros H d c Hg Hc. exact (H d Hg d c Hg Hc). Qed.

Lemma plain_ctx g k :
  simple k = true -> Canvas.raises k = false -> plain_on g (ctx k).
Proof.
  intros Hk Hr d c _ Hc.
  exists [k], (with_context (Some (Canvas.perform k c)) d).
  unfold ctx. rewrite Hc, Hr.
  split; [reflexivity|]. split; [destruct d; reflexivity|].
  split; [apply kept_with_context|].
  simpl. now rewrite Hk.
Qed.

Lemma plain_line g text x y : plain_on g (line text x y).
Proof.
  intros d c _ Hc. rewrite (line_step d c Hc text x y). cbv zeta.
  eexists. eexists. split; [reflexivity|]. split; [reflexivity|].
  split; [split; [|split; [|split]]; reflexivity|].
  apply text_calls_simple.
Qed.

Lemma plain_splitline g arguments : plain_on g (splitline arguments).
Proof.
  intros d c _ Hc. rewrite (splitline_step d c Hc arguments).
  eexists. eexists. split; [reflexivity|]. split; [reflexivity|].
  split; [split; [|split; [|split]]; reflexivity|].
  apply columns_calls_simple.
Qed.

(** A bracket cut short. *)
Lemma throws_deref_none g {A : Type} (k : A -> action) : throws g (deref None k).
Proof.
  intros d c _ Hc. exists [], d.
  split; [reflexivity|]. split; [exact Hc|]. split; reflexivity.
Qed.

Lemma throws_first g a b : throws g a -> throws g (a ;; b).
Proof.
  intros Ha d c Hg Hc. destruct (Ha d c Hg Hc) as (l & d' & E & Hc' & T).
  exists l, d'. unfold seq. rewrite E. auto.
Qed.

Lemma throws_later g a b : plain_on g a -> throws g b -> throws g (a ;; b).
Proof.
  intros Ha Hb d c Hg Hc.
  destruct (Ha d c Hg Hc) as (la & d1 & Ea & Hc1 & (K1 & _) & Ta).
  assert (Hg1 : game d1 = g) by congruence.
  destruct (Hb d1 _ Hg1 Hc1) as (lb & d2 & Eb & Hc2 & Tb & G2).
  exists (la ++ lb), d2. unfold seq. rewrite Ea.
  split; [exact Eb|]. split; [now rewrite perform_all_app|].
  split; [now rewrite forallb_app, Ta, Tb | congruence].
Qed.

Lemma throws_get g f :
  (forall this, game this = g -> throws g (f this)) -> throws g (get f).
Proof. intros H d c Hg Hc. exact (H d Hg d c Hg Hc). Qed.

Lemma bracket_throws g body d c x y color columnWidth :
  throws g body -> game d = g -> context d = Some c ->
  left_open d c ((start x y color columnWidth ;; body) d).
Proof.
  intros Hb Hg Hc. unfold seq. rewrite (start_step d c Hc). cbv zeta.
  match goal with
  | |- left_open _ _ (body ?d1) =>
      destruct (Hb d1 _ Hg eq_refl) as (l & d2 & E & Hc2 & T & G2)
  end.
  rewrite E. exists (or_default color "rgb(255,255,255)"), (font d), l, d2.
  split; [reflexivity|]. revert G2. fields. intros G2.
  split; [now rewrite Hc2, !perform_all_app|]. split; [exact T | exact G2].
Qed.

(** One step of the proof that an action is tidy or closes its bracket,
    read off the head of the action. *)
Ltac tidy_step :=
  lazymatch goal with
  | |- closes _ stop => apply closes_stop
  | |- closes _ (seq _ _) => apply closes_seq
  | |- tidy_on _ (seq _ _) => apply tidy_seq
  | |- tidy_on _ ret => apply tidy_ret
  | |- tidy_on _ (line _ _ _) => apply tidy_line
  | |- tidy_on _ (splitline _) => apply tidy_splitline
  | |- tidy_on _ (get _) => apply tidy_get; intros ? ?; cbv beta zeta
  | |- tidy_on _ (ctx _) =>
      apply tidy_ctx; [reflexivity | first [reflexivity | assumption]]
  | |- tidy_on _ (deref (Some _) _) => cbn [deref]; cbv beta zeta
  | |- tidy_on _ (deref ?v _) =>
      match goal with E : v = Some _ |- _ => rewrite E end
  | |- tidy_on _ (if ?b then _ else _) =>
      first [ match goal with E : b = _ |- _ => rewrite E end | destruct b ]
  | |- tidy_on _ (renderShapes _ _ _ _ _ _ _) =>
      apply tidy_renderShapes; [apply le_n | assumption]
  end.

(** A render method, past its test of the context, as the bracket it is. *)
Ltac bracket d Hc :=
  lazymatch goal with
  | |- bracketed _ _ (?f _ _ _ _ _ d) => unfold f
  | |- bracketed _ _ (?f _ _ _ _ d) => unfold f
  | |- bracketed _ _ (?f _ _ _ d) => unfold f
  | |- bracketed _ _ (?f _ _ d) => unfold f
  end;
  rewrite Hc; cbv beta zeta;
  apply (bracket_closes (game d)); [ repeat tidy_step | reflexivity | exact Hc ].

Lemma render_bracketed d c m :
  context d = Some c ->
  render_ok (game d) m = true ->
  bracketed d c (call m d).
Proof.
  intros Hc Hok.
  destruct m; try discriminate; simpl in Hok; simpl call.
  - (* renderSoundInfo *)
    destruct sound as [s|]; [|discriminate].
    apply orb_true_iff in Hok.
    destruct (String.eqb (currentMarker s) "") eqn:Em.
    + bracket d Hc.
    + destruct Hok as [Hok|Hok]; [discriminate|].
      destruct (markers s (currentMarker s)) eqn:El; [|discriminate].
      bracket d Hc.
  - destruct camera; [|discriminate]. bracket d Hc.
  - (* renderPointer *)
    destruct pointer as [p|]; [|discriminate].
    apply andb_true_iff in Hok as [Hh Hr].
    apply negb_true_iff in Hh. apply negb_true_iff in Hr.
    assert (Hr' : Canvas.raises (Canvas.arc (pointer_x p) (pointer_y p)
                                   (circle_radius (pointer_circle p))) = false)
      by (apply arc_quiet; exact Hr).
    unfold renderPointer. rewrite Hc. cbv beta zeta. rewrite Hh.
    apply (bracket_closes (game d)); [ repeat tidy_step | reflexivity | exact Hc ].
  - (* renderSpriteInputInfo *)
    destruct sprite0 as [s|]; [|discriminate].
    destruct (sprite_input s) eqn:Ei; [|discriminate].
    bracket d Hc.
  - destruct key; [|discriminate]. bracket d Hc.
  - bracket d Hc.
  - (* renderSpriteBounds *)
    destruct sprite0 as [s|]; [|discriminate].
    unfold renderSpriteBounds. cbn [deref]. cbv beta zeta.
    bracket d Hc.
  - destruct sprite0; [|discriminate]. bracket d Hc.
  - destruct sprite0; [|discriminate]. bracket d Hc.
  - destruct line0; [|discriminate]. bracket d Hc.
  - destruct line0; [|discriminate]. bracket d Hc.
  - destruct point; [|discriminate]. bracket d Hc.
  - bracket d Hc.
  - destruct point; [|discriminate]. bracket d Hc.
  - destruct rect; [|discriminate]. bracket d Hc.
  - (* renderCircle *)
    destruct circle as [ci|]; [|discriminate].
    apply negb_true_iff in Hok.
    assert (Hr' : Canvas.raises (Canvas.arc (circle_x ci) (circle_y ci)
                                   (circle_radius ci)) = false)
      by (apply arc_quiet; exact Hok).
    bracket d Hc.
  - bracket d Hc.
  - (* renderBodyInfo *)
    destruct sprite0 as [s|]; [|discriminate].
    destruct (sprite_body s) eqn:Eb; [|discriminate].
    bracket d Hc.
  - destruct body; [|discriminate]. bracket d Hc.
Qed.

(** What the calls of stop do to a surface whose stack holds the state
    start saved, when the alpha start recorded is the alpha of that
    state. *)
Lemma stop_calls_effect c2 s st offscreen :
  Canvas.stack c2 = s :: st ->
  Canvas.stack (perform_all (stop_calls (Canvas.globalAlpha s) offscreen) c2) = st /\
  same_but_fill s (Canvas.state (perform_all (stop_calls (Canvas.globalAlpha s) offscreen) c2)) /\
  Canvas.fillStyle (Canvas.state (perform_all (stop_calls (Canvas.globalAlpha s) offscreen) c2))
  = (if offscreen then "#ff0000" else Canvas.fillStyle s).
Proof.
  destruct c2 as [s2 st2 cs2]. simpl. intros ->.
  destruct s as [t ss fs fo ga lw]. cbn.
  destruct (Qle_bool 0 ga && Qle_bool ga 1), offscreen; cbn;
    unfold same_but_fill; cbn; auto 10.
Qed.

Lemma start_calls_screen_space color font c :
  screen_space (Canvas.state (perform_all (start_calls color font) c)).
Proof.
  destruct (start_calls_effect color font c) as [-> _]. split; reflexivity.
Qed.

(** A whole bracket, read on the surface. *)
Lemma bracketed_surface d c o :
  bracketed d c o ->
  exists d' c' color font l,
    o = Normal d' /\
    context d' = Some c' /\
    Canvas.calls c' =
      Canvas.calls c ++ start_calls color font ++ l
      ++ stop_calls (Canvas.globalAlpha (Canvas.state c)) (has_sprite d) /\
    Forall overlay_draw (drawn l (perform_all (start_calls color font) c)) /\
    Canvas.stack c' = Canvas.stack c /\
    same_but_fill (Canvas.state c) (Canvas.state c') /\
    Canvas.fillStyle (Canvas.state c')
      = (if has_sprite d then "#ff0000" else Canvas.fillStyle (Canvas.state c)) /\
    textureUpdates d' = (if has_sprite d then S (textureUpdates d) else textureUpdates d) /\
    game d' = game d /\ sprite d' = sprite d.
Proof.
  intros (color & fnt & l & d' & E & Hc' & T & G & S' & U).
  eexists d', _, color, fnt, l.
  split; [exact E|]. split; [exact Hc'|].
  split; [apply calls_perform_all|].
  rewrite !perform_all_app.
  set (c1 := perform_all (start_calls color fnt) c).
  destruct (T c1 (start_calls_screen_space color fnt c)) as (_ & T2 & D2).
  assert (Et : Canvas.stack (perform_all l c1) = Canvas.state c :: Canvas.stack c).
  { rewrite T2. apply start_calls_effect. }
  destruct (stop_calls_effect (perform_all l c1) (Canvas.state c) (Canvas.stack c)
              (has_sprite d) Et) as (R1 & R2 & R3).
  auto 12.
Qed.

(** A run of brackets, read on the surface. *)
Lemma run_bracketed_surface : forall ms d c,
  context d = Some c ->
  forallb (render_ok (game d)) ms = true ->
  exists d' c',
    run ms d = Normal d' /\
    context d' = Some c' /\
    Canvas.stack c' = Canvas.stack c /\
    same_but_fill (Canvas.state c) (Canvas.state c') /\
    Canvas.fillStyle (Canvas.state c')
      = (if has_sprite d && negb (Nat.eqb (List.length ms) 0)
         then "#ff0000" else Canvas.fillStyle (Canvas.state c)) /\
    textureUpdates d'
      = (textureUpdates d + (if has_sprite d then List.length ms else 0))%nat.
Proof.
  induction ms as [|m ms IH]; intros d c Hc Hok.
  - exists d, c. simpl. rewrite andb_false_r, Nat.add_comm.
    split; [reflexivity|]. split; [exact Hc|]. split; [reflexivity|].
    split; [apply same_but_fill_refl|]. destruct (has_sprite d); auto.
  - simpl in Hok. apply andb_true_iff in Hok as [Hm Hms].
    destruct (bracketed_surface d c _ (render_bracketed d c m Hc Hm))
      as (d1 & c1 & color & fnt & l & E & Hc1 & _ & _ & Hst & F & Hf & U & G & S1).
    rewrite <- G in Hms.
    destruct (IH d1 c1 Hc1 Hms) as (d' & c' & E' & Hc' & Hst' & F' & Hf' & U').
    assert (Hs : has_sprite d1 = has_sprite d) by (unfold has_sprite; now rewrite S1).
    exists d', c'. rewrite run_cons, E.
    split; [exact E'|]. split; [exact Hc'|].
    split; [congruence|].
    split; [exact (same_but_fill_trans _ _ _ F F')|].
    rewrite Hf', U', Hs, Hf, U. cbn [List.length Nat.eqb negb].
    rewrite andb_true_r.
    destruct (has_sprite d); [|split; [reflexivity | lia]].
    split; [|lia]. now destruct (negb _).
Qed.

(** X1.  A run of render methods, each called with all its arguments
    there, on a renderer with a context, returns normally and leaves the
    surface as it found it: the stack of saved states, the transform, the
    stroke colour, the font, the global alpha and the line width are what
    they were before the first call, whatever the methods set in
    between; so is the fill colour on the game's own canvas, while off
    screen a run that is not empty leaves it at "#ff0000" and the
    texture is uploaded once for each call. *)
Theorem render_methods_restore_surface :
  forall ms d c,
    context d = Some c ->
    forallb (render_ok (game d)) ms = true ->
    exists d' c',
      run ms d = Normal d' /\
      context d' = Some c' /\
      Canvas.stack c' = Canvas.stack c /\
      Canvas.transform (Canvas.state c') = Canvas.transform (Canvas.state c) /\
      Canvas.strokeStyle (Canvas.state c') = Canvas.strokeStyle (Canvas.state c) /\
      Canvas.font (Canvas.state c') = Canvas.font (Canvas.state c) /\
      Canvas.globalAlpha (Canvas.state c') = Canvas.globalAlpha (Canvas.state c) /\
      Canvas.lineWidth (Canvas.state c') = Canvas.lineWidth (Canvas.state c) /\
      Canvas.fillStyle (Canvas.state c')
        = (if has_sprite d && negb (Nat.eqb (List.length ms) 0)
           then "#ff0000" else Canvas.fillStyle (Canvas.state c)) /\
      textureUpdates d'
        = (textureUpdates d + (if has_sprite d then List.length ms else 0))%nat.
Proof.
  intros ms d c Hc Hok.
  destruct (run_bracketed_surface ms d c Hc Hok)
    as (d' & c' & E & Hc' & Hst & (F1 & F2 & F3 & F4 & F5) & Hf & U).
  exists d', c'. auto 12.
Qed.

(** X2.  Whatever transform and alpha the surface has when a render
    method is called, every draw call the method makes between the calls
    of its start and of its stop is made at global alpha 1 and on a
    transform built on the identity; text and rectangles, and every draw
    that is not the fill or stroke of a path, in screen space itself. *)
Theorem render_methods_draw_in_screen_space :
  forall d c m,
    context d = Some c ->
    render_ok (game d) m = true ->
    exists d' color font l,
      call m d = Normal d' /\
      trace d' =
        Canvas.calls c ++ start_calls color font ++ l
        ++ stop_calls (Canvas.globalAlpha (Canvas.state c)) (has_sprite d) /\
      Forall overlay_draw (drawn l (perform_all (start_calls color font) c)).
Proof.
  intros d c m Hc Hok.
  destruct (bracketed_surface d c _ (render_bracketed d c m Hc Hok))
    as (d' & c' & color & fnt & l & E & Hc' & Hcalls & Hd & _).
  exists d', color, fnt, l. split; [exact E|].
  split; [|exact Hd]. unfold trace. now rewrite Hc'.
Qed.

(** X3.  What ends a render method, on a renderer with a context.  A
    render method called with all its arguments there (the object it
    describes and the part of it that it reads are not null, no radius
    is negative, the shapes of a body are in order, and renderPointer is
    not told to hide a pointer that is up) opens its bracket and returns
    after closing it: on the game's own canvas it ends with the restore
    and the alpha reset, and no texture upload; off screen, after them,
    with a red fillRect(0, 0, 400, 400), which is the last draw made,
    and one texture upload.  renderPointer told to hide a pointer that
    is up returns at once: it makes no call at all, and leaves the
    renderer as it was. *)
Theorem render_methods_end :
  forall d c,
    context d = Some c ->
    (forall m,
        render_ok (game d) m = true ->
        exists d' before,
          call m d = Normal d' /\
          trace d' = before ++ [ Canvas.restore;
                                 Canvas.set_globalAlpha
                                   (Canvas.globalAlpha (Canvas.state c)) ]
                     ++ (if has_sprite d
                         then [ Canvas.set_fillStyle (Some "#ff0000");
                                Canvas.fillRect 0 0 400 400 ]
                         else []) /\
          textureUpdates d'
          = (if has_sprite d then S (textureUpdates d) else textureUpdates d) /\
          (has_sprite d = true ->
           exists earlier, draws (trace d') = earlier ++ [Canvas.fillRect 0 0 400 400])) /\
    (forall pointer downColor upColor color,
        pointer_isUp pointer = true ->
        call (MrenderPointer (Some pointer) (Some true) downColor upColor color) d
        = Normal d).
Proof.
  intros d c Hc. split;
    [ intros m Hok
    | intros pointer downColor upColor color Hup; simpl call;
      unfold renderPointer; rewrite Hc, Hup; reflexivity ].
  destruct (bracketed_surface d c _ (render_bracketed d c m Hc Hok))
    as (d' & c' & color & fnt & l & E & Hc' & Hcalls & _ & _ & _ & _ & U & _).
  exists d', (Canvas.calls c ++ start_calls color fnt ++ l).
  assert (Ht : trace d' =
               (Canvas.calls c ++ start_calls color fnt ++ l)
               ++ stop_calls (Canvas.globalAlpha (Canvas.state c)) (has_sprite d)).
  { unfold trace. rewrite Hc', Hcalls, <- !app_assoc. reflexivity. }
  split; [exact E|]. split; [exact Ht|]. split; [exact U|].
  intros Hs. rewrite Ht, Hs. unfold draws, stop_calls.
  rewrite filter_app. eexists. reflexivity.
Qed.

(** One step of the proof that an action sends simple calls. *)
Ltac plain_step :=
  lazymatch goal with
  | |- plain_on _ (seq _ _) => apply plain_seq
  | |- plain_on _ ret => apply plain_ret
  | |- plain_on _ (line _ _ _) => apply plain_line
  | |- plain_on _ (splitline _) => apply plain_splitline
  | |- plain_on _ (get _) => apply plain_get; intros ? ?; cbv beta zeta
  | |- plain_on _ (ctx _) =>
      apply plain_ctx; [reflexivity | first [reflexivity | assumption]]
  | |- plain_on _ (if ?b then _ else _) =>
      first [ match goal with E : b = _ |- _ => rewrite E end | destruct b ]
  end.

(** One step of the proof that an action throws on what it cannot read:
    the simple part first, then the null read. *)
Ltac throws_step :=
  lazymatch goal with
  | |- throws _ (deref None _) => apply throws_deref_none
  | |- throws _ (deref (Some _) _) => cbn [deref]; cbv beta zeta
  | |- throws _ (deref ?v _) =>
      match goal with E : v = _ |- _ => rewrite E end
  | |- throws _ (get _) => apply throws_get; intros ? ?; cbv beta zeta
  | |- throws _ (if ?b then _ else _) =>
      first [ match goal with E : b = _ |- _ => rewrite E end | destruct b ]
  | |- throws _ (seq _ _) =>
      first [ apply throws_later; [ solve [repeat plain_step] | ]
            | apply throws_first ]
  end.

Ltac cut_short d Hc :=
  lazymatch goal with
  | |- left_open _ _ (?f _ _ _ _ _ d) => unfold f
  | |- left_open _ _ (?f _ _ _ _ d) => unfold f
  | |- left_open _ _ (?f _ _ _ d) => unfold f
  | |- left_open _ _ (?f _ _ d) => unfold f
  end;
  rewrite Hc; cbv beta zeta;
  apply (bracket_throws (game d)); [ repeat throws_step | reflexivity | exact Hc ].

Lemma unreadable_left_open d c m :
  context d = Some c ->
  unreadable m = true ->
  left_open d c (call m d).
Proof.
  intros Hc Hu.
  destruct m; try discriminate; simpl in Hu; simpl call.
  - (* renderSoundInfo *)
    destruct sound as [s|]; [|cut_short d Hc].
    apply andb_true_iff in Hu as [Hm Hl].
    apply negb_true_iff in Hm.
    destruct (markers s (currentMarker s)) eqn:El; [discriminate|].
    cut_short d Hc.
  - destruct camera; [discriminate|]. cut_short d Hc.
  - (* renderSpriteInputInfo *)
    destruct sprite0 as [s|]; [|cut_short d Hc].
    destruct (sprite_input s) eqn:Ei; [discriminate|].
    cut_short d Hc.
  - destruct key; [discriminate|]. cut_short d Hc.
  - destruct sprite0; [discriminate|]. cut_short d Hc.
  - destruct sprite0; [discriminate|]. cut_short d Hc.
  - destruct line0; [discriminate|]. cut_short d Hc.
  - destruct line0; [discriminate|]. cut_short d Hc.
  - destruct point; [discriminate|]. cut_short d Hc.
  - destruct point; [discriminate|]. cut_short d Hc.
  - destruct rect; [discriminate|]. cut_short d Hc.
  - destruct circle; [discriminate|]. cut_short d Hc.
  - (* renderBodyInfo *)
    destruct sprite0 as [s|]; [|cut_short d Hc].
    destruct (sprite_body s) eqn:Eb; [discriminate|].
    cut_short d Hc.
  - destruct body; [discriminate|]. cut_short d Hc.
Qed.

(** A bracket cut short, read on the surface. *)
Lemma left_open_surface d c o :
  left_open d c o ->
  exists d' c' color font l,
    o = Throw TypeError d' /\
    context d' = Some c' /\
    Canvas.calls c' = Canvas.calls c ++ start_calls color font ++ l /\
    Canvas.stack c' = Canvas.state c :: Canvas.stack c /\
    screen_space (Canvas.state c') /\
    Forall overlay_draw (drawn l (perform_all (start_calls color font) c)) /\
    forallb simple l = true /\
    game d' = game d.
Proof.
  intros (color & fnt & l & d' & E & Hc' & T & G).
  eexists d', _, color, fnt, l.
  split; [exact E|]. split; [exact Hc'|].
  split; [apply calls_perform_all|].
  rewrite perform_all_app.
  destruct (tidy_simple l T _ (start_calls_screen_space color fnt c)) as (T1 & T2 & T3).
  split; [rewrite T2; apply start_calls_effect|]. auto.
Qed.

(** ** A null snapshot *)

Lemma null_snapshot_unreadable m :
  null_snapshot m = true ->
  match m with
  | MrenderSpriteBounds _ _ _ => True
  | _ => unreadable m = true
  end.
Proof.
  destruct m; try discriminate; try exact (fun _ => I); simpl;
    match goal with
    | |- match ?v with Some _ => _ | None => _ end = true -> _ =>
        destruct v; [discriminate | reflexivity]
    end.
Qed.

(** C6, as the code has it.  renderPointer tests its pointer together
    with the context: on a null pointer it returns normally and leaves
    the renderer as it was, context or not.  No other render method
    tests its snapshot.  With a context, each of them throws a TypeError
    on a null snapshot: renderSpriteBounds at once, the renderer and the
    surface being as they were; every other one after its start has run
    and before its stop, the surface having received the calls of start
    and then only calls that touch neither its stack, its transform nor
    its alpha, so that the state start saved is still on the stack.
    Without a context each of them returns normally and leaves the
    renderer as it was, but for renderSpriteBounds, which throws. *)
Theorem null_snapshot_calls :
  forall d,
    (forall hideIfUp downColor upColor color,
        renderPointer None hideIfUp downColor upColor color d = Normal d) /\
    (forall c m,
        context d = Some c ->
        null_snapshot m = true ->
        match m with
        | MrenderSpriteBounds _ _ _ => call m d = Throw TypeError d
        | _ =>
            exists d' c' color font l,
              call m d = Throw TypeError d' /\
              context d' = Some c' /\
              Canvas.calls c' = Canvas.calls c ++ start_calls color font ++ l /\
              forallb simple l = true /\
              Canvas.stack c' = Canvas.state c :: Canvas.stack c
        end) /\
    (forall m,
        context d = None ->
        null_snapshot m = true ->
        call m d = match m with
                   | MrenderSpriteBounds _ _ _ => Throw TypeError d
                   | _ => Normal d
                   end).
Proof.
  intros d. split; [|split].
  - intros. unfold renderPointer. destruct (context d); reflexivity.
  - intros c m Hc Hm.
    pose proof (null_snapshot_unreadable m Hm) as Hu.
    destruct m; try discriminate;
      try (destruct (left_open_surface d c _ (unreadable_left_open d c _ Hc Hu))
             as (d' & c' & col & fnt & l & E & Hc' & Hcalls & Hst & _ & _ & Hl & _);
           exists d', c', col, fnt, l; auto 10).
    simpl in Hm.
    match goal with
    | H : match ?v with Some _ => _ | None => _ end = true |- _ =>
        destruct v; [discriminate | reflexivity]
    end.
  - intros m Hc Hm.
    destruct m; try discriminate; simpl in Hm;
      match goal with
      | H : match ?v with Some _ => _ | None => _ end = true |- _ =>
          destruct v; [discriminate|]
      end;
      simpl call;
      try reflexivity;
      unfold renderSoundInfo, renderCameraInfo, renderSpriteInputInfo, renderKey,
        renderSpriteInfo, renderSpriteCoords, renderLine, renderLineInfo,
        renderPointInfo, renderPoint, renderRectangle, renderCircle,
        renderBodyInfo, renderPhysicsBody;
      rewrite Hc; reflexivity.
Qed.

(** X4.  A render method that has a context and is given nothing to
    read (a null object, a sprite without input handler or body, a sound
    that names a marker for which the read of sound.markers gives
    undefined, no property of that name being found on the object or
    inherited by it) has opened its bracket when the TypeError is
    raised, and nothing closes it: the state the surface had at the call
    is left on the stack of saved states, on top of what was there, and
    the surface itself stays in screen space at alpha 1 instead of the
    transform and the alpha it had. *)
Theorem unreadable_leaves_bracket_open :
  forall d c m,
    context d = Some c ->
    unreadable m = true ->
    exists d' c' color font l,
      call m d = Throw TypeError d' /\
      context d' = Some c' /\
      Canvas.calls c' = Canvas.calls c ++ start_calls color font ++ l /\
      Canvas.stack c' = Canvas.state c :: Canvas.stack c /\
      Canvas.transform (Canvas.state c') = identity /\
      Canvas.globalAlpha (Canvas.state c') = 1%Q /\
      Forall overlay_draw (drawn l (perform_all (start_calls color font) c)).
Proof.
  intros d c m Hc Hu.
  destruct (left_open_surface d c _ (unreadable_left_open d c m Hc Hu))
    as (d' & c' & color & fnt & l & E & Hc' & Hcalls & Hst & (Ht & Ha) & Hd & _).
  exists d', c', color, fnt, l. auto 10.
Qed.

(** ** After a bracket was cut short *)

(** X12.  What a cut-short bracket costs.  When a render method has
    thrown on something it could not read (a null object, a sprite
    without input handler or body, a sound naming a marker for which
    sound.markers gives undefined) and the exception was caught, the
    render methods called after it, with their arguments there (and no
    negative radius, and no pointer to hide), return normally
    but never pop the state the failed call left on the stack, and each
    restores the surface to what that call left, not to what the caller
    had: after any such run the transform is still the identity and the
    global alpha still 1. *)
Theorem cut_short_bracket_is_never_closed :
  forall d c m ms,
    context d = Some c ->
    unreadable m = true ->
    forallb (render_ok (game d)) ms = true ->
    exists d1 d' c',
      call m d = Throw TypeError d1 /\
      run ms d1 = Normal d' /\
      context d' = Some c' /\
      Canvas.stack c' = Canvas.state c :: Canvas.stack c /\
      Canvas.transform (Canvas.state c') = identity /\
      Canvas.globalAlpha (Canvas.state c') = 1%Q.
Proof.
  intros d c m ms Hc Hu Hok.
  destruct (left_open_surface d c _ (unreadable_left_open d c m Hc Hu))
    as (d1 & c1 & color & fnt & l & E & Hc1 & _ & Hst & (Ht & Ha) & _ & _ & G).
  rewrite <- G in Hok.
  destruct (run_bracketed_surface ms d1 c1 Hc1 Hok)
    as (d' & c' & E' & Hc' & Hst' & (F1 & _ & _ & F4 & _) & _).
  exists d1, d', c'.
  split; [exact E|]. split; [exact E'|]. split; [exact Hc'|].
  split; [congruence|]. split; congruence.
Qed.

(** ** The layout of the text blocks *)

Lemma emitted_since_perform_all c d' l :
  context d' = Some (perform_all l c) -> emitted_since c d' = l.
Proof.
  intros H. unfold emitted_since, trace. rewrite H, calls_perform_all.
  rewrite skipn_app, skipn_all, Nat.sub_diag. reflexivity.
Qed.

Lemma same_layout_refl d : same_layout d d.
Proof. unfold same_layout. auto. Qed.

Lemma same_layout_trans d1 d2 d3 :
  same_layout d1 d2 -> same_layout d2 d3 -> same_layout d1 d3.
Proof.
  intros (A1 & A2 & A3 & A4 & A5) (B1 & B2 & B3 & B4 & B5).
  unfold same_layout. repeat split; congruence.
Qed.

Lemma text_positions_app l1 l2 :
  text_positions (l1 ++ l2) = text_positions l1 ++ text_positions l2.
Proof. unfold text_positions. now rewrite map_app, concat_app. Qed.

Lemma rows_layout_app shadowed x columnWidth lineHeight s1 : forall y s2,
  rows_layout shadowed x columnWidth y lineHeight (s1 ++ s2)
  = rows_layout shadowed x columnWidth y lineHeight s1
    ++ rows_layout shadowed x columnWidth
         (add_times y lineHeight (List.length s1)) lineHeight s2.
Proof.
  induction s1 as [|n s1 IH]; intros y s2.
  - reflexivity.
  - cbn [app rows_layout List.length add_times]. rewrite IH, <- app_assoc.
    reflexivity.
Qed.

Lemma text_calls_positions shadowed color text x y :
  text_positions (text_calls shadowed color text x y) = cell_positions shadowed x y.
Proof. now destruct shadowed. Qed.

Lemma columns_calls_positions shadowed color columnWidth y arguments : forall x,
  text_positions (columns_calls shadowed color arguments x columnWidth y)
  = row_positions shadowed x columnWidth y (List.length arguments).
Proof.
  induction arguments as [|a rest IH]; intro x; [reflexivity|].
  cbn [columns_calls List.length row_positions].
  now rewrite text_positions_app, text_calls_positions, IH.
Qed.

Lemma lays_eq g s s' a : lays g s a -> s = s' -> lays g s' a.
Proof. intros H <-. exact H. Qed.

Lemma lays_ret g : lays g [] ret.
Proof.
  intros d c _ Hc. exists [], d.
  split; [reflexivity|]. split; [exact Hc|].
  split; [apply same_layout_refl|]. split; reflexivity.
Qed.

Lemma lays_seq g s1 s2 a b : lays g s1 a -> lays g s2 b -> lays g (s1 ++ s2) (a ;; b).
Proof.
  intros Ha Hb d c Hg Hc.
  destruct (Ha d c Hg Hc) as (la & d1 & Ea & Hc1 & K1 & Y1 & P1).
  assert (Hg1 : game d1 = g) by (destruct K1 as (-> & _); exact Hg).
  destruct (Hb d1 _ Hg1 Hc1) as (lb & d2 & Eb & Hc2 & K2 & Y2 & P2).
  exists (la ++ lb), d2. unfold seq. rewrite Ea.
  split; [exact Eb|]. split; [now rewrite perform_all_app|].
  split; [exact (same_layout_trans _ _ _ K1 K2)|].
  destruct K1 as (_ & L1 & S1 & X1 & W1).
  split.
  - rewrite Y2, Y1, L1, length_app. symmetry. apply add_times_add.
  - rewrite text_positions_app, P1, P2, rows_layout_app.
    now rewrite S1, X1, W1, Y1, L1.
Qed.

Lemma lays_get g s f :
  (forall this, game this = g -> lays g s (f this)) -> lays g s (get f).
Proof. intros H d c Hg Hc. exact (H d Hg d c Hg Hc). Qed.

Lemma lays_ctx g k :
  Canvas.is_fillText k = false -> Canvas.raises k = false -> lays g [] (ctx k).
Proof.
  intros Hk Hr d c _ Hc.
  exists [k], (with_context (Some (Canvas.perform k c)) d).
  unfold ctx. rewrite Hc, Hr.
  split; [reflexivity|]. split; [destruct d; reflexivity|].
  split; [destruct d; unfold same_layout; simpl; auto|].
  split; [destruct d; reflexivity|].
  destruct k; try discriminate; reflexivity.
Qed.

Lemma lays_line g text : lays g [1%nat] (line text None None).
Proof.
  intros d c _ Hc. rewrite (line_step d c Hc text None None). cbv zeta.
  eexists. eexists. split; [reflexivity|]. split; [reflexivity|].
  split; [unfold same_layout; fields; auto|].
  split; [reflexivity|].
  rewrite text_calls_positions. cbn [rows_layout row_positions].
  now rewrite !app_nil_r.
Qed.

Lemma lays_splitline g arguments :
  lays g [List.length arguments] (splitline arguments).
Proof.
  intros d c _ Hc. rewrite (splitline_step d c Hc arguments).
  eexists. eexists. split; [reflexivity|]. split; [reflexivity|].
  split; [unfold same_layout; fields; auto|].
  split; [reflexivity|].
  rewrite columns_calls_positions. cbn [rows_layout].
  now rewrite app_nil_r.
Qed.

Lemma lays_stop g : lays g [] stop.
Proof.
  intros d c _ Hc. rewrite (stop_step d c Hc).
  eexists. eexists. split; [reflexivity|]. split; [reflexivity|].
  split; [unfold same_layout; fields; auto|].
  split; [reflexivity|].
  unfold stop_calls. now destruct (has_sprite d).
Qed.

(** The rows of a bracket, from its start on. *)
Lemma bracket_lays g sizes body d c x y color width :
  lays g sizes body -> game d = g -> context d = Some c ->
  exists d',
    (start x y color width ;; body) d = Normal d' /\
    currentX d' = or_zero x /\
    currentY d' = add_times (or_zero y) (lineHeight d) (List.length sizes) /\
    columnWidth d' = or_zero width /\
    text_positions (emitted_since c d')
    = rows_layout (renderShadow d) (or_zero x) (or_zero width) (or_zero y)
        (lineHeight d) sizes.
Proof.
  intros Hb Hg Hc. unfold seq. rewrite (start_step d c Hc). cbv zeta.
  match goal with
  | |- exists _, body ?d1 = _ /\ _ =>
      destruct (Hb d1 _ Hg eq_refl) as (l & d2 & E & Hc2 & (_ & _ & _ & K4 & K5) & Y & P)
  end.
  exists d2. split; [exact E|]. revert K4 K5 Y P. fields. intros K4 K5 Y P.
  split; [exact K4|]. split; [exact Y|]. split; [exact K5|].
  rewrite <- perform_all_app in Hc2.
  rewrite (emitted_since_perform_all _ _ _ Hc2), text_positions_app, P.
  reflexivity.
Qed.

Ltac lays_step :=
  lazymatch goal with
  | |- lays _ _ stop => apply lays_stop
  | |- lays _ _ (seq _ _) => eapply lays_seq
  | |- lays _ _ ret => apply lays_ret
  | |- lays _ _ (line _ None None) => apply lays_line
  | |- lays _ _ (splitline _) => apply lays_splitline
  | |- lays _ _ (get _) => apply lays_get; intros ? ?; cbv beta zeta
  | |- lays _ _ (ctx _) =>
      apply lays_ctx; [reflexivity | first [reflexivity | assumption]]
  | |- lays _ _ (deref (Some _) _) => cbn [deref]; cbv beta zeta
  | |- lays _ _ (deref ?v _) =>
      match goal with E : v = Some _ |- _ => rewrite E end
  | |- lays _ _ (if ?b then _ else _) =>
      first [ match goal with E : b = _ |- _ => rewrite E end | destruct b ]
  end.

Ltac laid_out d Hc :=
  lazymatch goal with
  | |- exists _, ?f _ _ _ _ _ d = _ /\ _ => unfold f
  | |- exists _, ?f _ _ _ _ d = _ /\ _ => unfold f
  | |- exists _, ?f _ _ _ d = _ /\ _ => unfold f
  end;
  rewrite Hc; cbv beta zeta;
  eapply (bracket_lays (game d));
  [ eapply lays_eq; [ repeat lays_step | reflexivity ]
  | reflexivity | exact Hc ].

(** X5.  The block of text of each formatter, called with all its
    arguments there on a renderer with a context.  The first row is at
    y and each further row one lineHeight below the row before it, one
    rounding addition of doubles at a time; on a row the texts stand
    from x on, each one column width of the method after the one before
    it, and each is preceded by its shadow, one pixel right and down,
    when shadows are on; a row holds one text for a call of line and
    four for a call of splitline.  The method returns with the cursor in
    the column it started in, lineHeight added to y once for each row,
    and with the column width set to its own: 150 for a key, 100 for
    the coordinates of a sprite, 80 for a line, 210 for a body, 0 for
    the others. *)
Theorem formatters_layout :
  forall d c m fp,
    context d = Some c ->
    render_ok (game d) m = true ->
    footprint m = Some fp ->
    exists d',
      call m d = Normal d' /\
      currentX d' = fp_x fp /\
      currentY d' = add_times (fp_y fp) (lineHeight d) (List.length (fp_rows fp)) /\
      columnWidth d' = fp_columnWidth fp /\
      text_positions (emitted_since c d')
      = rows_layout (renderShadow d) (fp_x fp) (fp_columnWidth fp) (fp_y fp)
          (lineHeight d) (fp_rows fp).
Proof.
  intros d c m fp Hc Hok Hfp.
  destruct m; try discriminate; simpl in Hok; simpl call.
  - (* renderSoundInfo *)
    destruct sound as [s|]; [|discriminate].
    apply orb_true_iff in Hok. simpl in Hfp.
    destruct (String.eqb (currentMarker s) "") eqn:Em;
      injection Hfp as <-; cbn [fp_x fp_y fp_columnWidth fp_rows].
    + laid_out d Hc.
    + destruct Hok as [Hok|Hok]; [discriminate|].
      destruct (markers s (currentMarker s)) eqn:El; [|discriminate].
      laid_out d Hc.
  - destruct camera; [|discriminate]. injection Hfp as <-.
    cbn [fp_x fp_y fp_columnWidth fp_rows]. laid_out d Hc.
  - (* renderPointer *)
    destruct pointer as [p|]; [|discriminate]. injection Hfp as <-.
    cbn [fp_x fp_y fp_columnWidth fp_rows].
    apply andb_true_iff in Hok as [Hh Hr].
    apply negb_true_iff in Hh. apply negb_true_iff in Hr.
    assert (Hr' : Canvas.raises (Canvas.arc (pointer_x p) (pointer_y p)
                                   (circle_radius (pointer_circle p))) = false)
      by (apply arc_quiet; exact Hr).
    unfold renderPointer. rewrite Hc. cbv beta zeta. rewrite Hh.
    eapply (bracket_lays (game d));
      [ eapply lays_eq; [ repeat lays_step | reflexivity ]
      | reflexivity | exact Hc ].
  - (* renderSpriteInputInfo *)
    destruct sprite0 as [s|]; [|discriminate]. injection Hfp as <-.
    cbn [fp_x fp_y fp_columnWidth fp_rows].
    destruct (sprite_input s) eqn:Ei; [|discriminate].
    laid_out d Hc.
  - destruct key; [|discriminate]. injection Hfp as <-.
    cbn [fp_x fp_y fp_columnWidth fp_rows]. laid_out d Hc.
  - injection Hfp as <-. cbn [fp_x fp_y fp_columnWidth fp_rows]. laid_out d Hc.
  - destruct sprite0; [|discriminate]. injection Hfp as <-.
    cbn [fp_x fp_y fp_columnWidth fp_rows]. laid_out d Hc.
  - (* renderSpriteCoords *)
    destruct sprite0 as [s|]; [|discriminate]. simpl in Hfp.
    injection Hfp as <-. cbn [fp_x fp_y fp_columnWidth fp_rows].
    destruct (String.eqb (sprite_name s) "") eqn:En; laid_out d Hc.
  - destruct line0; [|discriminate]. injection Hfp as <-.
    cbn [fp_x fp_y fp_columnWidth fp_rows]. laid_out d Hc.
  - destruct point; [|discriminate]. injection Hfp as <-.
    cbn [fp_x fp_y fp_columnWidth fp_rows]. laid_out d Hc.
  - (* renderBodyInfo *)
    destruct sprite0 as [s|]; [|discriminate]. injection Hfp as <-.
    cbn [fp_x fp_y fp_columnWidth fp_rows].
    destruct (sprite_body s) eqn:Eb; [|discriminate].
    laid_out d Hc.
Qed.

(** ** The shapes of a body, in the order they are drawn *)

Lemma renderShapeAt_calls i x y a shapes offsets angles d c shape :
  context d = Some c ->
  nth_error shapes i = Some shape ->
  shape_ok (math (game d)) shape (nth_error offsets i) = true ->
  renderShapeAt i x y a shapes offsets angles d
  = Normal (with_context
              (Some (perform_all
                       (shape_calls (math (game d)) x y a offsets angles i shape) c)) d).
Proof.
  intros Hc Hs Hok. unfold renderShapeAt, shape_calls. rewrite Hs.
  destruct shape as [w h vs | l | vs | r | | | l r]; simpl in Hok.
  - destruct (nth_error offsets i) as [o|]; [|discriminate].
    destruct vs as [|p0 rest]; [discriminate|].
    rewrite renderShapeRectangle_as_convex.
    erewrite renderShapeConvex_step by (first [exact Hc | reflexivity]).
    reflexivity.
  - rewrite (renderShapeLine_step d c _ _ _ _ _ _ Hc).
    now destruct (nth_error offsets i).
  - destruct (nth_error offsets i) as [o|]; [|discriminate].
    destruct vs as [|p0 rest]; [discriminate|].
    erewrite renderShapeConvex_step by (first [exact Hc | reflexivity]).
    reflexivity.
  - destruct (nth_error offsets i) as [o|]; [|discriminate].
    apply negb_true_iff in Hok.
    rewrite (renderShapeCircle_step d c _ _ _ _ _ _ Hc); [|exact Hok].
    reflexivity.
  - unfold ret, perform_all. simpl. now rewrite (with_context_same d c Hc).
  - unfold ret, perform_all. simpl. now rewrite (with_context_same d c Hc).
  - unfold ret, perform_all. simpl. now rewrite (with_context_same d c Hc).
Qed.

Lemma nth_error_indexed_from {A : Type} (l : list A) : forall k n x,
  nth_error l n = Some x -> nth_error (indexed_from k l) n = Some ((k + n)%nat, x).
Proof.
  unfold indexed_from.
  induction l as [|a l IH]; intros k [|n] x H; try discriminate; simpl in *.
  - injection H as <-. now rewrite Nat.add_0_r.
  - rewrite (IH (S k) n x H). do 2 f_equal. lia.
Qed.

Lemma firstn_snoc {A : Type} (l : list A) : forall n x,
  nth_error l n = Some x -> firstn (S n) l = firstn n l ++ [x].
Proof.
  induction l as [|a l IH]; intros [|n] x H; try discriminate.
  - injection H as <-. reflexivity.
  - cbn [firstn app]. f_equal. apply (IH n x H).
Qed.

(** The loop from index [n] down: the shapes below [n], the last first. *)
Lemma renderShapes_calls body x y : forall n d c,
  (n <= List.length (p2.shapes body))%nat ->
  context d = Some c ->
  body_ok (math (game d)) body = true ->
  renderShapes n x y (p2.angle body) (p2.shapes body) (p2.shapeOffsets body)
    (p2.shapeAngles body) d
  = Normal (with_context
              (Some (perform_all
                       (List.concat
                          (map (fun p =>
                                  shape_calls (math (game d)) x y (p2.angle body)
                                    (p2.shapeOffsets body) (p2.shapeAngles body)
                                    (fst p) (snd p))
                             (rev (firstn n (indexed (p2.shapes body))))))
                       c)) d).
Proof.
  induction n as [|n IH]; intros d c Hn Hc Hb.
  - simpl. unfold ret, perform_all. simpl. now rewrite (with_context_same d c Hc).
  - destruct (nth_error (p2.shapes body) n) as [shape|] eqn:Hs;
      [ | apply nth_error_None in Hs; lia ].
    cbn [renderShapes]. unfold seq.
    rewrite (renderShapeAt_calls n x y _ _ _ _ d c shape Hc Hs
               (body_ok_shape _ _ _ _ Hb Hs)).
    set (c1 := perform_all _ c).
    assert (Hg : game (with_context (Some c1) d) = game d) by (destruct d; reflexivity).
    rewrite (IH (with_context (Some c1) d) c1);
      [ | lia | destruct d; reflexivity | now rewrite Hg ].
    rewrite Hg. subst c1. rewrite <- perform_all_app.
    pose proof (nth_error_indexed_from (p2.shapes body) 0 n shape Hs) as Hi.
    fold (indexed (p2.shapes body)) in Hi.
    rewrite (firstn_snoc _ _ _ Hi), rev_app_distr. cbn [rev app map List.concat fst snd].
    destruct d; reflexivity.
Qed.

(** X6.  renderPhysicsBody on a body in order sends, between the calls
    of its start at (0, 0) and of its stop, the calls of the shapes from
    the last of the body's list to the first, so that the first shape is
    stroked last, over the others: for each rectangle, line, convex and
    circle its beginPath and the save/restore pair around its path, at
    the body's position on the screen, and nothing for any other shape. *)
Theorem renderPhysicsBody_draws_last_to_first :
  forall d c body color,
    context d = Some c ->
    body_ok (math (game d)) body = true ->
    exists d',
      renderPhysicsBody (Some body) color d = Normal d' /\
      emitted_since c d' =
        start_calls (or_default color "rgb(255,255,255)") (font d)
        ++ List.concat
             (map (fun p =>
                     shape_calls (math (game d)) (body_x (game d) body) (body_y (game d) body)
                       (p2.angle body) (p2.shapeOffsets body) (p2.shapeAngles body)
                       (fst p) (snd p))
                (rev (indexed (p2.shapes body))))
        ++ stop_calls (Canvas.globalAlpha (Canvas.state c)) (has_sprite d).
Proof.
  intros d c body color Hc Hb. unfold renderPhysicsBody. rewrite Hc.
  unfold seq at 1. rewrite (start_step d c Hc). cbv zeta.
  unfold deref, seq at 1, get at 1.
  match goal with
  | |- context [renderShapes ?n ?x ?y ?a ?ss ?os ?gs ?d1] =>
      rewrite (renderShapes_calls body x y n d1 _ (le_n _) eq_refl Hb)
  end.
  match goal with
  | |- context [stop ?d2] => rewrite (stop_step d2 _ eq_refl)
  end.
  eexists. split; [reflexivity|].
  apply emitted_since_perform_all. fields.
  rewrite or_default_twice, <- !perform_all_app.
  unfold indexed, indexed_from. rewrite firstn_all2 by (rewrite length_combine, length_seq; lia).
  unfold has_sprite, body_x, body_y. fields. reflexivity.
Qed.

(** ** Colours *)

(** Unfold a method down to the calls it sends, and no arithmetic. *)
Ltac unfold_method :=
  cbv beta iota zeta delta
    [ seq ctx get assign ret deref start stop line shadow splitline splitline_loop
      read_globalAlpha updateWebGLTexture
      with_context with_columnWidth with_currentX with_currentY with_currentAlpha
      with_currentColor with_textureUpdates
      game sprite context font columnWidth lineHeight renderShadow
      currentX currentY currentAlpha currentColor textureUpdates
      Canvas.raises ].

Lemma emitted_since_intro c d' l :
  trace d' = Canvas.calls c ++ l -> emitted_since c d' = l.
Proof.
  intros H. unfold emitted_since. rewrite H.
  rewrite skipn_app, skipn_all, Nat.sub_diag. reflexivity.
Qed.

(** Read the calls a method has sent off the context it leaves. *)
Ltac read_emitted :=
  erewrite emitted_since_intro;
  [ | unfold trace; cbn [context];
      rewrite !calls_perform, <- !app_assoc; cbn [app]; reflexivity ].

(** X7.  renderPointer fills the circle of the pointer in downColor or
    upColor and never sets the fill colour back.  With shadows on, each
    of its five texts is drawn in black and then in the text colour, as
    line sets it; with shadows off, the five texts are drawn in the
    colour of the circle, not in the text colour. *)
Theorem renderPointer_text_colour :
  forall d c pointer hideIfUp downColor upColor color,
    context d = Some c ->
    render_ok (game d) (MrenderPointer (Some pointer) hideIfUp downColor upColor color) = true ->
    exists d',
      renderPointer (Some pointer) hideIfUp downColor upColor color d = Normal d' /\
      text_colours (emitted_since c d') c =
        if renderShadow d
        then List.concat (repeat ["rgb(0,0,0)"; or_default color "rgb(255,255,255)"] 5)
        else repeat (circle_colour pointer downColor upColor) 5.
Proof.
  intros d c p hide down up color Hc Hok. simpl in Hok.
  apply andb_true_iff in Hok as [Hh Hr].
  apply negb_true_iff in Hh. apply negb_true_iff in Hr.
  unfold renderPointer, circle_colour. rewrite Hc. cbv beta zeta. rewrite Hh.
  destruct d as [g sp cx f cw lh sh cX cY cA cC tu]; simpl in Hc; subst cx.
  assert (Hr' : Canvas.raises (Canvas.arc (pointer_x p) (pointer_y p)
                                 (circle_radius (pointer_circle p))) = false)
    by (apply arc_quiet; exact Hr).
  unfold ctx. rewrite Hr'.
  destruct (pointer_active p), sh, sp;
    unfold_method; (eexists; split; [reflexivity|]);
    read_emitted; rewrite or_default_twice; destruct c; reflexivity.
Qed.

(** A colour defaulted to a colour that is not empty is not defaulted
    again. *)
Lemma or_default_defaulted v a b :
  String.eqb a "" = false ->
  or_default (Some (or_default v a)) b = or_default v a.
Proof.
  intros Ha. unfold or_default.
  destruct v as [s|]; [|now rewrite Ha].
  destruct (String.eqb s "") eqn:E; [now rewrite Ha | now rewrite E].
Qed.

(** X8.  Each geometry method, on a renderer with a context, called
    with its object there and, for renderCircle, a radius that is not
    negative, makes one draw, and one only before the repaint of an
    off-screen canvas: the fillRect of two pixels of renderPixel, of
    four of renderPoint, the fillRect or, when not filled, the
    strokeRect of renderRectangle and renderSpriteBounds, the fill of
    renderCircle, the stroke of renderLine, the fillText of renderText,
    which has no shadow.  The draw is made in the colour asked for, or
    the default of the method, as fill or as stroke colour, in screen
    space at alpha 1, and in the renderer's font, renderText in the font
    it is given or 16px Courier.  renderCircle on a circle that makes
    arc throw, its radius being negative and its numbers finite, makes
    no draw: the IndexSizeError leaves it after its start. *)
Theorem primitives_draw_once :
  forall d c,
    context d = Some c ->
    (forall m k paint colour,
        render_ok (game d) m = true ->
        primitive_draw m = Some (k, paint, colour) ->
        exists d' s rest,
          call m d = Normal d' /\
          drawn (emitted_since c d') c = (k, s) :: rest /\
          map fst rest = repaint d /\
          paint_colour paint s = colour /\
          Canvas.transform s = identity /\
          Canvas.globalAlpha s = 1%Q /\
          Canvas.font s = primitive_font d m) /\
    (forall circle color,
        Canvas.raises (Canvas.arc (circle_x circle) (circle_y circle)
                         (circle_radius circle)) = true ->
        exists d',
          call (MrenderCircle (Some circle) color) d = Throw IndexSizeError d' /\
          draws (emitted_since c d') = []).
Proof.
  intros d c Hc.
  destruct d as [g sp cx f cw lh sh cX cY cA cC tu]; simpl in Hc; subst cx.
  destruct c as [s st cs].
  split; [ intros m k paint colour Hok Hp | intros circle color Hr ];
    [ | simpl call; unfold renderCircle; cbn [context deref]; cbv beta zeta;
        unfold ctx; rewrite Hr;
        unfold_method; (eexists; split; [reflexivity|]);
        read_emitted; reflexivity ].
  unfold repaint, has_sprite. cbn [sprite].
  destruct m; try discriminate; simpl in Hok, Hp; simpl call.
  - (* renderSpriteBounds *)
    destruct sprite0 as [s0|]; [|discriminate]. injection Hp as Hp.
    unfold rectangle_draw in Hp. unfold renderSpriteBounds, renderRectangle, filled_or_true in *.
    cbn [deref context]. cbv beta zeta.
    destruct filled as [[|]|], sp; injection Hp as <- <- <-;
      unfold_method; (eexists; eexists; eexists; split; [reflexivity|]);
      read_emitted; cbn; repeat (split; [reflexivity|]); reflexivity.
  - (* renderLine *)
    destruct line0 as [l0|]; [|discriminate]. injection Hp as <- <- <-.
    unfold renderLine. cbn [context]. cbv beta zeta.
    destruct sp;
      unfold_method; (eexists; eexists; eexists; split; [reflexivity|]);
      read_emitted; rewrite or_default_defaulted by reflexivity; cbn;
      repeat (split; [reflexivity|]); reflexivity.
  - (* renderPixel *)
    injection Hp as <- <- <-.
    unfold renderPixel. cbn [context]. cbv beta zeta.
    destruct sp;
      unfold_method; (eexists; eexists; eexists; split; [reflexivity|]);
      read_emitted; cbn; repeat (split; [reflexivity|]); reflexivity.
  - (* renderPoint *)
    destruct point as [p0|]; [|discriminate]. injection Hp as <- <- <-.
    unfold renderPoint. cbn [context]. cbv beta zeta.
    destruct sp;
      unfold_method; (eexists; eexists; eexists; split; [reflexivity|]);
      read_emitted; cbn; repeat (split; [reflexivity|]); reflexivity.
  - (* renderRectangle *)
    destruct rect as [r0|]; [|discriminate]. injection Hp as Hp.
    unfold rectangle_draw in Hp. unfold renderRectangle, filled_or_true in *.
    cbn [context]. cbv beta zeta.
    destruct filled as [[|]|], sp; injection Hp as <- <- <-;
      unfold_method; (eexists; eexists; eexists; split; [reflexivity|]);
      read_emitted; cbn; repeat (split; [reflexivity|]); reflexivity.
  - (* renderCircle *)
    destruct circle as [c0|]; [|discriminate]. injection Hp as <- <- <-.
    apply negb_true_iff in Hok.
    unfold renderCircle. cbn [context deref]. cbv beta zeta.
    assert (Hr' : Canvas.raises (Canvas.arc (circle_x c0) (circle_y c0)
                                   (circle_radius c0)) = false)
      by (apply arc_quiet; exact Hok).
    unfold ctx. rewrite Hr'.
    destruct sp;
      unfold_method; (eexists; eexists; eexists; split; [reflexivity|]);
      read_emitted; cbn; repeat (split; [reflexivity|]); reflexivity.
  - (* renderText *)
    injection Hp as <- <- <-.
    unfold renderText. cbn [context]. cbv beta zeta.
    destruct sp;
      unfold_method; (eexists; eexists; eexists; split; [reflexivity|]);
      read_emitted; cbn; repeat (split; [reflexivity|]); reflexivity.
Qed.

(** X9.  The colours line draws a text in, on a renderer with a
    context, in a bracket or not.  With shadows on: black for the shadow,
    then the current colour; and black again while there is no current
    colour, as on a new renderer before its first start, the assignment
    of undefined to fillStyle being ignored.  With shadows off: the
    fill colour the surface has, whatever set it. *)
Theorem line_text_colour :
  forall d c text x y,
    context d = Some c ->
    exists d',
      line text x y d = Normal d' /\
      text_colours (emitted_since c d') c =
        if renderShadow d
        then [ "rgb(0,0,0)";
               match currentColor d with
               | Some colour => colour
               | None => "rgb(0,0,0)"
               end ]
        else [ Canvas.fillStyle (Canvas.state c) ].
Proof.
  intros d c text x y Hc. rewrite (line_step d c Hc text x y). cbv zeta.
  eexists. split; [reflexivity|].
  erewrite emitted_since_perform_all by reflexivity.
  destruct c as [s st cs]. destruct (renderShadow d), (currentColor d); reflexivity.
Qed.

(** X10.  renderInputInfo never reads the vertical scale of the input:
    the text it prints after "Scale Y: " is the horizontal scale again,
    as the runtime's toFixed prints it, on its fourth row, at y with
    lineHeight added three times, so two games that differ in
    input.scale.y only get the same calls. *)
Theorem renderInputInfo_ignores_scale_y :
  forall d c x y color v,
    context d = Some c ->
    exists d1 d2,
      renderInputInfo x y color d = Normal d1 /\
      renderInputInfo x y color (with_scale_y v d) = Normal d2 /\
      emitted_since c d2 = emitted_since c d1 /\
      In (Canvas.fillText
            ("Scale X: " +s toFixed (px (input_scale (input (game d)))) 1
             +s " Scale Y: " +s toFixed (px (input_scale (input (game d)))) 1)
            (or_zero x) (or_zero y + lineHeight d + lineHeight d + lineHeight d))
         (emitted_since c d1).
Proof.
  intros d c x y color v Hc.
  destruct d as [g sp cx f cw lh sh cX cY cA cC tu]; simpl in Hc; subst cx.
  unfold renderInputInfo, with_scale_y. cbn [context game input input_scale px].
  cbv beta zeta.
  destruct sh, sp;
    unfold_method; (eexists; eexists; split; [reflexivity|]; split; [reflexivity|]);
    read_emitted; read_emitted; (split; [reflexivity|]);
    cbn [In]; repeat (first [ left; reflexivity | right ]).
Qed.

(** ** The colour of the texts *)

Lemma text_colours_app l1 l2 c :
  text_colours (l1 ++ l2) c = text_colours l1 c ++ text_colours l2 (perform_all l1 c).
Proof. unfold text_colours. now rewrite drawn_app, filter_app, map_app. Qed.

Lemma shadow_colours_add shadowed colour n1 n2 :
  shadow_colours shadowed colour (n1 + n2)
  = shadow_colours shadowed colour n1 ++ shadow_colours shadowed colour n2.
Proof.
  unfold shadow_colours.
  destruct shadowed; rewrite repeat_app; [apply concat_app | reflexivity].
Qed.

Lemma text_calls_colours shadowed colour text x y c :
  Canvas.fillStyle (Canvas.state c) = colour ->
  text_colours (text_calls shadowed (Some colour) text x y) c
  = shadow_colours shadowed colour 1 /\
  Canvas.fillStyle (Canvas.state (perform_all (text_calls shadowed (Some colour) text x y) c))
  = colour.
Proof.
  destruct c as [s st cs]. cbn [Canvas.state]. intros <-.
  destruct shadowed; split; reflexivity.
Qed.

Lemma columns_calls_colours shadowed colour columnWidth y arguments : forall x c,
  Canvas.fillStyle (Canvas.state c) = colour ->
  text_colours (columns_calls shadowed (Some colour) arguments x columnWidth y) c
  = shadow_colours shadowed colour (List.length arguments) /\
  Canvas.fillStyle
    (Canvas.state
       (perform_all (columns_calls shadowed (Some colour) arguments x columnWidth y) c))
  = colour.
Proof.
  induction arguments as [|a rest IH]; intros x c Hf.
  - split; [now destruct shadowed | exact Hf].
  - cbn [columns_calls List.length].
    destruct (text_calls_colours shadowed colour a x y c Hf) as [T1 F1].
    destruct (IH (x + columnWidth) _ F1) as [T2 F2].
    rewrite text_colours_app, perform_all_app, T1, T2.
    split; [|exact F2].
    change (S (List.length rest)) with (1 + List.length rest)%nat.
    now rewrite shadow_colours_add.
Qed.

Lemma paints_eq g colour n n' a : paints g colour n a -> n = n' -> paints g colour n' a.
Proof. intros H <-. exact H. Qed.

Lemma paints_ret g colour : paints g colour 0 ret.
Proof.
  intros d c _ Hin. exists [], d.
  split; [reflexivity|]. split; [reflexivity|]. split; [reflexivity|].
  split; [exact Hin | now destruct (renderShadow d)].
Qed.

Lemma paints_seq g colour n1 n2 a b :
  paints g colour n1 a -> paints g colour n2 b -> paints g colour (n1 + n2) (a ;; b).
Proof.
  intros Ha Hb d c Hg Hin.
  destruct (Ha d c Hg Hin) as (la & d1 & Ea & G1 & S1 & I1 & T1).
  assert (Hg1 : game d1 = g) by congruence.
  destruct (Hb d1 _ Hg1 I1) as (lb & d2 & Eb & G2 & S2 & I2 & T2).
  exists (la ++ lb), d2. unfold seq. rewrite Ea.
  split; [exact Eb|]. split; [congruence|]. split; [congruence|].
  split; [now rewrite perform_all_app|].
  now rewrite text_colours_app, T1, T2, S1, shadow_colours_add.
Qed.

Lemma paints_get g colour n f :
  (forall this, game this = g -> paints g colour n (f this)) -> paints g colour n (get f).
Proof. intros H d c Hg Hin. exact (H d Hg d c Hg Hin). Qed.

Lemma paints_line g colour text : paints g colour 1 (line text None None).
Proof.
  intros d c _ (Hc & Hcol & Hf). rewrite (line_step d c Hc text None None). cbv zeta.
  eexists. eexists. split; [reflexivity|]. fields. rewrite Hcol.
  destruct (text_calls_colours (renderShadow d) colour text (currentX d) (currentY d) c Hf)
    as [T F].
  split; [reflexivity|]. split; [reflexivity|].
  split; [|exact T]. unfold in_colour. fields. auto.
Qed.

Lemma paints_splitline g colour arguments :
  paints g colour (List.length arguments) (splitline arguments).
Proof.
  intros d c _ (Hc & Hcol & Hf). rewrite (splitline_step d c Hc arguments).
  eexists. eexists. split; [reflexivity|]. fields. rewrite Hcol.
  destruct (columns_calls_colours (renderShadow d) colour (columnWidth d) (currentY d)
              arguments (currentX d) c Hf) as [T F].
  split; [reflexivity|]. split; [reflexivity|].
  split; [|exact T]. unfold in_colour. fields. auto.
Qed.

Lemma paints_last_stop g colour : paints_last g colour 0 stop.
Proof.
  intros d c _ (Hc & _). rewrite (stop_step d c Hc).
  eexists. eexists. split; [reflexivity|]. split; [reflexivity|].
  unfold stop_calls, text_colours.
  destruct c as [s [|top st] cs], (has_sprite d), (renderShadow d); reflexivity.
Qed.

Lemma paints_last_seq g colour n1 n2 a b :
  paints g colour n1 a -> paints_last g colour n2 b ->
  paints_last g colour (n1 + n2) (a ;; b).
Proof.
  intros Ha Hb d c Hg Hin.
  destruct (Ha d c Hg Hin) as (la & d1 & Ea & G1 & S1 & I1 & T1).
  assert (Hg1 : game d1 = g) by congruence.
  destruct (Hb d1 _ Hg1 I1) as (lb & d2 & Eb & Hc2 & T2).
  exists (la ++ lb), d2. unfold seq. rewrite Ea.
  split; [exact Eb|]. split; [now rewrite perform_all_app|].
  now rewrite text_colours_app, T1, T2, S1, shadow_colours_add.
Qed.

Lemma or_default_nonempty v a :
  String.eqb a "" = false -> String.eqb (or_default v a) "" = false.
Proof.
  intros Ha. unfold or_default. destruct v as [s|]; [|exact Ha].
  destruct (String.eqb s "") eqn:E; [exact Ha | exact E].
Qed.

(** The texts of a bracket, from its start on. *)
Lemma bracket_paints g n rest d c x y colour width :
  String.eqb colour "" = false ->
  paints_last g colour n rest ->
  game d = g -> context d = Some c ->
  exists d',
    (start x y (Some colour) width ;; rest) d = Normal d' /\
    text_colours (emitted_since c d') c = shadow_colours (renderShadow d) colour n.
Proof.
  intros Hne Hb Hg Hc. unfold seq. rewrite (start_step d c Hc). cbv zeta.
  assert (Hd : or_default (Some colour) "rgb(255,255,255)" = colour)
    by (unfold or_default; now rewrite Hne).
  rewrite Hd.
  destruct (start_calls_effect colour (font d) c) as [Es _].
  match goal with
  | |- exists _, rest ?d1 = _ /\ _ =>
      destruct (Hb d1 (perform_all (start_calls colour (font d)) c) Hg)
        as (l & d2 & E & Hc2 & T)
  end.
  { unfold in_colour. fields. rewrite Es. auto. }
  exists d2. split; [exact E|]. revert T. fields. intros T.
  rewrite <- perform_all_app in Hc2.
  rewrite (emitted_since_perform_all _ _ _ Hc2), text_colours_app, T.
  destruct c; reflexivity.
Qed.

Ltac paints_step :=
  lazymatch goal with
  | |- paints_last _ _ _ stop => apply paints_last_stop
  | |- paints_last _ _ _ (seq _ _) => eapply paints_last_seq
  | |- paints _ _ _ (seq _ _) => eapply paints_seq
  | |- paints _ _ _ ret => apply paints_ret
  | |- paints _ _ _ (line _ None None) => apply paints_line
  | |- paints _ _ _ (splitline _) => apply paints_splitline
  | |- paints _ _ _ (get _) => apply paints_get; intros ? ?; cbv beta zeta
  | |- paints _ _ _ (deref (Some _) _) => cbn [deref]; cbv beta zeta
  | |- paints _ _ _ (deref ?v _) =>
      match goal with E : v = Some _ |- _ => rewrite E end
  | |- paints _ _ _ (if ?b then _ else _) =>
      match goal with E : b = _ |- _ => rewrite E end
  end.

Lemma paints_last_eq g colour n n' a :
  paints_last g colour n a -> n = n' -> paints_last g colour n' a.
Proof. intros H <-. exact H. Qed.

Ltac coloured_block d Hc :=
  lazymatch goal with
  | |- exists _, ?f _ _ _ _ _ d = _ /\ _ => unfold f
  | |- exists _, ?f _ _ _ _ d = _ /\ _ => unfold f
  | |- exists _, ?f _ _ _ d = _ /\ _ => unfold f
  end;
  rewrite Hc; cbv beta zeta;
  eapply (bracket_paints (game d));
  [ apply or_default_nonempty; reflexivity
  | eapply paints_last_eq; [ repeat paints_step | reflexivity ]
  | reflexivity | exact Hc ].

(** X11.  Each formatter but renderPointer draws all its texts in the
    colour it is asked for, or in its default: white, yellow for
    renderInputInfo; with shadows on each text is drawn in black first. *)
Theorem formatters_text_colour :
  forall d c m fp colour,
    context d = Some c ->
    render_ok (game d) m = true ->
    footprint m = Some fp ->
    text_colour m = Some colour ->
    exists d',
      call m d = Normal d' /\
      text_colours (emitted_since c d') c
      = shadow_colours (renderShadow d) colour (list_sum (fp_rows fp)).
Proof.
  intros d c m fp colour Hc Hok Hfp Hcol.
  destruct m; try discriminate; simpl in Hok; simpl call;
    injection Hcol as <-.
  - (* renderSoundInfo *)
    destruct sound as [s|]; [|discriminate].
    apply orb_true_iff in Hok. simpl in Hfp.
    destruct (String.eqb (currentMarker s) "") eqn:Em;
      injection Hfp as <-; cbn [fp_rows].
    + coloured_block d Hc.
    + destruct Hok as [Hok|Hok]; [discriminate|].
      destruct (markers s (currentMarker s)) eqn:El; [|discriminate].
      coloured_block d Hc.
  - destruct camera; [|discriminate]. injection Hfp as <-. cbn [fp_rows]. coloured_block d Hc.
  - (* renderSpriteInputInfo *)
    destruct sprite0 as [s|]; [|discriminate]. injection Hfp as <-. cbn [fp_rows].
    destruct (sprite_input s) eqn:Ei; [|discriminate].
    coloured_block d Hc.
  - destruct key; [|discriminate]. injection Hfp as <-. cbn [fp_rows]. coloured_block d Hc.
  - injection Hfp as <-. cbn [fp_rows]. coloured_block d Hc.
  - destruct sprite0; [|discriminate]. injection Hfp as <-. cbn [fp_rows]. coloured_block d Hc.
  - (* renderSpriteCoords *)
    destruct sprite0 as [s|]; [|discriminate]. simpl in Hfp.
    injection Hfp as <-. cbn [fp_rows].
    destruct (String.eqb (sprite_name s) "") eqn:En; coloured_block d Hc.
  - destruct line0; [|discriminate]. injection Hfp as <-. cbn [fp_rows]. coloured_block d Hc.
  - destruct point; [|discriminate]. injection Hfp as <-. cbn [fp_rows]. coloured_block d Hc.
  - (* renderBodyInfo *)
    destruct sprite0 as [s|]; [|discriminate]. injection Hfp as <-. cbn [fp_rows].
    destruct (sprite_body s) eqn:Eb; [|discriminate].
    coloured_block d Hc.
Qed.

(** ** The properties at work *)

End Properties.

#[local] Existing Instance example_runtime.

#[local] Set Warnings "-inexact-float".





(** A bracket with nothing in it, on a new canvas renderer. *)
Lemma start_stop_restores_surface_witness :
  exists d' c',
    (start (Some 10) (Some 20) (Some "rgb(1,2,3)") None ;; stop) (Debug_new canvas_game)
      = Normal d' /\
    context d' = Some c' /\
    Canvas.stack c' = [] /\
    Canvas.transform (Canvas.state c') = [Canvas.Matrix 1 0 0 1 0 0] /\
    Canvas.strokeStyle (Canvas.state c') = "#000000" /\
    Canvas.font (Canvas.state c') = "10px sans-serif" /\
    Canvas.globalAlpha (Canvas.state c') = 1%Q /\
    Canvas.lineWidth (Canvas.state c') = 1%Q /\
    Canvas.fillStyle (Canvas.state c') = "#000000" /\
    (sprite (Debug_new canvas_game) = None -> Canvas.state c' = Canvas.state Canvas.fresh).
Proof.
  exact (start_stop_restores_surface (Debug_new canvas_game) Canvas.fresh
           (Some 10) (Some 20) (Some "rgb(1,2,3)") None eq_refl).
Defined.

(** C3 as stated fails off screen.  A WebGL renderer that drew one line
    of text has a black fill colour; start and stop then leave it red. *)
Lemma start_stop_repaints_offscreen :
  exists dS d',
    lines ["fps"] (Debug_new webgl_game) = Normal dS /\
    (start None None None None ;; stop) dS = Normal d' /\
    option_map Canvas.fillStyle (ambient dS) = Some "rgb(0,0,0)" /\
    option_map Canvas.fillStyle (ambient d') = Some "#ff0000" /\
    ambient d' <> ambient dS.
Proof.
  eexists. eexists.
  split; [vm_compute; reflexivity|].
  split; [vm_compute; reflexivity|].
  split; [reflexivity|]. split; [reflexivity|].
  vm_compute. discriminate.
Qed.


(** A renderer configured with 120-pixel columns: renderText-like
    start(), a line, stop, and then a row of three fragments. *)
Lemma start_without_columnWidth_resets_it_witness :
  columnWidth (Debug_new webgl_game) = 100 /\
  exists d1,
    start (Some 4) (Some 8) None None
      (with_columnWidth 120 (Debug_new canvas_game)) = Normal d1 /\
    columnWidth d1 = 0 /\
    forall later,
      forallb keeps_columnWidth later = true ->
      exists d2 c2,
        run later d1 = Normal d2 /\
        context d2 = Some c2 /\
        columnWidth d2 = 0 /\
        (currentX d2 + 0 = currentX d2 \/
         (currentX d2 = neg_zero /\ currentX d2 + 0 = 0)) /\
        (forall arguments,
          exists d3,
            splitline arguments d2 = Normal d3 /\
            columnWidth d3 = 0 /\
            trace d3 = Canvas.calls c2 ++
              List.concat
                (map (fun '(i, a) =>
                        text_calls (renderShadow d2) (currentColor d2) a
                          (match i with
                           | O => currentX d2
                           | S _ => currentX d2 + 0
                           end) (currentY d2))
                   (indexed arguments))) /\
        forall x' y' color' width,
          exists d3,
            start x' y' color' width d2 = Normal d3 /\
            columnWidth d3 = or_zero width.
Proof.
  exact (start_without_columnWidth_resets_it webgl_game
           (with_columnWidth 120 (Debug_new canvas_game)) Canvas.fresh
           (Some 4) (Some 8) None eq_refl).
Defined.

(** C10 as stated fails on a later bracket that gives its column width.
    After renderText's start and stop have left the field at 0, the
    start of renderKey sets it to 150, and the row that follows is laid
    out in columns 150 pixels apart. *)
Lemma later_start_sets_columnWidth :
  exists d1 d2 d3,
    start (Some 4) (Some 8) None None (Debug_new canvas_game) = Normal d1 /\
    columnWidth d1 = 0 /\
    run [ Mstop; Mstart (Some 8) (Some 24) None (Some 150) ] d1 = Normal d2 /\
    columnWidth d2 = 150 /\
    splitline ["Key:"; "32"] d2 = Normal d3 /\
    columnWidth d3 = 150 /\
    draws (skipn (List.length (trace d2)) (trace d3))
    = [ Canvas.fillText "Key:" 9 25; Canvas.fillText "Key:" 8 24;
        Canvas.fillText "32" 159 25; Canvas.fillText "32" 158 24 ].
Proof.
  eexists. eexists. eexists.
  split; [vm_compute; reflexivity|].
  split; [reflexivity|].
  split; [vm_compute; reflexivity|].
  split; [reflexivity|].
  split; [vm_compute; reflexivity|].
  split; reflexivity.
Qed.

(** The loop over the four shapes of [example_body]. *)
Lemma renderShapes_scoped_per_shape_witness :
  (forall i shape,
      nth_error (p2.shapes example_body) i = Some shape ->
      exists d1 c1 emitted,
        renderShapeAt i (-100) (-100) (p2.angle example_body) (p2.shapes example_body)
          (p2.shapeOffsets example_body) (p2.shapeAngles example_body)
          (Debug_new canvas_game) = Normal d1 /\
        only_traced (Debug_new canvas_game) d1 Canvas.fresh c1 /\
        Canvas.calls c1 = Canvas.calls Canvas.fresh ++ emitted /\
        if recognised shape
        then exists inner, emitted = scoped inner /\ forallb unscoped inner = true
        else emitted = [] /\ d1 = Debug_new canvas_game) /\
  (exists d' c',
      renderShapes (List.length (p2.shapes example_body)) (-100) (-100)
        (p2.angle example_body) (p2.shapes example_body)
        (p2.shapeOffsets example_body) (p2.shapeAngles example_body)
        (Debug_new canvas_game) = Normal d' /\
      only_traced (Debug_new canvas_game) d' Canvas.fresh c') /\
  (forall color,
      exists d',
        renderPhysicsBody (Some example_body) color (Debug_new canvas_game) = Normal d' /\
        cursor d' = (0, 0, Some (or_default color "rgb(255,255,255)"), 0)).
Proof.
  exact (renderShapes_scoped_per_shape (Debug_new canvas_game) Canvas.fresh
           example_body (-100) (-100) eq_refl eq_refl).
Defined.

(** C8 as stated fails twice over.  On a body in order, rendering the
    body does change the Cursor State: the start that opens the bracket
    resets it, so a renderer with the column width 100 of a new renderer
    ends with 0.  And on a shape that is not in order the adapter throws:
    a convex without vertices makes renderPhysicsBody throw a TypeError
    at points[0][0], after the save, the translate and the rotate, so the
    surface is left translated, with two saved states on its stack and
    no stop. *)
Lemma renderPhysicsBody_resets_cursor_and_may_throw :
  (exists d',
      renderPhysicsBody (Some example_body) (Some "rgb(0,255,0)") (Debug_new canvas_game)
        = Normal d' /\
      cursor (Debug_new canvas_game) = (0, 0, None, 100) /\
      cursor d' = (0, 0, Some "rgb(0,255,0)", 0)) /\
  (exists d' s',
      renderPhysicsBody (Some degenerate_body) None (Debug_new canvas_game)
        = Throw TypeError d' /\
      ambient d' = Some s' /\
      Canvas.transform s'
        = [ Canvas.Matrix 1 0 0 1 0 0; Canvas.Translate (-120) (-120);
            Canvas.Rotate (0 + 0)%Q ] /\
      option_map Canvas.stack (context d')
        <> option_map Canvas.stack (context (Debug_new canvas_game))).
Proof.
  split.
  - eexists. split; [vm_compute; reflexivity|]. split; reflexivity.
  - eexists. eexists. split; [vm_compute; reflexivity|].
    split; [reflexivity|]. split; [reflexivity|].
    vm_compute. discriminate.
Qed.

(** renderText on a renderer whose game has no context yet. *)
Lemma null_context_calls_witness :
  call (MrenderText "fps: 60" 2 14 None None) (Debug_new unready_game)
  = if tolerates_null_context (MrenderText "fps: 60" 2 14 None None)
    then Normal (Debug_new unready_game)
    else Throw TypeError (Debug_new unready_game).
Proof.
  exact (null_context_calls (Debug_new unready_game)
           (MrenderText "fps: 60" 2 14 None None) eq_refl).
Defined.

(** C5 as stated fails on stop: on a renderer without a context it
    throws. *)
Lemma stop_throws_on_null_context :
  context (Debug_new unready_game) = None /\
  call Mstop (Debug_new unready_game) = Throw TypeError (Debug_new unready_game).
Proof. split; reflexivity. Qed.

(** On a new canvas renderer: renderPointer, renderRectangle and
    renderSpriteBounds, each without its object. *)
Lemma null_snapshot_calls_witness :
  renderPointer None None None None None (Debug_new canvas_game)
    = Normal (Debug_new canvas_game) /\
  (exists d' c' color font l,
      call (MrenderRectangle None None None) (Debug_new canvas_game)
      = Throw TypeError d' /\
      context d' = Some c' /\
      Canvas.calls c' = Canvas.calls Canvas.fresh ++ start_calls color font ++ l /\
      forallb simple l = true /\
      Canvas.stack c' = Canvas.state Canvas.fresh :: Canvas.stack Canvas.fresh) /\
  call (MrenderSpriteBounds None None None) (Debug_new canvas_game)
  = Throw TypeError (Debug_new canvas_game).
Proof.
  destruct (null_snapshot_calls (Debug_new canvas_game)) as (Hpointer & Hothers & _).
  split; [|split].
  - exact (Hpointer None None None None).
  - exact (Hothers Canvas.fresh (MrenderRectangle None None None) eq_refl eq_refl).
  - exact (Hothers Canvas.fresh (MrenderSpriteBounds None None None) eq_refl eq_refl).
Defined.

(** C6 as stated fails on every snapshot but the pointer.  renderPointInfo
    on a null point throws, and by then start has run: the context holds
    the calls of start and its stack the saved state, with no stop to
    come. *)
Lemma renderPointInfo_throws_on_null_point :
  exists d' c',
    renderPointInfo None (Some 0) (Some 0) None (Debug_new canvas_game)
      = Throw TypeError d' /\
    context d' = Some c' /\
    Canvas.calls c' = start_calls "rgb(255, 255, 255)" "14px Courier" /\
    Canvas.stack c' = [ Canvas.state Canvas.fresh ].
Proof.
  eexists. eexists. split; [vm_compute; reflexivity|].
  repeat split; reflexivity.
Qed.



(** A pixel, a body and a key on a surface at half opacity. *)
Lemma render_methods_restore_surface_witness :
  exists d' c',
    run [ MrenderPixel 3 4 None;
          MrenderPhysicsBody (Some example_body) None;
          MrenderKey (Some example_key) (Some 8) (Some 24) None ] translucent_debug
    = Normal d' /\
    context d' = Some c' /\
    Canvas.stack c' = [] /\
    Canvas.transform (Canvas.state c') = [Canvas.Matrix 1 0 0 1 0 0] /\
    Canvas.strokeStyle (Canvas.state c') = "#000000" /\
    Canvas.font (Canvas.state c') = "10px sans-serif" /\
    Canvas.globalAlpha (Canvas.state c') = (1 # 2)%Q /\
    Canvas.lineWidth (Canvas.state c') = 1%Q /\
    Canvas.fillStyle (Canvas.state c') = "#000000" /\
    textureUpdates d' = 0%nat.
Proof.
  exact (render_methods_restore_surface
           [ MrenderPixel 3 4 None;
             MrenderPhysicsBody (Some example_body) None;
             MrenderKey (Some example_key) (Some 8) (Some 24) None ]
           translucent_debug translucent eq_refl eq_refl).
Defined.

(** The shapes of [example_body] on a surface at half opacity. *)
Lemma render_methods_draw_in_screen_space_witness :
  exists d' color font l,
    call (MrenderPhysicsBody (Some example_body) None) translucent_debug = Normal d' /\
    trace d' =
      Canvas.calls translucent ++ start_calls color font ++ l
      ++ stop_calls (1 # 2) false /\
    Forall overlay_draw (drawn l (perform_all (start_calls color font) translucent)).
Proof.
  exact (render_methods_draw_in_screen_space translucent_debug translucent
           (MrenderPhysicsBody (Some example_body) None) eq_refl eq_refl).
Defined.

(** A text on the off-screen canvas of a WebGL game, and a pointer
    that is up and to be hidden. *)
Lemma render_methods_end_witness :
  (exists d' before,
      call (MrenderText "fps" 2 14 None None) (Debug_new webgl_game) = Normal d' /\
      trace d' = before ++ [ Canvas.restore; Canvas.set_globalAlpha 1%Q ]
                 ++ [ Canvas.set_fillStyle (Some "#ff0000"); Canvas.fillRect 0 0 400 400 ] /\
      textureUpdates d' = 1%nat /\
      (has_sprite (Debug_new webgl_game) = true ->
       exists earlier, draws (trace d') = earlier ++ [Canvas.fillRect 0 0 400 400])) /\
  call (MrenderPointer (Some idle_pointer) (Some true) None None None)
    (Debug_new webgl_game)
  = Normal (Debug_new webgl_game).
Proof.
  destruct (render_methods_end (Debug_new webgl_game) painted eq_refl)
    as (Hends & Hhidden).
  split.
  - exact (Hends (MrenderText "fps" 2 14 None None) eq_refl).
  - exact (Hhidden idle_pointer None None None eq_refl).
Defined.

(** renderCameraInfo without a camera. *)
Lemma unreadable_leaves_bracket_open_witness :
  exists d' c' color font l,
    call (MrenderCameraInfo None (Some 8) (Some 24) None) translucent_debug
    = Throw TypeError d' /\
    context d' = Some c' /\
    Canvas.calls c' = Canvas.calls translucent ++ start_calls color font ++ l /\
    Canvas.stack c' = [Canvas.state translucent] /\
    Canvas.transform (Canvas.state c') = identity /\
    Canvas.globalAlpha (Canvas.state c') = 1%Q /\
    Forall overlay_draw (drawn l (perform_all (start_calls color font) translucent)).
Proof.
  exact (unreadable_leaves_bracket_open translucent_debug translucent
           (MrenderCameraInfo None (Some 8) (Some 24) None) eq_refl eq_refl).
Defined.

(** The twelve texts and twelve shadows of renderKey at (8, 24): three
    rows sixteen pixels apart, four columns 150 pixels apart. *)
Lemma formatters_layout_witness :
  exists d',
    call (MrenderKey (Some example_key) (Some 8) (Some 24) None) (Debug_new canvas_game)
    = Normal d' /\
    currentX d' = 8 /\
    currentY d' = 24 + 16 + 16 + 16 /\
    columnWidth d' = 150 /\
    text_positions (emitted_since Canvas.fresh d')
    = [ (9, 25); (8, 24); (159, 25); (158, 24); (309, 25); (308, 24); (459, 25); (458, 24);
        (9, 41); (8, 40); (159, 41); (158, 40); (309, 41); (308, 40); (459, 41); (458, 40);
        (9, 57); (8, 56); (159, 57); (158, 56); (309, 57); (308, 56); (459, 57); (458, 56) ].
Proof.
  exact (formatters_layout (Debug_new canvas_game) Canvas.fresh
           (MrenderKey (Some example_key) (Some 8) (Some 24) None)
           (mkFootprint 8 24 150 [4; 4; 4]%nat) eq_refl eq_refl eq_refl).
Defined.

(** The circle, the line and the rectangle of [example_body], in that
    order; its plane sends nothing. *)
Lemma renderPhysicsBody_draws_last_to_first_witness :
  exists d',
    renderPhysicsBody (Some example_body) None (Debug_new canvas_game) = Normal d' /\
    emitted_since Canvas.fresh d' =
      start_calls "rgb(255,255,255)" "14px Courier"
      ++ (scoped (circle_inner example_math (-100) (-100) (p2.Circle 1) (0, 2))
          ++ scoped (line_inner example_math (-100) (-100) 0%Q (p2.Line 3) (Some 0%Q))
          ++ scoped (polygon_inner example_math (-100) (-100) 0%Q (-1, -1)
                       [(1, -1); (1, 1); (-1, 1)] (0, 0) (Some 0%Q)))
      ++ stop_calls 1%Q false.
Proof.
  exact (renderPhysicsBody_draws_last_to_first (Debug_new canvas_game) Canvas.fresh
           example_body None eq_refl eq_refl).
Defined.

(** The texts of a pointer that is down, with shadows off: all in the
    green of its circle. *)
Lemma renderPointer_text_colour_witness :
  exists d',
    renderPointer (Some example_pointer) None None None None
      (with_renderShadow false (Debug_new canvas_game)) = Normal d' /\
    text_colours (emitted_since Canvas.fresh d') Canvas.fresh
    = repeat "rgba(0,255,0,0.5)" 5.
Proof.
  exact (renderPointer_text_colour (with_renderShadow false (Debug_new canvas_game))
           Canvas.fresh example_pointer None None None None eq_refl eq_refl).
Defined.

(** The outline of a rectangle in blue, and a circle of radius -1. *)
Lemma primitives_draw_once_witness :
  (exists d' s rest,
      call (MrenderRectangle (Some (mkRectangle 10 20 30 40)) (Some "#0000ff") (Some false))
        translucent_debug = Normal d' /\
      drawn (emitted_since translucent d') translucent
      = (Canvas.strokeRect 10 20 30 40, s) :: rest /\
      map fst rest = [] /\
      Canvas.strokeStyle s = "#0000ff" /\
      Canvas.transform s = identity /\
      Canvas.globalAlpha s = 1%Q /\
      Canvas.font s = "14px Courier") /\
  exists d',
    call (MrenderCircle (Some (mkCircle 100 120 (-1))) None) translucent_debug
    = Throw IndexSizeError d' /\
    draws (emitted_since translucent d') = [].
Proof.
  destruct (primitives_draw_once translucent_debug translucent eq_refl)
    as (Hdraws & Hthrows).
  split.
  - exact (Hdraws
             (MrenderRectangle (Some (mkRectangle 10 20 30 40)) (Some "#0000ff") (Some false))
             (Canvas.strokeRect 10 20 30 40) Stroke "#0000ff" eq_refl eq_refl).
  - exact (Hthrows (mkCircle 100 120 (-1)) None eq_refl).
Defined.

(** A line on a new renderer, before any start: black on black. *)
Lemma line_text_colour_witness :
  exists d',
    line "fps" None None (Debug_new canvas_game) = Normal d' /\
    text_colours (emitted_since Canvas.fresh d') Canvas.fresh
    = [ "rgb(0,0,0)"; "rgb(0,0,0)" ].
Proof.
  exact (line_text_colour (Debug_new canvas_game) Canvas.fresh "fps" None None eq_refl).
Defined.

(** The input of [canvas_game] has the scale (1, 1); with the vertical
    scale 2 the fourth row still reads 1.0 twice. *)
Lemma renderInputInfo_ignores_scale_y_witness :
  exists d1 d2,
    renderInputInfo (Some 8) (Some 24) None (Debug_new canvas_game) = Normal d1 /\
    renderInputInfo (Some 8) (Some 24) None (with_scale_y 2 (Debug_new canvas_game))
    = Normal d2 /\
    emitted_since Canvas.fresh d2 = emitted_since Canvas.fresh d1 /\
    In (Canvas.fillText "Scale X: 1.0 Scale Y: 1.0" 8 (24 + 16 + 16 + 16))
       (emitted_since Canvas.fresh d1).
Proof.
  exact (renderInputInfo_ignores_scale_y (Debug_new canvas_game) Canvas.fresh
           (Some 8) (Some 24) None 2 eq_refl).
Defined.

(** The five texts of renderInputInfo, in its yellow. *)
Lemma formatters_text_colour_witness :
  exists d',
    call (MrenderInputInfo (Some 8) (Some 24) None) (Debug_new canvas_game) = Normal d' /\
    text_colours (emitted_since Canvas.fresh d') Canvas.fresh
    = [ "rgb(0,0,0)"; "rgb(255,255,0)"; "rgb(0,0,0)"; "rgb(255,255,0)";
        "rgb(0,0,0)"; "rgb(255,255,0)"; "rgb(0,0,0)"; "rgb(255,255,0)";
        "rgb(0,0,0)"; "rgb(255,255,0)" ].
Proof.
  exact (formatters_text_colour (Debug_new canvas_game) Canvas.fresh
           (MrenderInputInfo (Some 8) (Some 24) None)
           (mkFootprint 8 24 0 (repeat 1%nat 5)) "rgb(255,255,0)"
           eq_refl eq_refl eq_refl eq_refl).
Defined.

(** A camera that is not there, then a pixel and a text, on a surface at
    half opacity: the surface ends at full opacity, one state deeper. *)
Lemma cut_short_bracket_is_never_closed_witness :
  exists d1 d' c',
    call (MrenderCameraInfo None (Some 8) (Some 24) None) translucent_debug
    = Throw TypeError d1 /\
    run [ MrenderPixel 3 4 None; MrenderText "fps" 2 14 None None ] d1 = Normal d' /\
    context d' = Some c' /\
    Canvas.stack c' = [Canvas.state translucent] /\
    Canvas.transform (Canvas.state c') = identity /\
    Canvas.globalAlpha (Canvas.state c') = 1%Q.
Proof.
  exact (cut_short_bracket_is_never_closed translucent_debug translucent
           (MrenderCameraInfo None (Some 8) (Some 24) None)
           [ MrenderPixel 3 4 None; MrenderText "fps" 2 14 None None ]
           eq_refl eq_refl eq_refl).
Defined.
